(** * CD identifier: text-line extraction and metadata lookup

    A shallow embedding of [main.py]: the line normalisation at the end of
    [extract_text], and [lookup_metadata] with its two provider blocks
    (MusicBrainz with the cover-art enrichment call, and Spotify). *)

From Stdlib Require Import List NArith ZArith Bool String Ascii Lia.
From Stdlib Require Import Permutation.
From Stdlib Require DecimalFacts DecimalPos DecimalZ.
Import ListNotations.
Local Open Scope N_scope.

Set Implicit Arguments.
Set Warnings "-register-all".

(** ** Python strings *)

(** A Python [str] is a sequence of Unicode code points. *)
Module PyStr.

Definition t := list N.

(** An ASCII literal of the source, as a [str]. *)
Definition lit (s : string) : t :=
  List.map N_of_ascii (list_ascii_of_string s).

Definition eqb (a b : t) : bool :=
  if list_eq_dec N.eq_dec a b then true else false.

(** [str.isspace] on one code point: the characters CPython's
    [_PyUnicode_IsWhitespace] accepts. *)
Definition is_space (c : N) : bool :=
  ((9 <=? c) && (c <=? 13))
  || ((28 <=? c) && (c <=? 32))
  || (c =? 133) || (c =? 160) || (c =? 5760)
  || ((8192 <=? c) && (c <=? 8202))
  || (c =? 8232) || (c =? 8233) || (c =? 8239) || (c =? 8287)
  || (c =? 12288).

(** The line boundaries of [str.splitlines]: LF, VT, FF, CR, FS, GS, RS,
    NEL, LINE SEPARATOR and PARAGRAPH SEPARATOR. *)
Definition is_linebreak (c : N) : bool :=
  ((10 <=? c) && (c <=? 13))
  || ((28 <=? c) && (c <=? 30))
  || (c =? 133) || (c =? 8232) || (c =? 8233).

(** [splitlines], with the line being scanned in [line].  A CR directly
    followed by LF is one boundary; a boundary at the very end of the text
    opens no further line. *)
Fixpoint splitlines_from (line : t) (s : t) : list t :=
  match s with
  | [] => match line with [] => [] | _ => [line] end
  | c :: rest =>
      if is_linebreak c then
        line ::
        match rest with
        | c' :: rest' =>
            if (c =? 13) && (c' =? 10) then splitlines_from [] rest'
            else splitlines_from [] rest
        | [] => splitlines_from [] rest
        end
      else splitlines_from (line ++ [c]) rest
  end.

Definition splitlines (s : t) : list t := splitlines_from [] s.

Fixpoint lstrip (s : t) : t :=
  match s with
  | c :: rest => if is_space c then lstrip rest else s
  | [] => []
  end.

Definition rstrip (s : t) : t := rev (lstrip (rev s)).

Definition strip (s : t) : t := rstrip (lstrip s).

(** Truth value of a [str]: non-empty. *)
Definition truthy (s : t) : bool :=
  match s with [] => false | _ => true end.

End PyStr.

Abbreviation py_str := PyStr.t.

(** ** [extract_text] *)

(** The last line of [extract_text]:
    [[line.strip() for line in text.splitlines() if line.strip()]]. *)
Fixpoint stripped_lines (lines : list py_str) : list py_str :=
  match lines with
  | [] => []
  | line :: rest =>
      if PyStr.truthy (PyStr.strip line)
      then PyStr.strip line :: stripped_lines rest
      else stripped_lines rest
  end.

Definition text_lines (text : py_str) : list py_str :=
  stripped_lines (PyStr.splitlines text).

(** The two OCR engines are outside the program; each hands back the text
    it read.  [openai_client] is the optional hosted engine. *)
Definition extract_text (Image : Type)
    (pytesseract_image_to_string : Image -> py_str)
    (image_file : Image) (openai_client : option (Image -> py_str))
  : list py_str :=
  let text :=
    match openai_client with
    | Some chat_completion => chat_completion image_file
    | None => pytesseract_image_to_string image_file
    end in
  text_lines text.

(** The normaliser as the specification words it: split on line boundaries,
    trim every line, then drop the lines that are empty. *)
Definition normalize_spec (raw_text : py_str) : list py_str :=
  filter PyStr.truthy (List.map PyStr.strip (PyStr.splitlines raw_text)).

(** ** Python values and exceptions *)

(** The values that flow through [lookup_metadata]: what the providers hand
    back (decoded JSON, or the dictionaries musicbrainzngs builds) and what
    the function assembles from it.  A [dict] keeps its insertion order. *)
Inductive value : Type :=
| VNone
| VBool (b : bool)
| VInt (z : Z)
| VStr (s : py_str)
| VList (items : list value)
| VDict (items : list (py_str * value)).

(** Instances of [Exception], the class both handlers name. *)
Inductive exn : Type :=
| KeyError
| IndexError
| TypeError
| AttributeError
| OtherError (message : py_str).

Inductive outcome (A : Type) : Type :=
| Ok (a : A)
| Raise (e : exn).
Arguments Ok {A} a.
Arguments Raise {A} e.

Module Py.

Local Abbreviation lit := PyStr.lit.

(** [bool(v)]. *)
Definition truthy (v : value) : bool :=
  match v with
  | VNone => false
  | VBool b => b
  | VInt z => negb (Z.eqb z 0)
  | VStr s => PyStr.truthy s
  | VList items => match items with [] => false | _ => true end
  | VDict items => match items with [] => false | _ => true end
  end.

Fixpoint dict_lookup (key : py_str) (items : list (py_str * value))
  : option value :=
  match items with
  | [] => None
  | (k, v) :: rest => if PyStr.eqb k key then Some v else dict_lookup key rest
  end.

(** [v.get(key, default)]: only a [dict] has the method. *)
Definition get (v : value) (key : py_str) (default : value) : outcome value :=
  match v with
  | VDict items =>
      match dict_lookup key items with
      | Some x => Ok x
      | None => Ok default
      end
  | _ => Raise AttributeError
  end.

(** [v[key]] with a [str] key. *)
Definition getitem (v : value) (key : py_str) : outcome value :=
  match v with
  | VDict items =>
      match dict_lookup key items with
      | Some x => Ok x
      | None => Raise KeyError
      end
  | _ => Raise TypeError
  end.

(** [v[0]]. *)
Definition first (v : value) : outcome value :=
  match v with
  | VList items =>
      match items with
      | x :: _ => Ok x
      | [] => Raise IndexError
      end
  | VStr s =>
      match s with
      | c :: _ => Ok (VStr [c])
      | [] => Raise IndexError
      end
  | VDict _ => Raise KeyError
  | _ => Raise TypeError
  end.

Definition keys (v : value) : list py_str :=
  match v with
  | VDict items => List.map fst items
  | _ => []
  end.

End Py.

(** ** The world outside, and the state of a run *)

(** The three remote calls [lookup_metadata] makes. *)
Inductive call : Type :=
| SearchReleases (query : py_str)
| CoverArt (mbid : value)
| SpotifySearch (query : py_str).

Section Lookup.

(** Whatever the remote services depend on; a reply may change it. *)
Variable World : Type.

(** A remote call: a reply or an exception, and the world afterwards. *)
Definition remote (A : Type) : Type := A -> World -> outcome value * World.

(** [musicbrainzngs.search_releases(query=query, limit=1)], and
    [requests.get(f"https://coverartarchive.org/release/{mbid}").json()]
    as one call on the identifier the address is built from. *)
Record services : Type := {
  search_releases : remote py_str;
  cover_art_json : remote value
}.

(** [spotify_client.search(q=query, type='album', limit=1)]. *)
Definition spotify : Type := remote py_str.

(** The state a run threads: the world, the remote calls made so far, and
    the [matches] list of the entry being filled. *)
Record heap : Type := {
  world : World;
  calls : list call;
  matches : list value
}.

Definition M (A : Type) : Type := heap -> outcome A * heap.

Definition ret {A} (a : A) : M A := fun h => (Ok a, h).

Definition bind {A B} (m : M A) (k : A -> M B) : M B :=
  fun h =>
    match m h with
    | (Ok a, h') => k a h'
    | (Raise e, h') => (Raise e, h')
    end.

(** A pure step that may raise. *)
Definition lift {A} (o : outcome A) : M A := fun h => (o, h).

(** [try: body / except Exception: pass]. *)
Definition try_pass (body : M unit) : M unit :=
  fun h =>
    match body h with
    | (Ok _, h') => (Ok tt, h')
    | (Raise _, h') => (Ok tt, h')
    end.

Definition invoke {A} (f : remote A) (c : call) (a : A) : M value :=
  fun h =>
    let (reply, w) := f a (world h) in
    (reply, {| world := w; calls := calls h ++ [c]; matches := matches h |}).

(** [entry['matches'].append(m)]. *)
Definition append_match (m : value) : M unit :=
  fun h =>
    (Ok tt, {| world := world h; calls := calls h;
               matches := matches h ++ [m] |}).

(** [entry = {"query_text": query, "matches": []}]: a fresh, empty list. *)
Definition new_matches : M unit :=
  fun h => (Ok tt, {| world := world h; calls := calls h; matches := [] |}).

Definition read_matches : M (list value) := fun h => (Ok (matches h), h).

Notation "x <- m ;; k" := (bind m (fun x => k))
  (at level 61, m at next level, right associativity).
Notation "m ;;; k" := (bind m (fun _ => k))
  (at level 61, right associativity).

Local Abbreviation lit := PyStr.lit.

(** ** [lookup_metadata] *)

(** The record the MusicBrainz block appends. *)
Definition musicbrainz_match (artist title mbid cover_url : value) : value :=
  VDict [ (lit "source", VStr (lit "MusicBrainz"));
          (lit "artist", artist);
          (lit "title", title);
          (lit "mbid", mbid);
          (lit "cover_art_url", cover_url) ].

(** The record the Spotify block appends. *)
Definition spotify_match (artist title spotify_id cover_url : value) : value :=
  VDict [ (lit "source", VStr (lit "Spotify"));
          (lit "artist", artist);
          (lit "title", title);
          (lit "spotify_id", spotify_id);
          (lit "cover_art_url", cover_url) ].

Variable S : services.

(** [r['artist-credit'][0]['artist']['name']]. *)
Definition artist_credit_name (r : value) : outcome value :=
  match Py.getitem r (lit "artist-credit") with
  | Raise e => Raise e
  | Ok credits =>
      match Py.first credits with
      | Raise e => Raise e
      | Ok credit =>
          match Py.getitem credit (lit "artist") with
          | Raise e => Raise e
          | Ok artist => Py.getitem artist (lit "name")
          end
      end
  end.

(** The suite of the first [try]. *)
Definition musicbrainz_suite (query : py_str) : M unit :=
  mb <- invoke (search_releases S) (SearchReleases query) query ;;
  release_list <- lift (Py.get mb (lit "release-list") (VList [])) ;;
  if Py.truthy release_list then
    r <- lift (Py.first release_list) ;;
    mbid <- lift (Py.get r (lit "id") VNone) ;;
    artist <- lift (artist_credit_name r) ;;
    title <- lift (Py.get r (lit "title") VNone) ;;
    art_json <- invoke (cover_art_json S) (CoverArt mbid) mbid ;;
    images <- lift (Py.get art_json (lit "images") VNone) ;;
    cover_url <-
      (if Py.truthy images then
         images' <- lift (Py.getitem art_json (lit "images")) ;;
         image <- lift (Py.first images') ;;
         lift (Py.get image (lit "image") VNone)
       else ret VNone) ;;
    append_match (musicbrainz_match artist title mbid cover_url)
  else ret tt.

(** [alb['artists'][0]['name']]. *)
Definition first_artist_name (alb : value) : outcome value :=
  match Py.getitem alb (lit "artists") with
  | Raise e => Raise e
  | Ok artists =>
      match Py.first artists with
      | Raise e => Raise e
      | Ok a => Py.getitem a (lit "name")
      end
  end.

(** [alb['images'][0]['url'] if alb['images'] else None]: the condition is
    evaluated first. *)
Definition first_image_url (alb : value) : outcome value :=
  match Py.getitem alb (lit "images") with
  | Raise e => Raise e
  | Ok images =>
      if Py.truthy images then
        match Py.getitem alb (lit "images") with
        | Raise e => Raise e
        | Ok images' =>
            match Py.first images' with
            | Raise e => Raise e
            | Ok image => Py.getitem image (lit "url")
            end
        end
      else Ok VNone
  end.

(** The suite of the second [try]. *)
Definition spotify_suite (client : spotify) (query : py_str) : M unit :=
  sp_res <- invoke client (SpotifySearch query) query ;;
  albums <- lift (Py.get sp_res (lit "albums") (VDict [])) ;;
  items <- lift (Py.get albums (lit "items") (VList [])) ;;
  if Py.truthy items then
    alb <- lift (Py.first items) ;;
    artist <- lift (first_artist_name alb) ;;
    title <- lift (Py.getitem alb (lit "name")) ;;
    cover_url <- lift (first_image_url alb) ;;
    spotify_id <- lift (Py.getitem alb (lit "id")) ;;
    append_match (spotify_match artist title spotify_id cover_url)
  else ret tt.

(** The [entry] dictionary, once its [matches] list is filled. *)
Definition entry (query : py_str) (ms : list value) : value :=
  VDict [ (lit "query_text", VStr query); (lit "matches", VList ms) ].

(** The body of the [for] loop; its value is the entry it appends to
    [results]. *)
Definition lookup_query (spotify_client : option spotify) (query : py_str)
  : M value :=
  new_matches ;;;
  try_pass (musicbrainz_suite query) ;;;
  match spotify_client with
  | Some client => try_pass (spotify_suite client query)
  | None => ret tt
  end ;;;
  ms <- read_matches ;;
  ret (entry query ms).

Fixpoint for_queries (spotify_client : option spotify) (lines : list py_str)
    (results : list value) : M (list value) :=
  match lines with
  | [] => ret results
  | query :: rest =>
      e <- lookup_query spotify_client query ;;
      for_queries spotify_client rest (results ++ [e])
  end.

(** [lookup_metadata(lines, spotify_client)].  Setting the user agent
    touches no remote service and no value of the run. *)
Definition lookup_metadata (lines : list py_str)
    (spotify_client : option spotify) : M (list value) :=
  for_queries spotify_client lines [].

End Lookup.

(** ** What the normaliser is to achieve *)

(** A text cut at its line boundaries: every line is free of boundary
    characters, a CR LF pair is one boundary, and a text that ends in a
    boundary has no empty last line. *)
Definition unbroken (line : py_str) : Prop :=
  Forall (fun c => PyStr.is_linebreak c = false) line.

Inductive boundary : py_str -> py_str -> Prop :=
| boundary_crlf rest : boundary [13; 10] rest
| boundary_one c rest :
    PyStr.is_linebreak c = true ->
    (c = 13 -> forall rest', rest <> 10 :: rest') ->
    boundary [c] rest.

Inductive cut_at_boundaries : py_str -> list py_str -> Prop :=
| cut_empty : cut_at_boundaries [] []
| cut_last line :
    line <> [] -> unbroken line -> cut_at_boundaries line [line]
| cut_line line b rest lines :
    unbroken line -> boundary b rest -> cut_at_boundaries rest lines ->
    cut_at_boundaries (line ++ b ++ rest) (line :: lines).

Definition blank (s : py_str) : Prop :=
  Forall (fun c => PyStr.is_space c = true) s.

(** No whitespace at either end. *)
Definition trimmed (s : py_str) : Prop :=
  (forall c rest, s = c :: rest -> PyStr.is_space c = false)
  /\ (forall front c, s = front ++ [c] -> PyStr.is_space c = false).

(** [q] is [line] without its leading and trailing whitespace. *)
Definition trim_of (line q : py_str) : Prop :=
  trimmed q /\ exists before after,
    line = before ++ q ++ after /\ blank before /\ blank after.

(** [kept] keeps some elements of [all], in their order. *)
Inductive subsequence (A : Type) : list A -> list A -> Prop :=
| subsequence_nil : subsequence [] []
| subsequence_keep x kept all :
    subsequence kept all -> subsequence (x :: kept) (x :: all)
| subsequence_drop x kept all :
    subsequence kept all -> subsequence kept (x :: all).

(** The lines that survive, before trimming. *)
Definition survivors (lines : list py_str) : list py_str :=
  filter (fun line => PyStr.truthy (PyStr.strip line)) lines.

(** ** The blocks as functions of the replies

    What each [try] suite computes, given the replies of the remote calls
    it makes: [Ok (Some m)] when it appends the record [m], [Ok None] when
    the provider found nothing, [Raise e] when a step raises. *)

Definition and_then (A B : Type) (o : outcome A) (k : A -> outcome B)
  : outcome B :=
  match o with
  | Ok a => k a
  | Raise e => Raise e
  end.

Notation "x <-- o ;; k" := (and_then o (fun x => k))
  (at level 61, o at next level, right associativity).

Definition cover_url_of (art_json : value) : outcome value :=
  images <-- Py.get art_json (PyStr.lit "images") VNone ;;
  if Py.truthy images then
    images' <-- Py.getitem art_json (PyStr.lit "images") ;;
    image <-- Py.first images' ;;
    Py.get image (PyStr.lit "image") VNone
  else Ok VNone.

Definition musicbrainz_record (search_reply : outcome value)
    (art_reply : value -> outcome value) : outcome (option value) :=
  mb <-- search_reply ;;
  release_list <-- Py.get mb (PyStr.lit "release-list") (VList []) ;;
  if Py.truthy release_list then
    r <-- Py.first release_list ;;
    mbid <-- Py.get r (PyStr.lit "id") VNone ;;
    artist <-- artist_credit_name r ;;
    title <-- Py.get r (PyStr.lit "title") VNone ;;
    art_json <-- art_reply mbid ;;
    cover_url <-- cover_url_of art_json ;;
    Ok (Some (musicbrainz_match artist title mbid cover_url))
  else Ok None.

Definition spotify_record (search_reply : outcome value)
  : outcome (option value) :=
  sp_res <-- search_reply ;;
  albums <-- Py.get sp_res (PyStr.lit "albums") (VDict []) ;;
  items <-- Py.get albums (PyStr.lit "items") (VList []) ;;
  if Py.truthy items then
    alb <-- Py.first items ;;
    artist <-- first_artist_name alb ;;
    title <-- Py.getitem alb (PyStr.lit "name") ;;
    cover_url <-- first_image_url alb ;;
    spotify_id <-- Py.getitem alb (PyStr.lit "id") ;;
    Ok (Some (spotify_match artist title spotify_id cover_url))
  else Ok None.

(** The record a block leaves in [matches], if any. *)
Definition found (record : outcome (option value)) : list value :=
  match record with
  | Ok (Some m) => [m]
  | _ => []
  end.

(** How a block ends. *)
Definition ending (record : outcome (option value)) : outcome unit :=
  match record with
  | Ok _ => Ok tt
  | Raise e => Raise e
  end.

(** The [source] tag of a match. *)
Definition source_of (m : value) : option py_str :=
  match m with
  | VDict items =>
      match Py.dict_lookup (PyStr.lit "source") items with
      | Some (VStr s) => Some s
      | _ => None
      end
  | _ => None
  end.

Definition has_source (s : py_str) (m : value) : bool :=
  match source_of m with
  | Some s' => PyStr.eqb s' s
  | None => false
  end.

(** The sources of the adapters of a run, in the order the blocks come. *)
Definition registered_sources (spotify_configured : bool) : list py_str :=
  PyStr.lit "MusicBrainz"
  :: (if spotify_configured then [PyStr.lit "Spotify"] else []).

Definition configured (A : Type) (client : option A) : bool :=
  match client with Some _ => true | None => false end.

Definition is_spotify_call (c : call) : bool :=
  match c with SpotifySearch _ => true | _ => false end.

(** A remote call whose replies do not depend on the state of the world:
    [reply] is its fixed response function. *)
Definition fixed (World A : Type) (f : A -> World -> outcome value * World)
    (reply : A -> outcome value) : Prop :=
  forall a w, fst (f a w) = reply a.

(** A remote call that raises whatever it is asked. *)
Definition always_raises (World A : Type)
    (f : A -> World -> outcome value * World) : Prop :=
  forall a w, exists e, fst (f a w) = Raise e.

(** ** What a run leaves behind *)

Definition no_spotify_call (cs : list call) : Prop :=
  Forall (fun c => is_spotify_call c = false) cs.

Section Answers.

Variable World : Type.
Variable S : services World.

(** The Spotify part of an entry's matches: nothing without a client,
    else what the Spotify block makes of the client's reply. *)
Definition spotify_part (spotify_client : option (spotify World))
    (query : py_str) (part : list value) : Prop :=
  match spotify_client with
  | None => part = []
  | Some client =>
      exists w, part = found (spotify_record (fst (client query w)))
  end.

(** [e] is the entry of [query]: its matches are what the two blocks make
    of replies the services gave. *)
Inductive answers (spotify_client : option (spotify World))
    (query : py_str) : value -> Prop :=
| answers_intro w art_reply part :
    (forall mbid, exists w',
        art_reply mbid = fst (cover_art_json S mbid w')) ->
    spotify_part spotify_client query part ->
    answers spotify_client query
      (entry query
         (found (musicbrainz_record (fst (search_releases S query w))
                   art_reply)
          ++ part)).

End Answers.

(** The [matches] list of an entry. *)
Definition matches_of (e : value) : list value :=
  match Py.getitem e (PyStr.lit "matches") with
  | Ok (VList ms) => ms
  | _ => []
  end.

(** The matches of an entry that carry the source tag [s]. *)
Definition from_source (s : py_str) (e : value) : list value :=
  filter (has_source s) (matches_of e).

(** The keys of a MusicBrainz record and of a Spotify record. *)
Definition musicbrainz_keys : list py_str :=
  List.map PyStr.lit
    ["source"; "artist"; "title"; "mbid"; "cover_art_url"]%string.

Definition spotify_keys : list py_str :=
  List.map PyStr.lit
    ["source"; "artist"; "title"; "spotify_id"; "cover_art_url"]%string.


(** ** Runs against fixed replies *)

(** A client whose replies are fixed, or no client. *)
Definition fixed_client (World : Type)
    (spotify_client : option (spotify World))
    (sp_reply : option (py_str -> outcome value)) : Prop :=
  match spotify_client, sp_reply with
  | Some client, Some reply => fixed client reply
  | None, None => True
  | _, _ => False
  end.

Definition musicbrainz_matches (mb_reply : py_str -> outcome value)
    (art_reply : value -> outcome value) (query : py_str) : list value :=
  found (musicbrainz_record (mb_reply query) art_reply).

Definition spotify_matches (sp_reply : option (py_str -> outcome value))
    (query : py_str) : list value :=
  match sp_reply with
  | Some reply => found (spotify_record (reply query))
  | None => []
  end.

(** The entry of a query when every provider answers by a fixed
    function. *)
Definition resolved_entry (mb_reply : py_str -> outcome value)
    (art_reply : value -> outcome value)
    (sp_reply : option (py_str -> outcome value)) (query : py_str) : value :=
  entry query
    (musicbrainz_matches mb_reply art_reply query
     ++ spotify_matches sp_reply query).


(** ** Sample services

    A world that counts the remote calls made in it, and providers whose
    replies do not depend on that count. *)
Module Sample.

Definition abbey_road : py_str := PyStr.lit "Abbey Road".
Definition garbled : py_str := PyStr.lit "??garbled??".

Definition credit (name : string) : py_str * value :=
  (PyStr.lit "artist-credit",
   VList [VDict [(PyStr.lit "artist",
                  VDict [(PyStr.lit "name", VStr (PyStr.lit name))])]]).

Definition releases (found : list value) : value :=
  VDict [(PyStr.lit "release-list", VList found);
         (PyStr.lit "release-count", VInt (Z.of_nat (List.length found)))].

(** A release with every field the block reads. *)
Definition full_release : value :=
  VDict [(PyStr.lit "id", VStr (PyStr.lit "mbid-1"));
         (PyStr.lit "title", VStr abbey_road);
         credit "The Beatles"].



Definition front_cover : value :=
  VDict [(PyStr.lit "images",
          VList [VDict [(PyStr.lit "image",
                         VStr (PyStr.lit "http://covers/1.jpg"))]])].


(** The search finds [release] for "Abbey Road" and nothing else. *)
Definition search_reply (release : value) (query : py_str) : outcome value :=
  if PyStr.eqb query abbey_road then Ok (releases [release])
  else Ok (releases []).

Definition counted (A : Type) (reply : A -> outcome value)
  : A -> nat -> outcome value * nat :=
  fun a n => (reply a, Datatypes.S n).

Definition catalogue (release : value) (art_json : value) : services nat :=
  {| search_releases := counted (search_reply release);
     cover_art_json := counted (fun _ => Ok art_json) |}.

Definition timeout : exn := OtherError (PyStr.lit "timed out").

(** MusicBrainz unreachable. *)
Definition offline : services nat :=
  {| search_releases := counted (fun _ => Raise timeout);
     cover_art_json := counted (fun _ => Raise timeout) |}.

Definition album : value :=
  VDict [(PyStr.lit "artists",
          VList [VDict [(PyStr.lit "name", VStr (PyStr.lit "The Beatles"))]]);
         (PyStr.lit "name", VStr abbey_road);
         (PyStr.lit "images", VList []);
         (PyStr.lit "id", VStr (PyStr.lit "0ETFjACtuP2ADo6LFhL6HN"))].

Definition albums (found : list value) : value :=
  VDict [(PyStr.lit "albums", VDict [(PyStr.lit "items", VList found)])].

Definition album_reply (query : py_str) : outcome value :=
  if PyStr.eqb query abbey_road then Ok (albums [album]) else Ok (albums []).

Definition spotify_catalogue : spotify nat := counted album_reply.
Definition spotify_nothing : spotify nat := counted (fun _ => Ok (albums [])).
Definition spotify_offline : spotify nat := counted (fun _ => Raise timeout).

Definition start : heap nat := {| world := 0%nat; calls := []; matches := [] |}.

End Sample.

(** ** The limits of the interpreter

    [max_str_digits] is [sys.get_int_max_str_digits()]: the longest decimal
    writing of an [int] that [str], [repr] and [int] still convert, 4300
    by default from CPython 3.11 on, 0 where there is no limit.
    [max_depth] is the number of lists and dicts inside one another that
    the JSON encoder, or the scanner, can enter before the recursion limit
    of the interpreter is reached. *)
Record limits : Type := {
  max_str_digits : nat;
  max_depth : nat
}.

Definition value_error : exn := OtherError (PyStr.lit "ValueError").
Definition recursion_error : exn := OtherError (PyStr.lit "RecursionError").

(** ** JSON text

    [json.dumps(results, indent=2)] as [main] calls it (ASCII output, items
    separated by [","] and a new line, keys by [": "]), and [json.loads]
    for reading the text back. *)
Module Json.

(** *** Encoding *)

Definition hex_digit (d : N) : N := if d <? 10 then 48 + d else 87 + d.

(** [\uXXXX], four lower-case hexadecimal digits. *)
Definition u_escape (n : N) : py_str :=
  [92; 117; hex_digit (n / 4096 mod 16); hex_digit (n / 256 mod 16);
   hex_digit (n / 16 mod 16); hex_digit (n mod 16)].

(** One character of a string: the short escapes, the printable ASCII
    characters as they are, everything else as [\uXXXX], a character
    beyond the basic plane as a surrogate pair. *)
Definition escape_char (c : N) : py_str :=
  if c =? 34 then [92; 34]
  else if c =? 92 then [92; 92]
  else if c =? 10 then [92; 110]
  else if c =? 13 then [92; 114]
  else if c =? 9 then [92; 116]
  else if c =? 8 then [92; 98]
  else if c =? 12 then [92; 102]
  else if (32 <=? c) && (c <=? 126) then [c]
  else if c <? 65536 then u_escape c
  else
    let n := c - 65536 in
    u_escape (N.lor 55296 (N.land (N.shiftr n 10) 1023))
    ++ u_escape (N.lor 56320 (N.land n 1023)).

Definition encode_string (s : py_str) : py_str :=
  [34] ++ flat_map escape_char s ++ [34].

Fixpoint uint_chars (u : Decimal.uint) : py_str :=
  match u with
  | Decimal.Nil => []
  | Decimal.D0 u => 48 :: uint_chars u
  | Decimal.D1 u => 49 :: uint_chars u
  | Decimal.D2 u => 50 :: uint_chars u
  | Decimal.D3 u => 51 :: uint_chars u
  | Decimal.D4 u => 52 :: uint_chars u
  | Decimal.D5 u => 53 :: uint_chars u
  | Decimal.D6 u => 54 :: uint_chars u
  | Decimal.D7 u => 55 :: uint_chars u
  | Decimal.D8 u => 56 :: uint_chars u
  | Decimal.D9 u => 57 :: uint_chars u
  end.

(** The decimal writing of [z]: its digits, after a minus sign for a
    negative number. *)
Definition decimal (z : Z) : py_str :=
  match Z.to_int z with
  | Decimal.Pos u => uint_chars u
  | Decimal.Neg u => 45 :: uint_chars u
  end.

(** Whether a number of so many digits is converted. *)
Definition short (L : limits) (u : Decimal.uint) : bool :=
  ((max_str_digits L =? 0) || (List.length (uint_chars u) <=? max_str_digits L))%nat.

Definition short_enough (L : limits) (z : Z) : bool :=
  match Z.to_int z with
  | Decimal.Pos u => short L u
  | Decimal.Neg u => short L u
  end.

(** [int.__repr__], which [str], an f-string and the JSON encoder call: a
    [ValueError] for a number with more digits than the limit. *)
Definition int_repr (L : limits) (z : Z) : outcome py_str :=
  if short_enough L z then Ok (decimal z) else Raise value_error.

(** A new line and the indentation of [level]. *)
Definition newline_indent (level : nat) : py_str :=
  10 :: repeat 32 (2 * level).

Fixpoint join (sep : py_str) (chunks : list py_str) : py_str :=
  match chunks with
  | [] => []
  | [chunk] => chunk
  | chunk :: rest => chunk ++ sep ++ join sep rest
  end.

(** The items of a non-empty [list] or [dict], between its brackets. *)
Definition block (opening closing : N) (level : nat) (chunks : list py_str)
  : py_str :=
  [opening] ++ newline_indent (Datatypes.S level)
  ++ join (44 :: newline_indent (Datatypes.S level)) chunks
  ++ newline_indent level ++ [closing].

(** [f] on each element in turn, up to the first that raises. *)
Definition all_of (A B : Type) (f : A -> outcome B)
  : list A -> outcome (list B) :=
  fix go (l : list A) : outcome (list B) :=
    match l with
    | [] => Ok []
    | x :: rest =>
        y <-- f x ;;
        ys <-- go rest ;;
        Ok (y :: ys)
    end.

(** The encoder, [stack] being the number of lists and dicts it can still
    enter and [level] the indentation.  It goes through the items from left
    to right and stops at the first it cannot write: a [RecursionError]
    where the nesting goes deeper than [stack], a [ValueError] for an
    [int] with too many digits. *)
Fixpoint encode (L : limits) (stack level : nat) (v : value) {struct v}
  : outcome py_str :=
  match v with
  | VNone => Ok (PyStr.lit "null")
  | VBool true => Ok (PyStr.lit "true")
  | VBool false => Ok (PyStr.lit "false")
  | VInt z => int_repr L z
  | VStr s => Ok (encode_string s)
  | VList items =>
      match stack with
      | O => Raise recursion_error
      | Datatypes.S stack' =>
          match items with
          | [] => Ok (PyStr.lit "[]")
          | _ :: _ =>
              chunks <--
                all_of (encode L stack' (Datatypes.S level)) items ;;
              Ok (block 91 93 level chunks)
          end
      end
  | VDict items =>
      match stack with
      | O => Raise recursion_error
      | Datatypes.S stack' =>
          match items with
          | [] => Ok (PyStr.lit "{}")
          | _ :: _ =>
              chunks <--
                all_of (fun kv =>
                          text <--
                            encode L stack' (Datatypes.S level) (snd kv) ;;
                          Ok (encode_string (fst kv) ++ [58; 32] ++ text))
                  items ;;
              Ok (block 123 125 level chunks)
          end
      end
  end.

(** [json.dumps(v, indent=2)]. *)
Definition dumps (L : limits) (v : value) : outcome py_str :=
  encode L (max_depth L) 0 v.

(** The text of [v] at [level], as the encoder writes it when nothing
    stops it. *)
Fixpoint written (level : nat) (v : value) : py_str :=
  match v with
  | VNone => PyStr.lit "null"
  | VBool true => PyStr.lit "true"
  | VBool false => PyStr.lit "false"
  | VInt z => decimal z
  | VStr s => encode_string s
  | VList [] => PyStr.lit "[]"
  | VList items =>
      block 91 93 level (List.map (written (Datatypes.S level)) items)
  | VDict [] => PyStr.lit "{}"
  | VDict items =>
      block 123 125 level
        (List.map (fun kv => encode_string (fst kv) ++ [58; 32]
                             ++ written (Datatypes.S level) (snd kv)) items)
  end.

(** Whether the encoder, and the scanner, get through [v] with [stack]
    levels of nesting left: no [int] has too many digits and no list or
    dict lies deeper than [stack]. *)
Fixpoint fits (L : limits) (stack : nat) (v : value) {struct v} : bool :=
  match v with
  | VInt z => short_enough L z
  | VList items =>
      match stack with
      | O => false
      | Datatypes.S stack' => forallb (fits L stack') items
      end
  | VDict items =>
      match stack with
      | O => false
      | Datatypes.S stack' => forallb (fun kv => fits L stack' (snd kv)) items
      end
  | _ => true
  end.

(** *** Decoding *)

Definition is_ws (c : N) : bool :=
  (c =? 32) || (c =? 9) || (c =? 10) || (c =? 13).

Fixpoint skip_ws (s : py_str) : py_str :=
  match s with
  | c :: rest => if is_ws c then skip_ws rest else s
  | [] => []
  end.

Definition hex_value (c : N) : option N :=
  if (48 <=? c) && (c <=? 57) then Some (c - 48)
  else if (97 <=? c) && (c <=? 102) then Some (c - 87)
  else if (65 <=? c) && (c <=? 70) then Some (c - 55)
  else None.

Definition hex4_value (c1 c2 c3 c4 : N) : option N :=
  match hex_value c1, hex_value c2, hex_value c3, hex_value c4 with
  | Some d1, Some d2, Some d3, Some d4 =>
      Some (d1 * 4096 + d2 * 256 + d3 * 16 + d4)
  | _, _, _, _ => None
  end.

Definition is_high_surrogate (c : N) : bool := (55296 <=? c) && (c <=? 56319).
Definition is_low_surrogate (c : N) : bool := (56320 <=? c) && (c <=? 57343).

Definition join_surrogates (hi lo : N) : N :=
  65536 + N.lor (N.shiftl (hi - 55296) 10) (lo - 56320).

(** The character a short escape stands for. *)
Definition unescape (c : N) : option N :=
  if c =? 34 then Some 34
  else if c =? 92 then Some 92
  else if c =? 47 then Some 47
  else if c =? 98 then Some 8
  else if c =? 102 then Some 12
  else if c =? 110 then Some 10
  else if c =? 114 then Some 13
  else if c =? 116 then Some 9
  else None.

Definition cons_char (c : N) (r : option (py_str * py_str))
  : option (py_str * py_str) :=
  match r with
  | Some (str, rest) => Some (c :: str, rest)
  | None => None
  end.

(** The body of a string, up to its closing quote (strict mode: a raw
    control character is an error).  A [\u] escape of a high surrogate that
    is directly followed by a [\u] escape of a low surrogate is one
    character. *)
Fixpoint scan_string (s : py_str) : option (py_str * py_str) :=
  match s with
  | [] => None
  | c :: rest =>
      if c =? 34 then Some ([], rest)
      else if c =? 92 then
        match rest with
        | [] => None
        | esc :: rest1 =>
            if esc =? 117 then
              match rest1 with
              | h1 :: h2 :: h3 :: h4 :: rest2 =>
                  match hex4_value h1 h2 h3 h4 with
                  | None => None
                  | Some uni =>
                      if is_high_surrogate uni then
                        match rest2 with
                        | b :: u :: rest3 =>
                            if (b =? 92) && (u =? 117) then
                              match rest3 with
                              | k1 :: k2 :: k3 :: k4 :: rest4 =>
                                  match hex4_value k1 k2 k3 k4 with
                                  | None => None
                                  | Some uni2 =>
                                      if is_low_surrogate uni2 then
                                        cons_char (join_surrogates uni uni2)
                                          (scan_string rest4)
                                      else cons_char uni (scan_string rest2)
                                  end
                              | _ => None
                              end
                            else cons_char uni (scan_string rest2)
                        | _ => cons_char uni (scan_string rest2)
                        end
                      else cons_char uni (scan_string rest2)
                  end
              | _ => None
              end
            else
              match unescape esc with
              | Some ch => cons_char ch (scan_string rest1)
              | None => None
              end
        end
      else if c <? 32 then None
      else cons_char c (scan_string rest)
  end.

Definition digit_of (c : N) : option (Decimal.uint -> Decimal.uint) :=
  if c =? 48 then Some Decimal.D0
  else if c =? 49 then Some Decimal.D1
  else if c =? 50 then Some Decimal.D2
  else if c =? 51 then Some Decimal.D3
  else if c =? 52 then Some Decimal.D4
  else if c =? 53 then Some Decimal.D5
  else if c =? 54 then Some Decimal.D6
  else if c =? 55 then Some Decimal.D7
  else if c =? 56 then Some Decimal.D8
  else if c =? 57 then Some Decimal.D9
  else None.

Definition is_digit (c : N) : bool := (48 <=? c) && (c <=? 57).

(** The longest run of digits. *)
Fixpoint read_digits (s : py_str) : Decimal.uint * py_str :=
  match s with
  | c :: rest =>
      match digit_of c with
      | Some d => let (u, r) := read_digits rest in (d u, r)
      | None => (Decimal.Nil, s)
      end
  | [] => (Decimal.Nil, [])
  end.

(** [0|[1-9]\d*]. *)
Definition read_integer (s : py_str) : option (Decimal.uint * py_str) :=
  match s with
  | c :: rest =>
      if c =? 48 then Some (Decimal.D0 Decimal.Nil, rest)
      else
        match digit_of c with
        | Some d => let (u, r) := read_digits rest in Some (d u, r)
        | None => None
        end
  | [] => None
  end.

(** Whether a fraction [\.\d+] or an exponent [[eE][-+]?\d+] follows: the
    number is then a [float]. *)
Definition float_follows (s : py_str) : bool :=
  match s with
  | c :: d :: rest =>
      if c =? 46 then is_digit d
      else if (c =? 101) || (c =? 69) then
        if (d =? 45) || (d =? 43) then
          match rest with
          | d' :: _ => is_digit d'
          | [] => false
          end
        else is_digit d
      else false
  | _ => false
  end.

Section Scanner.

(** The limits of the interpreter that reads. *)
Variable L : limits.

(** A number.  A [float] (a number with a fraction or an exponent, and
    likewise [NaN] and [Infinity]) is no value of this development: nothing
    is returned for it.  [int] refuses digits beyond the limit. *)
Definition read_number (s : py_str) : option (value * py_str) :=
  match s with
  | c :: rest =>
      if c =? 45 then
        match read_integer rest with
        | Some (u, r) =>
            if float_follows r then None
            else if short L u then Some (VInt (Z.of_int (Decimal.Neg u)), r)
            else None
        | None => None
        end
      else
        match read_integer s with
        | Some (u, r) =>
            if float_follows r then None
            else if short L u then Some (VInt (Z.of_int (Decimal.Pos u)), r)
            else None
        | None => None
        end
  | [] => None
  end.

Fixpoint starts_with (prefix s : py_str) : option py_str :=
  match prefix, s with
  | [], _ => Some s
  | p :: prefix', c :: s' => if p =? c then starts_with prefix' s' else None
  | _ :: _, [] => None
  end.

(** [d[key] = v] on a [dict] in insertion order. *)
Fixpoint dict_set (key : py_str) (v : value) (items : list (py_str * value))
  : list (py_str * value) :=
  match items with
  | [] => [(key, v)]
  | (k, x) :: rest =>
      if PyStr.eqb k key then (k, v) :: rest
      else (k, x) :: dict_set key v rest
  end.

(** [dict(pairs)]. *)
Definition dict_of_pairs (pairs : list (py_str * value))
  : list (py_str * value) :=
  fold_left (fun d kv => dict_set (fst kv) (snd kv) d) pairs [].

(** The scanner: a value at the head of [s], and the text after it.
    [fuel] bounds the number of steps, [depth] is the number of lists and
    dicts the scanner can still enter: it gives up (a [RecursionError])
    on one more. *)
Fixpoint parse_value (fuel depth : nat) (s : py_str) {struct fuel}
  : option (value * py_str) :=
  match fuel with
  | O => None
  | Datatypes.S fuel =>
      match s with
      | [] => None
      | c :: rest =>
          if c =? 34 then
            match scan_string rest with
            | Some (str, r) => Some (VStr str, r)
            | None => None
            end
          else if c =? 123 then
            match depth with
            | O => None
            | Datatypes.S depth =>
            match skip_ws rest with
            | c' :: r =>
                if c' =? 125 then Some (VDict [], r)
                else
                  match parse_members fuel depth (skip_ws rest) with
                  | Some (pairs, r') => Some (VDict (dict_of_pairs pairs), r')
                  | None => None
                  end
            | [] => None
            end
            end
          else if c =? 91 then
            match depth with
            | O => None
            | Datatypes.S depth =>
            match skip_ws rest with
            | c' :: r =>
                if c' =? 93 then Some (VList [], r)
                else
                  match parse_items fuel depth (skip_ws rest) with
                  | Some (items, r') => Some (VList items, r')
                  | None => None
                  end
            | [] => None
            end
            end
          else
            match starts_with (PyStr.lit "null") s with
            | Some r => Some (VNone, r)
            | None =>
            match starts_with (PyStr.lit "true") s with
            | Some r => Some (VBool true, r)
            | None =>
            match starts_with (PyStr.lit "false") s with
            | Some r => Some (VBool false, r)
            | None => read_number s
            end end end
      end
  end

with parse_items (fuel depth : nat) (s : py_str) {struct fuel}
  : option (list value * py_str) :=
  match fuel with
  | O => None
  | Datatypes.S fuel =>
      match parse_value fuel depth s with
      | None => None
      | Some (v, s1) =>
          match skip_ws s1 with
          | c :: s2 =>
              if c =? 93 then Some ([v], s2)
              else if c =? 44 then
                match parse_items fuel depth (skip_ws s2) with
                | Some (vs, s3) => Some (v :: vs, s3)
                | None => None
                end
              else None
          | [] => None
          end
      end
  end

with parse_members (fuel depth : nat) (s : py_str) {struct fuel}
  : option (list (py_str * value) * py_str) :=
  match fuel with
  | O => None
  | Datatypes.S fuel =>
      match s with
      | q :: s0 =>
          if q =? 34 then
            match scan_string s0 with
            | None => None
            | Some (key, s1) =>
                match skip_ws s1 with
                | c :: s2 =>
                    if c =? 58 then
                      match parse_value fuel depth (skip_ws s2) with
                      | None => None
                      | Some (v, s3) =>
                          match skip_ws s3 with
                          | c' :: s4 =>
                              if c' =? 125 then Some ([(key, v)], s4)
                              else if c' =? 44 then
                                match parse_members fuel depth (skip_ws s4) with
                                | Some (ms, s5) => Some ((key, v) :: ms, s5)
                                | None => None
                                end
                              else None
                          | [] => None
                          end
                      end
                    else None
                | [] => None
                end
            end
          else None
      | [] => None
      end
  end.

(** [json.loads(text)]: one value, with nothing but whitespace around it.
    [None] stands for an exception: a [JSONDecodeError], or the
    [ValueError] and the [RecursionError] of the limits. *)
Definition loads (text : py_str) : option value :=
  match parse_value (List.length text) (max_depth L) (skip_ws text) with
  | Some (v, rest) =>
      match skip_ws rest with
      | [] => Some v
      | _ :: _ => None
      end
  | None => None
  end.

End Scanner.

End Json.

(** ** Values that JSON text can carry *)

(** A [str] as text: code points in the Unicode range, and no high
    surrogate directly followed by a low surrogate (the two halves of a
    character that was cut; no text read from UTF-8 or from JSON has
    them). *)
Fixpoint pair_free (s : py_str) : bool :=
  match s with
  | c :: rest =>
      match rest with
      | c' :: _ => negb (Json.is_high_surrogate c && Json.is_low_surrogate c')
      | [] => true
      end && pair_free rest
  | [] => true
  end.

Definition is_text (s : py_str) : bool :=
  forallb (fun c => c <? 1114112) s && pair_free s.

(** The strings of a value are text and the keys of each of its [dict]s are
    pairwise distinct. *)
Inductive well_formed : value -> Prop :=
| wf_none : well_formed VNone
| wf_bool b : well_formed (VBool b)
| wf_int z : well_formed (VInt z)
| wf_str s : is_text s = true -> well_formed (VStr s)
| wf_list items : Forall well_formed items -> well_formed (VList items)
| wf_dict items :
    NoDup (List.map fst items) ->
    Forall (fun kv => is_text (fst kv) = true) items ->
    Forall (fun kv => well_formed (snd kv)) items ->
    well_formed (VDict items).

(** A remote call that replies with well-formed values. *)
Definition replies_well_formed (World A : Type)
    (f : A -> World -> outcome value * World) : Prop :=
  forall a w v, fst (f a w) = Ok v -> well_formed v.

(** What follows a value in the text [json.dumps] writes: the end, a comma
    or a new line. *)
Definition ends_item (rest : py_str) : bool :=
  match rest with
  | [] => true
  | c :: _ => (c =? 44) || (c =? 10)
  end.

(** The text after an escaped high surrogate does not go on with the escape
    of a low surrogate. *)
Definition no_low_escape (s : py_str) : Prop :=
  match s with
  | b :: u :: rest =>
      (b =? 92) && (u =? 117) = true ->
      exists k1 k2 k3 k4 rest' uni,
        rest = k1 :: k2 :: k3 :: k4 :: rest'
        /\ Json.hex4_value k1 k2 k3 k4 = Some uni
        /\ Json.is_low_surrogate uni = false
  | _ => True
  end.

(** No digit goes on after a number. *)
Definition stops_digits (rest : py_str) : Prop :=
  match rest with
  | c :: _ => Json.digit_of c = None
  | [] => True
  end.

(** A text that starts with the first character of a value. *)
Definition starts_value (s : py_str) : Prop :=
  match s with
  | c :: _ => Json.is_ws c = false /\ c <> 93 /\ c <> 125
  | [] => False
  end.

(** [v], written at any level and followed by the end of an item, is read
    back as [v] from the text by a scanner that can enter [depth] lists
    and dicts, given fuel for the length of its text. *)
Definition reads_back (L : limits) (depth : nat) (v : value) : Prop :=
  forall level rest fuel,
    ends_item rest = true ->
    (List.length (Json.written level v) <= fuel)%nat ->
    Json.parse_value L fuel depth (Json.written level v ++ rest)
    = Some (v, rest).

(** The text of one member of a [dict]. *)
Definition member (level : nat) (kv : py_str * value) : py_str :=
  Json.encode_string (fst kv) ++ [58; 32] ++ Json.written level (snd kv).

(** [well_formed], computed. *)
Fixpoint distinct (keys : list py_str) : bool :=
  match keys with
  | [] => true
  | k :: rest => negb (existsb (PyStr.eqb k) rest) && distinct rest
  end.

Fixpoint check (v : value) : bool :=
  match v with
  | VStr s => is_text s
  | VList items => forallb check items
  | VDict items =>
      distinct (List.map fst items)
      && forallb (fun kv => is_text (fst kv) && check (snd kv)) items
  | _ => true
  end.

(** Text in which every character is an ASCII character: its encoding in
    UTF-8 has one byte for each character, with the same code. *)
Definition ascii_text (s : py_str) : Prop := Forall (fun c => c < 128) s.

(** ** Induction on values

    The induction principle of [value], with the hypothesis for the items
    of a [list] and of a [dict]. *)
Section ValueInduction.

Variable P : value -> Prop.
Hypothesis HNone : P VNone.
Hypothesis HBool : forall b, P (VBool b).
Hypothesis HInt : forall z, P (VInt z).
Hypothesis HStr : forall s, P (VStr s).
Hypothesis HList : forall items, Forall P items -> P (VList items).
Hypothesis HDict :
  forall items, Forall (fun kv => P (snd kv)) items -> P (VDict items).

Fixpoint value_induction (v : value) : P v :=
  match v with
  | VNone => HNone
  | VBool b => HBool b
  | VInt z => HInt z
  | VStr s => HStr s
  | VList items =>
      HList
        ((fix all (l : list value) : Forall P l :=
            match l with
            | [] => Forall_nil P
            | x :: l' => Forall_cons x (value_induction x) (all l')
            end) items)
  | VDict items =>
      HDict
        ((fix all (l : list (py_str * value))
            : Forall (fun kv => P (snd kv)) l :=
            match l with
            | [] => Forall_nil _
            | kv :: l' =>
                Forall_cons (P := fun kv => P (snd kv)) kv
                  (value_induction (snd kv)) (all l')
            end) items)
  end.

End ValueInduction.

(** ** More of a run: the remote calls it makes *)

(** The cover-art request of the MusicBrainz block, if its suite gets as
    far: it is made for the identifier of the first release, once the
    artist and the title have been read. *)
Definition cover_art_request (search_reply : outcome value) : list call :=
  match
    (mb <-- search_reply ;;
     release_list <-- Py.get mb (PyStr.lit "release-list") (VList []) ;;
     if Py.truthy release_list then
       r <-- Py.first release_list ;;
       mbid <-- Py.get r (PyStr.lit "id") VNone ;;
       artist <-- artist_credit_name r ;;
       title <-- Py.get r (PyStr.lit "title") VNone ;;
       Ok (Some mbid)
     else Ok None)
  with
  | Ok (Some mbid) => [CoverArt mbid]
  | _ => []
  end.

(** The remote calls of one pass of the loop, in the order they are made. *)
Definition calls_for (spotify_configured : bool) (query : py_str)
    (search_reply : outcome value) : list call :=
  SearchReleases query :: cover_art_request search_reply
  ++ (if spotify_configured then [SpotifySearch query] else []).

(** ** [str.encode('utf-8')] *)

Definition unicode_encode_error : exn :=
  OtherError (PyStr.lit "UnicodeEncodeError").

(** The bytes of one character; a surrogate cannot be encoded. *)
Definition utf8_char (c : N) : outcome (list N) :=
  if c <? 128 then Ok [c]
  else if c <? 2048 then
    Ok [N.lor 192 (N.shiftr c 6); N.lor 128 (N.land c 63)]
  else if c <? 65536 then
    if (55296 <=? c) && (c <=? 57343) then Raise unicode_encode_error
    else
      Ok [N.lor 224 (N.shiftr c 12);
          N.lor 128 (N.land (N.shiftr c 6) 63);
          N.lor 128 (N.land c 63)]
  else
    Ok [N.lor 240 (N.shiftr c 18);
        N.lor 128 (N.land (N.shiftr c 12) 63);
        N.lor 128 (N.land (N.shiftr c 6) 63);
        N.lor 128 (N.land c 63)].

Fixpoint utf8_encode (s : py_str) : outcome (list N) :=
  match s with
  | [] => Ok []
  | c :: rest =>
      bytes <-- utf8_char c ;;
      more <-- utf8_encode rest ;;
      Ok (bytes ++ more)
  end.

(** [json.dumps(results, indent=2).encode('utf-8')], the data of the
    download. *)
Definition json_data (L : limits) (results : list value)
  : outcome (list N) :=
  text <-- Json.dumps L (VList results) ;;
  utf8_encode text.

(** ** ["\n".join(lines)] *)

Definition join_lines (lines : list py_str) : py_str := Json.join [10] lines.

(** ** More sample services *)
Module Demo.

(** A second release, of another artist. *)
Definition other_release : value :=
  VDict [(PyStr.lit "id", VStr (PyStr.lit "mbid-2"));
         (PyStr.lit "title", VStr (PyStr.lit "Abbey Road Revisited"));
         Sample.credit "Franck Pourcel"].

(** The search finds two releases for "Abbey Road". *)
Definition two_releases (query : py_str) : outcome value :=
  if PyStr.eqb query Sample.abbey_road
  then Ok (Sample.releases [Sample.full_release; other_release])
  else Ok (Sample.releases []).

Definition long_catalogue : services nat :=
  {| search_releases := Sample.counted two_releases;
     cover_art_json := Sample.counted (fun _ => Ok Sample.front_cover) |}.


End Demo.

(** ** The Markdown view of the results *)

(** [for x in v]: the items of a [list], the characters of a [str], the
    keys of a [dict]. *)
Definition iterate (v : value) : outcome (list value) :=
  match v with
  | VList items => Ok items
  | VStr s => Ok (List.map (fun c => VStr [c]) s)
  | VDict items => Ok (List.map (fun kv => VStr (fst kv)) items)
  | _ => Raise TypeError
  end.

(** [v == s] for a [str] constant [s]. *)
Definition equals_str (v : value) (s : py_str) : bool :=
  match v with
  | VStr s' => PyStr.eqb s' s
  | _ => false
  end.

(** The lines of a section, given the texts the f-strings put in. *)
Definition header_line (source artist title : py_str) : py_str :=
  PyStr.lit "### [" ++ source ++ PyStr.lit "] " ++ artist
  ++ PyStr.lit " - " ++ title.

Definition cover_line (cover_art_url : py_str) : py_str :=
  PyStr.lit "![Cover Art](" ++ cover_art_url ++ PyStr.lit ")".

Definition mbid_line (mbid : py_str) : py_str :=
  PyStr.lit "- **MBID:** " ++ mbid ++ PyStr.lit "  ".

Definition spotify_id_line (spotify_id : py_str) : py_str :=
  PyStr.lit "- **Spotify ID:** " ++ spotify_id ++ PyStr.lit "  " ++ [10].

Definition query_line (query_text : py_str) : py_str :=
  PyStr.lit "- **Query:** " ++ query_text ++ PyStr.lit "  " ++ [10].

(** A record of the lookup, with its four values after the source. *)
Definition lookup_record (m : value) : Prop :=
  exists artist title id cover_url,
    m = musicbrainz_match artist title id cover_url
    \/ m = spotify_match artist title id cover_url.

(** The values of a record. *)
Definition values_of (m : value) : list value :=
  match m with
  | VDict items => List.map snd items
  | _ => []
  end.

Section Markdown.

Variable L : limits.

(** [repr] of a [list] or a [dict]: the text Python writes for it, or the
    exception it raises on the way (an [int] with too many digits, nesting
    too deep for the interpreter). *)
Variable repr : value -> outcome py_str.

(** [str(v)], what an f-string puts for [{v}]. *)
Definition str_of (v : value) : outcome py_str :=
  match v with
  | VStr s => Ok s
  | VNone => Ok (PyStr.lit "None")
  | VBool true => Ok (PyStr.lit "True")
  | VBool false => Ok (PyStr.lit "False")
  | VInt z => Json.int_repr L z
  | VList _ | VDict _ => repr v
  end.

(** Whether an f-string can write [v], and whether it can write every
    value of the record [m]. *)
Definition formats (v : value) : bool :=
  match str_of v with
  | Ok _ => true
  | Raise _ => false
  end.

Definition formattable (m : value) : bool := forallb formats (values_of m).

(** The cover line of a section, if the match has cover art. *)
Definition cover_lines_of (cover_url : value) : outcome (list py_str) :=
  if Py.truthy cover_url then
    url_text <-- str_of cover_url ;;
    Ok [cover_line url_text]
  else Ok [].

(** The body of the inner loop: the lines appended to [md] for the match
    [m] of [entry].  Each f-string evaluates and writes its expressions
    from left to right. *)
Definition match_section (entry m : value) : outcome (list py_str) :=
  source <-- Py.getitem m (PyStr.lit "source") ;;
  source_text <-- str_of source ;;
  artist <-- Py.get m (PyStr.lit "artist") (VStr []) ;;
  artist_text <-- str_of artist ;;
  title <-- Py.get m (PyStr.lit "title") (VStr []) ;;
  title_text <-- str_of title ;;
  cover <-- Py.get m (PyStr.lit "cover_art_url") VNone ;;
  cover_lines <--
    (if Py.truthy cover then
       cover_art_url <-- Py.getitem m (PyStr.lit "cover_art_url") ;;
       url_text <-- str_of cover_art_url ;;
       Ok [cover_line url_text]
     else Ok []) ;;
  source' <-- Py.getitem m (PyStr.lit "source") ;;
  mbid_lines <--
    (if equals_str source' (PyStr.lit "MusicBrainz") then
       mbid <-- Py.get m (PyStr.lit "mbid") VNone ;;
       mbid_text <-- str_of mbid ;;
       Ok [mbid_line mbid_text]
     else Ok []) ;;
  source'' <-- Py.getitem m (PyStr.lit "source") ;;
  spotify_lines <--
    (if equals_str source'' (PyStr.lit "Spotify") then
       spotify_id <-- Py.get m (PyStr.lit "spotify_id") VNone ;;
       spotify_id_text <-- str_of spotify_id ;;
       Ok [spotify_id_line spotify_id_text]
     else Ok []) ;;
  query_text <-- Py.getitem entry (PyStr.lit "query_text") ;;
  query <-- str_of query_text ;;
  Ok (header_line source_text artist_text title_text
      :: cover_lines ++ mbid_lines ++ spotify_lines ++ [query_line query]).

(** The lines of a sequence of things, one after the other, up to the
    first that raises. *)
Fixpoint sections (A : Type) (lines_of : A -> outcome (list py_str))
    (xs : list A) : outcome (list py_str) :=
  match xs with
  | [] => Ok []
  | x :: rest =>
      first_lines <-- lines_of x ;;
      more <-- sections lines_of rest ;;
      Ok (first_lines ++ more)
  end.

(** The inner loop, for one entry. *)
Definition entry_sections (entry : value) : outcome (list py_str) :=
  ms <-- Py.getitem entry (PyStr.lit "matches") ;;
  items <-- iterate ms ;;
  sections (match_section entry) items.

(** The list [md] after both loops. *)
Definition markdown_lines (results : list value) : outcome (list py_str) :=
  sections entry_sections results.

(** The text handed to [st.markdown]. *)
Definition markdown_text (results : list value) : outcome py_str :=
  md <-- markdown_lines results ;;
  Ok (join_lines md).

End Markdown.

(** ** The entries the adapters give

    What is asked of the resolution: one entry for each query, in the order
    of the queries, that holds the successes of the adapters for this
    query, the MusicBrainz adapter before the Spotify adapter.  The
    replies are those the services give in the world the earlier calls
    left. *)
Section Resolve.

Variable World : Type.
Variable S : services World.

(** A block that ends with a record. *)
Definition succeeds (record : outcome (option value)) : bool :=
  match record with
  | Ok (Some _) => true
  | _ => false
  end.

(** The record of the MusicBrainz adapter for [query], asked in [w]. *)
Definition musicbrainz_result (query : py_str) (w : World)
  : outcome (option value) :=
  let reply := search_releases S query w in
  musicbrainz_record (fst reply)
    (fun mbid => fst (cover_art_json S mbid (snd reply))).

(** The world after the MusicBrainz adapter: after its search, and after
    its cover-art request if it makes one. *)
Definition after_musicbrainz (query : py_str) (w : World) : World :=
  let reply := search_releases S query w in
  match cover_art_request (fst reply) with
  | CoverArt mbid :: _ => snd (cover_art_json S mbid (snd reply))
  | _ => snd reply
  end.

(** The successes of the adapters for [query], asked in [w]. *)
Definition adapter_successes (spotify_client : option (spotify World))
    (query : py_str) (w : World) : list value :=
  found (musicbrainz_result query w)
  ++ match spotify_client with
     | Some client =>
         found (spotify_record
                  (fst (client query (after_musicbrainz query w))))
     | None => []
     end.

Definition after_query (spotify_client : option (spotify World))
    (query : py_str) (w : World) : World :=
  match spotify_client with
  | Some client => snd (client query (after_musicbrainz query w))
  | None => after_musicbrainz query w
  end.

Fixpoint resolve (spotify_client : option (spotify World))
    (queries : list py_str) (w : World) : list value :=
  match queries with
  | [] => []
  | query :: rest =>
      entry query (adapter_successes spotify_client query w)
      :: resolve spotify_client rest (after_query spotify_client query w)
  end.

End Resolve.

(** ** [extract_text] with engines that can fail *)

(** The steps of [extract_text] that produce [text] are calls into an OCR
    engine ([Image.open] and [pytesseract.image_to_string], or the chat
    completion of OpenAI and the path to its content): each hands back a
    text or raises, and what it raises leaves [extract_text]. *)
Definition extract_text_run (Image : Type)
    (pytesseract_image_to_string : Image -> outcome py_str)
    (image_file : Image) (openai_client : option (Image -> outcome py_str))
  : outcome (list py_str) :=
  text <-- match openai_client with
           | Some chat_completion => chat_completion image_file
           | None => pytesseract_image_to_string image_file
           end ;;
  Ok (text_lines text).

(** ** [main] *)

Section Main.

(** An uploaded file, an opened image, the state of the remote services. *)
Variable File : Type.
Variable Picture : Type.
Variable World : Type.

(** The calls [main] makes to show something, [print] and the widgets of
    Streamlit, with the arguments that matter. *)
Inductive shown : Type :=
| Print (text : py_str)
| SetPageConfig (page_title : py_str)
| StTitle (text : py_str)
| SidebarHeader (text : py_str)
| TextInput (label : py_str)
| StWrite (text : py_str)
| FileUploader (label : py_str)
| StInfo (text : py_str)
| StImage (image : Picture)
| Subheader (text : py_str)
| StJson (results : list value)
| StMarkdown (text : py_str)
| DownloadButton (label : py_str) (data : list N) (file_name mime : py_str).

(** What the user gave the widgets: the three text inputs and the
    uploader ([None] as long as nothing is uploaded). *)
Record page : Type := {
  openai_key : py_str;
  spotify_client_id : py_str;
  spotify_client_secret : py_str;
  uploaded : option File
}.

(** What [main] runs on: the package an [import] does not find, if any;
    [Image.open]; the two OCR engines, the hosted one with its API key; the
    Spotify client made from its credentials. *)
Record platform : Type := {
  missing_package : option py_str;
  Image_open : File -> outcome Picture;
  image_to_string : File -> outcome py_str;
  chat_completion : py_str -> File -> outcome py_str;
  Spotify : py_str -> py_str -> spotify World
}.

(** A run of [main]: what it showed, how it ended, the state it left. *)
Record run : Type := {
  display : list shown;
  finish : outcome unit;
  state : heap World
}.

Variable S : services World.

(** The limits of the interpreter, and its [repr] of a list or dict. *)
Variable L : limits.
Variable repr : value -> outcome py_str.

(** [openai_client] after the [if openai_key:]. *)
Definition openai_client_of (P : platform) (input : page)
  : option (File -> outcome py_str) :=
  if PyStr.truthy (openai_key input)
  then Some (chat_completion P (openai_key input))
  else None.

(** [spotify_client] after the
    [if spotify_client_id and spotify_client_secret:]. *)
Definition spotify_client_of (P : platform) (input : page)
  : option (spotify World) :=
  if PyStr.truthy (spotify_client_id input)
     && PyStr.truthy (spotify_client_secret input)
  then Some (Spotify P (spotify_client_id input)
               (spotify_client_secret input))
  else None.

(** The widgets that show results of the lookup. *)
Definition shows_results (s : shown) : bool :=
  match s with
  | StJson _ | StMarkdown _ | DownloadButton _ _ _ _ => true
  | _ => false
  end.

(** The text the chosen OCR engine hands back for [image_file]. *)
Definition ocr_text (P : platform) (input : page) (image_file : File)
  : outcome py_str :=
  match openai_client_of P input with
  | Some chat => chat image_file
  | None => image_to_string P image_file
  end.

(** The page down to the uploader. *)
Definition page_top : list shown :=
  [SetPageConfig (PyStr.lit "CD Identifier");
   StTitle (PyStr.lit "CD Identifier and Metadata Fetcher");
   SidebarHeader (PyStr.lit "API Credentials");
   TextInput (PyStr.lit "OpenAI API Key");
   TextInput (PyStr.lit "Spotify Client ID");
   TextInput (PyStr.lit "Spotify Client Secret");
   StWrite
     (PyStr.lit
        "Upload an image of CD spines; OCR + metadata lookup will run.");
   FileUploader (PyStr.lit "Upload image")].

Definition not_installed (name : py_str) : py_str :=
  PyStr.lit "Error: required package not installed: " ++ name
  ++ PyStr.lit ". Run `pip install streamlit spotipy openai`.".

Definition main (P : platform) (input : page) (h : heap World) : run :=
  match missing_package P with
  | Some name =>
      {| display := [Print (not_installed name)];
         finish := Ok tt; state := h |}
  | None =>
  let openai_client := openai_client_of P input in
  let spotify_client := spotify_client_of P input in
  match uploaded input with
  | None =>
      {| display := page_top ++ [StInfo (PyStr.lit "Awaiting upload...")];
         finish := Ok tt; state := h |}
  | Some image_file =>
  match Image_open P image_file with
  | Raise e => {| display := page_top; finish := Raise e; state := h |}
  | Ok image =>
  let shown1 :=
    page_top ++ [StImage image; StWrite (PyStr.lit "Extracting text...")] in
  match extract_text_run (image_to_string P) image_file openai_client with
  | Raise e => {| display := shown1; finish := Raise e; state := h |}
  | Ok lines =>
  let shown2 :=
    shown1 ++ [Subheader (PyStr.lit "Extracted Text");
               StWrite (join_lines lines);
               StWrite (PyStr.lit "Looking up metadata...")] in
  match lookup_metadata S lines spotify_client h with
  | (Raise e, h') => {| display := shown2; finish := Raise e; state := h' |}
  | (Ok results, h') =>
  let shown3 :=
    shown2 ++ [Subheader (PyStr.lit "Metadata (JSON)");
               StJson results;
               Subheader (PyStr.lit "Metadata (Markdown)")] in
  match markdown_text L repr results with
  | Raise e => {| display := shown3; finish := Raise e; state := h' |}
  | Ok md =>
  let shown4 := shown3 ++ [StMarkdown md] in
  match json_data L results with
  | Raise e => {| display := shown4; finish := Raise e; state := h' |}
  | Ok data =>
      {| display :=
           shown4 ++ [DownloadButton (PyStr.lit "Download JSON") data
                        (PyStr.lit "cd_metadata.json")
                        (PyStr.lit "application/json")];
         finish := Ok tt; state := h' |}
  end end end end end end end.

End Main.

Arguments Print {Picture} text.
Arguments SetPageConfig {Picture} page_title.
Arguments StTitle {Picture} text.
Arguments SidebarHeader {Picture} text.
Arguments TextInput {Picture} label.
Arguments StWrite {Picture} text.
Arguments FileUploader {Picture} label.
Arguments StInfo {Picture} text.
Arguments Subheader {Picture} text.
Arguments StJson {Picture} results.
Arguments StMarkdown {Picture} text.
Arguments DownloadButton {Picture} label data file_name mime.
Arguments page_top {Picture}.

(** A sample platform: every package is installed, the local engine reads
    two lines around a blank one, the hosted engine is out of reach. *)
Module Studio.

Definition scan : py_str :=
  Sample.abbey_road ++ [13; 10; 32; 32; 10] ++ [9] ++ Sample.garbled ++ [32].

Definition desk : platform unit unit nat :=
  {| missing_package := None;
     Image_open := fun _ => Ok tt;
     image_to_string := fun _ => Ok scan;
     chat_completion := fun _ _ => Raise Sample.timeout;
     Spotify := fun _ _ => Sample.spotify_catalogue |}.

Definition shop : services nat :=
  Sample.catalogue Sample.full_release Sample.front_cover.

(** The limits of an interpreter as it comes, with room for a hundred
    levels of nesting, and a [repr] that is never needed. *)
Definition python : limits := {| max_str_digits := 4300; max_depth := 100 |}.

Definition no_repr : value -> outcome py_str := fun _ => Raise TypeError.

(** The lowest limit on the digits of an [int] that can be set. *)
Definition strict : limits := {| max_str_digits := 640; max_depth := 100 |}.

(** Nothing typed, nothing uploaded. *)
Definition blank_page : page unit :=
  {| openai_key := []; spotify_client_id := []; spotify_client_secret := [];
     uploaded := None |}.

(** An upload, and the credentials of Spotify. *)
Definition filled_page : page unit :=
  {| openai_key := [];
     spotify_client_id := PyStr.lit "id";
     spotify_client_secret := PyStr.lit "secret";
     uploaded := Some tt |}.

(** An upload, and only the identifier of the Spotify credentials. *)
Definition half_filled_page : page unit :=
  {| openai_key := [];
     spotify_client_id := PyStr.lit "id";
     spotify_client_secret := [];
     uploaded := Some tt |}.

End Studio.

(** ** Tactics *)

Arguments PyStr.lit : simpl never.

Ltac run_simpl :=
  cbv beta iota zeta
    delta [bind lift ret invoke append_match try_pass new_matches
           read_matches and_then];
  cbn [fst snd world calls matches ending found].

(** One step of a run: split on the next reply, outcome or test. *)
Ltac run_step :=
  match goal with
  | |- context [fst ?p] =>
      lazymatch p with
      | context [match _ with _ => _ end] => fail
      | (_, _) => fail
      | _ => destruct p as [[?|?] ?] eqn:?
      end
  | |- context [let (_, _) := ?p in _] =>
      lazymatch p with
      | context [match _ with _ => _ end] => fail
      | _ => destruct p as [[?|?] ?] eqn:?
      end
  | |- context [match ?o with Ok _ => _ | Raise _ => _ end] =>
      lazymatch o with
      | context [match _ with _ => _ end] => fail
      | _ => destruct o as [?|?] eqn:?
      end
  | |- context [if ?b then _ else _] =>
      lazymatch b with
      | context [match _ with _ => _ end] => fail
      | _ => destruct b eqn:?
      end
  end; run_simpl.

Ltac run_all := repeat run_step.

(** Decide the comparisons on code points in the goal. *)
Ltac compare_chars :=
  repeat match goal with
  | |- context [?a =? ?b] => destruct (N.eqb_spec a b); try lia
  | |- context [?a <=? ?b] => destruct (N.leb_spec a b); try lia
  | |- context [?a <? ?b] => destruct (N.ltb_spec a b); try lia
  end; cbn [andb orb negb].


(** * Properties *)

(** ** Line normalisation *)

Section TextLines.

Import PyStr.

Lemma linebreak_is_space c : is_linebreak c = true -> is_space c = true.
Proof.
  unfold is_linebreak, is_space.
  rewrite !orb_true_iff, !andb_true_iff, !N.leb_le, !N.eqb_eq. lia.
Qed.

Lemma unbroken_snoc line c :
  unbroken line -> is_linebreak c = false -> unbroken (line ++ [c]).
Proof.
  intros Hl Hc. apply Forall_app; split; [exact Hl | now constructor].
Qed.

(** [splitlines_from], one boundary at a time. *)
Lemma splitlines_from_break line c rest :
  is_linebreak c = true ->
  splitlines_from line (c :: rest) =
  line :: match rest with
          | c' :: rest' =>
              if (c =? 13) && (c' =? 10) then splitlines_from [] rest'
              else splitlines_from [] rest
          | [] => []
          end.
Proof.
  intros Hc. cbn [splitlines_from]. rewrite Hc. now destruct rest.
Qed.

Lemma splitlines_from_cut n :
  forall s line, (List.length s <= n)%nat -> unbroken line ->
  cut_at_boundaries (line ++ s) (splitlines_from line s).
Proof.
  induction n as [n IH] using lt_wf_ind.
  intros [|c rest] line Hn Hline.
  - cbn. rewrite app_nil_r. destruct line as [|c l]; [constructor|].
    apply cut_last; [discriminate | assumption].
  - destruct (is_linebreak c) eqn:Hc.
    + rewrite splitlines_from_break by assumption.
      cbn [List.length] in Hn.
      destruct rest as [|c' rest'].
      * change (line ++ [c]) with (line ++ [c] ++ []).
        apply cut_line; [assumption | | constructor].
        apply boundary_one; [assumption | intros _ r; discriminate].
      * destruct ((c =? 13) && (c' =? 10)) eqn:Hcrlf.
        -- apply andb_true_iff in Hcrlf as [Hcr Hlf].
           apply N.eqb_eq in Hcr, Hlf. subst c c'.
           change (line ++ 13 :: 10 :: rest')
             with (line ++ [13; 10] ++ ([] ++ rest')).
           apply cut_line; [assumption | constructor |].
           apply (IH (List.length rest')); [cbn in Hn; lia | lia | constructor].
        -- change (line ++ c :: c' :: rest')
             with (line ++ [c] ++ ([] ++ c' :: rest')).
           apply cut_line; [assumption | |].
           ++ apply boundary_one; [assumption |].
              intros -> r E. injection E as -> _. discriminate.
           ++ apply (IH (List.length (c' :: rest')));
                [cbn in *; lia | lia | constructor].
    + cbn [splitlines_from]. rewrite Hc.
      replace (line ++ c :: rest) with ((line ++ [c]) ++ rest)
        by now rewrite <- app_assoc.
      cbn in Hn.
      apply (IH (List.length rest)); [lia | lia | now apply unbroken_snoc].
Qed.

Lemma splitlines_cut text : cut_at_boundaries text (splitlines text).
Proof.
  apply (@splitlines_from_cut (List.length text) text []);
    [apply le_n | constructor].
Qed.

Lemma cut_unbroken text lines :
  cut_at_boundaries text lines -> Forall unbroken lines.
Proof. induction 1; auto. Qed.

(** [lstrip] removes a blank prefix and stops at the first other
    character. *)
Lemma lstrip_split s :
  exists before, s = before ++ lstrip s /\ blank before.
Proof.
  induction s as [|c s [before [E B]]]; cbn.
  - exists []. split; [reflexivity | constructor].
  - destruct (is_space c) eqn:Hc.
    + exists (c :: before). split; [cbn; now f_equal | now constructor].
    + exists []. split; [reflexivity | constructor].
Qed.

Lemma lstrip_head s c rest : lstrip s = c :: rest -> is_space c = false.
Proof.
  induction s as [|d s IH]; cbn; [discriminate|].
  destruct (is_space d) eqn:Hd; [exact IH|].
  intros E. now injection E as <- _.
Qed.

Lemma rstrip_split s :
  exists after, s = rstrip s ++ after /\ blank after.
Proof.
  unfold rstrip. destruct (lstrip_split (rev s)) as [before [E B]].
  exists (rev before). split.
  - rewrite <- rev_app_distr, <- E. now rewrite rev_involutive.
  - now apply Forall_rev.
Qed.

Lemma rstrip_last s front c : rstrip s = front ++ [c] -> is_space c = false.
Proof.
  unfold rstrip. intros E.
  apply (f_equal (@rev N)) in E.
  rewrite rev_involutive, rev_app_distr in E. cbn in E.
  eapply lstrip_head; exact E.
Qed.

Lemma strip_trim line : trim_of line (strip line).
Proof.
  unfold strip.
  destruct (lstrip_split line) as [before [E1 B1]].
  destruct (rstrip_split (lstrip line)) as [after [E2 B2]].
  split; [split|].
  - intros c rest E.
    rewrite E in E2. cbn in E2. eapply lstrip_head; exact E2.
  - intros front c E. eapply rstrip_last; exact E.
  - exists before, after. split; [|split; assumption].
    now rewrite <- E2.
Qed.

Lemma truthy_nonempty (s : py_str) : truthy s = true <-> s <> [].
Proof. destruct s; cbn; split; congruence. Qed.

Lemma stripped_lines_spec lines :
  stripped_lines lines = filter truthy (List.map strip lines).
Proof.
  induction lines as [|line lines IH]; cbn; [reflexivity|].
  destruct (truthy (strip line)); now rewrite IH.
Qed.

Lemma stripped_lines_survivors lines :
  stripped_lines lines = List.map strip (survivors lines).
Proof.
  induction lines as [|line lines IH]; cbn; [reflexivity|].
  destruct (truthy (strip line)); cbn; now rewrite IH.
Qed.

Lemma filter_subsequence (A : Type) (f : A -> bool) (l : list A) :
  subsequence (filter f l) l.
Proof.
  induction l as [|x l IH]; cbn; [constructor|].
  destruct (f x); now constructor.
Qed.

Lemma lstrip_blank s : blank s -> lstrip s = [].
Proof.
  induction 1 as [|c s Hc _ IH]; cbn; [reflexivity|]. now rewrite Hc.
Qed.

Lemma strip_empty_iff line : strip line = [] <-> blank line.
Proof.
  split.
  - intros E. destruct (strip_trim line) as [_ [before [after [L [B A]]]]].
    rewrite E in L. cbn in L. subst line. now apply Forall_app.
  - intros B. unfold strip. now rewrite (lstrip_blank B).
Qed.

Lemma survivors_trim lines :
  Forall2 trim_of (survivors lines) (List.map strip (survivors lines)).
Proof.
  induction (survivors lines) as [|line l IH]; cbn; constructor;
    [apply strip_trim | exact IH].
Qed.

Lemma survivors_In lines line :
  In line (survivors lines) <-> In line lines /\ ~ blank line.
Proof.
  unfold survivors. rewrite filter_In, truthy_nonempty.
  now rewrite strip_empty_iff.
Qed.

Lemma stripped_lines_nonempty lines :
  Forall (fun q => q <> []) (stripped_lines lines).
Proof.
  rewrite stripped_lines_spec. apply Forall_forall.
  intros q Hq. apply filter_In in Hq as [_ Hq]. now apply truthy_nonempty.
Qed.

End TextLines.

(** C4.  [extract_text] normalises the text its engine read: the text is
    cut at its line boundaries, every line is trimmed of leading and trailing
    whitespace, the lines that are empty after trimming (the blank ones)
    are dropped and the others keep their relative order.  The text
    ["  A \n\nB\n  "] gives [["A"; "B"]], and the empty text gives no
    line. *)
Theorem text_lines_normalize :
  (forall (Image : Type) (pytesseract_image_to_string : Image -> py_str)
          (image_file : Image) (openai_client : option (Image -> py_str)),
     extract_text pytesseract_image_to_string image_file openai_client
     = text_lines match openai_client with
                  | Some chat_completion => chat_completion image_file
                  | None => pytesseract_image_to_string image_file
                  end)
  /\ (forall raw_text : py_str,
     text_lines raw_text = normalize_spec raw_text
     /\ Forall (fun q => q <> []) (text_lines raw_text)
     /\ exists lines kept,
          cut_at_boundaries raw_text lines
          /\ subsequence kept lines
          /\ (forall line, In line kept <-> In line lines /\ ~ blank line)
          /\ Forall2 trim_of kept (text_lines raw_text))
  /\ text_lines (PyStr.lit "  A " ++ [10; 10] ++ PyStr.lit "B" ++ [10]
                   ++ PyStr.lit "  ")
     = [PyStr.lit "A"; PyStr.lit "B"]
  /\ text_lines [] = [].
Proof.
  split; [reflexivity|]. split; [|split; reflexivity].
  intros raw_text. unfold text_lines, normalize_spec.
  split; [apply stripped_lines_spec|].
  split; [apply stripped_lines_nonempty|].
  exists (PyStr.splitlines raw_text), (survivors (PyStr.splitlines raw_text)).
  split; [apply splitlines_cut|].
  split; [apply filter_subsequence|].
  split; [intros line; apply survivors_In|].
  rewrite stripped_lines_survivors. apply survivors_trim.
Qed.

(** ** The provider blocks *)

Section Blocks.

Variable World : Type.
Variable S : services World.

Lemma musicbrainz_suite_run query h :
  let reply := search_releases S query (world h) in
  let record :=
    musicbrainz_record (fst reply)
      (fun mbid => fst (cover_art_json S mbid (snd reply))) in
  let run := musicbrainz_suite S query h in
  fst run = ending record
  /\ matches (snd run) = matches h ++ found record
  /\ exists cs, calls (snd run) = calls h ++ cs /\ no_spotify_call cs.
Proof.
  unfold musicbrainz_suite, musicbrainz_record, cover_url_of.
  cbn zeta. run_simpl.
  run_all.
  all: rewrite ?app_nil_r; repeat split; try congruence.
  all: eexists; split; [rewrite <- ?app_assoc; reflexivity|repeat constructor].
Qed.

Lemma spotify_suite_run (client : spotify World) query h :
  let record := spotify_record (fst (client query (world h))) in
  let run := spotify_suite client query h in
  fst run = ending record
  /\ matches (snd run) = matches h ++ found record
  /\ calls (snd run) = calls h ++ [SpotifySearch query].
Proof.
  unfold spotify_suite, spotify_record.
  cbn zeta. run_simpl.
  run_all.
  all: rewrite ?app_nil_r; repeat split; congruence.
Qed.

(** A [try] block ends normally whatever its suite does, and keeps the
    state the suite left. *)
Lemma try_pass_run (body : M World unit) h :
  try_pass body h = (Ok tt, snd (body h)).
Proof. unfold try_pass. now destruct (body h) as [[[]|e] h']. Qed.

Lemma no_spotify_call_app cs1 cs2 :
  no_spotify_call cs1 -> no_spotify_call cs2 -> no_spotify_call (cs1 ++ cs2).
Proof. intros H1 H2. apply Forall_app. now split. Qed.

Lemma lookup_query_run spotify_client query h :
  exists e h',
    lookup_query S spotify_client query h = (Ok e, h')
    /\ answers S spotify_client query e
    /\ exists cs, calls h' = calls h ++ cs
                  /\ (spotify_client = None -> no_spotify_call cs).
Proof.
  unfold lookup_query.
  cbv beta delta [bind new_matches read_matches ret]. cbv beta iota.
  rewrite try_pass_run.
  set (h0 := {| world := world h; calls := calls h; matches := [] |}).
  destruct (musicbrainz_suite_run query h0) as (_ & Hm & cs & Hc & Hcs).
  cbn zeta in Hm. cbn [matches h0 app] in Hm.
  set (h1 := snd (musicbrainz_suite S query h0)) in *.
  destruct spotify_client as [client|].
  - rewrite try_pass_run.
    destruct (spotify_suite_run client query h1) as (_ & Hm' & Hc').
    cbn zeta in Hm'.
    eexists _, _. split; [reflexivity|]. split.
    + rewrite Hm', Hm. constructor.
      * intros mbid. eexists. reflexivity.
      * cbn. eexists. reflexivity.
    + eexists. split; [|discriminate].
      rewrite Hc', Hc. cbn [calls h0]. now rewrite <- app_assoc.
  - eexists _, _. split; [reflexivity|]. split.
    + rewrite Hm. rewrite <- (app_nil_r (found _)). constructor.
      * intros mbid. eexists. reflexivity.
      * reflexivity.
    + exists cs. split; [exact Hc | intros _; exact Hcs].
Qed.

Lemma for_queries_run spotify_client lines :
  forall results h,
  exists entries h',
    for_queries S spotify_client lines results h = (Ok (results ++ entries), h')
    /\ Forall2 (answers S spotify_client) lines entries
    /\ exists cs, calls h' = calls h ++ cs
                  /\ (spotify_client = None -> no_spotify_call cs).
Proof.
  induction lines as [|query rest IH]; intros results h.
  - exists [], h. cbn. rewrite app_nil_r. repeat split; [constructor|].
    exists []. rewrite app_nil_r. split; [reflexivity | constructor].
  - cbn [for_queries]. unfold bind.
    destruct (lookup_query_run spotify_client query h)
      as (e & h1 & -> & He & cs1 & Hc1 & Hn1).
    destruct (IH (results ++ [e]) h1)
      as (entries & h2 & -> & Hes & cs2 & Hc2 & Hn2).
    exists (e :: entries), h2. rewrite <- app_assoc.
    split; [reflexivity|]. split; [now constructor|].
    exists (cs1 ++ cs2). split.
    + now rewrite Hc2, Hc1, app_assoc.
    + intros Hnone. apply no_spotify_call_app; auto.
Qed.

Lemma lookup_metadata_run lines spotify_client h :
  exists entries h',
    lookup_metadata S lines spotify_client h = (Ok entries, h')
    /\ Forall2 (answers S spotify_client) lines entries
    /\ exists cs, calls h' = calls h ++ cs
                  /\ (spotify_client = None -> no_spotify_call cs).
Proof. exact (for_queries_run spotify_client lines [] h). Qed.

End Blocks.

(** ** The records the blocks append *)

Lemma musicbrainz_record_found search_reply art_reply m :
  In m (found (musicbrainz_record search_reply art_reply)) ->
  exists artist title mbid art_json cover_url,
    m = musicbrainz_match artist title mbid cover_url
    /\ art_reply mbid = Ok art_json
    /\ cover_url_of art_json = Ok cover_url.
Proof.
  unfold musicbrainz_record, and_then.
  repeat (run_step; try (intros []; fail)).
  intros [<-|[]]. eauto 8.
Qed.

Lemma spotify_record_found search_reply m :
  In m (found (spotify_record search_reply)) ->
  exists alb artist title spotify_id cover_url,
    m = spotify_match artist title spotify_id cover_url
    /\ first_image_url alb = Ok cover_url.
Proof.
  unfold spotify_record, and_then.
  repeat (run_step; try (intros []; fail)).
  intros [<-|[]]. eauto 8.
Qed.


Lemma found_at_most_one record :
  found record = [] \/ exists m, found record = [m].
Proof. destruct record as [[m|]|e]; cbn; eauto. Qed.

Lemma musicbrainz_match_source artist title mbid cover_url :
  source_of (musicbrainz_match artist title mbid cover_url)
  = Some (PyStr.lit "MusicBrainz").
Proof. reflexivity. Qed.

Lemma spotify_match_source artist title spotify_id cover_url :
  source_of (spotify_match artist title spotify_id cover_url)
  = Some (PyStr.lit "Spotify").
Proof. reflexivity. Qed.



Lemma musicbrainz_record_ext search_reply art_reply art_reply' :
  (forall mbid, art_reply mbid = art_reply' mbid) ->
  musicbrainz_record search_reply art_reply
  = musicbrainz_record search_reply art_reply'.
Proof.
  intros E. unfold musicbrainz_record, and_then.
  repeat (rewrite <- ?E; run_step; try reflexivity).
Qed.

Lemma entry_matches query ms : matches_of (entry query ms) = ms.
Proof. reflexivity. Qed.

Lemma entry_query_text query ms :
  Py.getitem (entry query ms) (PyStr.lit "query_text") = Ok (VStr query).
Proof. reflexivity. Qed.

(** ** The result list of [lookup_metadata] *)

Section Results.

Variable World : Type.
Variable S : services World.

Lemma answers_entry spotify_client query e :
  answers S spotify_client query e -> exists ms, e = entry query ms.
Proof. intros []. eauto. Qed.

Lemma Forall2_nth_error (A B : Type) (R : A -> B -> Prop) l l' :
  Forall2 R l l' ->
  forall i a, nth_error l i = Some a ->
  exists b, nth_error l' i = Some b /\ R a b.
Proof.
  induction 1 as [|x y l l' Hxy _ IH]; intros [|i] a; cbn; try discriminate.
  - intros [= <-]. eauto.
  - apply IH.
Qed.

Lemma Forall2_function (A B : Type) (f : A -> B) l l' :
  Forall2 (fun a b => b = f a) l l' -> l' = List.map f l.
Proof. induction 1; cbn; congruence. Qed.

Lemma Forall2_right (A B : Type) (R : A -> B -> Prop) (P : B -> Prop) l l' :
  Forall2 R l l' -> (forall a b, R a b -> P b) -> Forall P l'.
Proof. induction 1; intros HP; constructor; eauto. Qed.

(** With every remote call failing, an entry has no match. *)
Lemma answers_all_raise spotify_client query e :
  always_raises (search_releases S) ->
  (forall client, spotify_client = Some client -> always_raises client) ->
  answers S spotify_client query e -> e = entry query [].
Proof.
  intros Hmb Hsp [w art_reply part _ Hpart].
  destruct (Hmb query w) as [x ->]. cbn.
  destruct spotify_client as [client|]; cbn in Hpart.
  - destruct Hpart as [w' ->].
    destruct (Hsp client eq_refl query w') as [x' ->]. reflexivity.
  - now subst part.
Qed.

End Results.

(** ** The entries, adapter by adapter *)

Section Exact.

Variable World : Type.
Variable S : services World.

Lemma musicbrainz_suite_world query h :
  world (snd (musicbrainz_suite S query h))
  = after_musicbrainz S query (world h).
Proof.
  unfold musicbrainz_suite, after_musicbrainz, cover_art_request.
  cbn zeta. run_simpl. run_all.
  all: reflexivity.
Qed.

Lemma spotify_suite_world (client : spotify World) query h :
  world (snd (spotify_suite client query h)) = snd (client query (world h)).
Proof.
  unfold spotify_suite. cbn zeta. run_simpl. run_all.
  all: reflexivity.
Qed.

(** One pass of the loop gives the successes of the adapters for its
    query, asked in the world the pass starts in. *)
Lemma lookup_query_exact spotify_client query h :
  exists h',
    lookup_query S spotify_client query h
    = (Ok (entry query (adapter_successes S spotify_client query (world h))),
       h')
    /\ world h' = after_query S spotify_client query (world h).
Proof.
  unfold lookup_query, adapter_successes, after_query, musicbrainz_result.
  cbv beta delta [bind new_matches read_matches ret]. cbv beta iota.
  rewrite try_pass_run.
  set (h0 := {| world := world h; calls := calls h; matches := [] |}).
  destruct (musicbrainz_suite_run S query h0) as (_ & Hm & _).
  pose proof (musicbrainz_suite_world query h0) as Hw.
  cbn zeta in Hm. cbn [matches world h0 app] in Hm, Hw.
  set (h1 := snd (musicbrainz_suite S query h0)) in *.
  destruct spotify_client as [client|].
  - rewrite try_pass_run.
    destruct (spotify_suite_run client query h1) as (_ & Hm' & _).
    pose proof (spotify_suite_world client query h1) as Hw'.
    cbn zeta in Hm'.
    eexists. split; [|rewrite Hw', Hw; reflexivity].
    rewrite Hm', Hm, Hw. reflexivity.
  - eexists. split; [|exact Hw].
    rewrite Hm, app_nil_r. reflexivity.
Qed.

Lemma for_queries_exact spotify_client lines :
  forall results h,
  exists h',
    for_queries S spotify_client lines results h
    = (Ok (results ++ resolve S spotify_client lines (world h)), h').
Proof.
  induction lines as [|query rest IH]; intros results h.
  - exists h. cbn. now rewrite app_nil_r.
  - cbn [for_queries resolve]. unfold bind.
    destruct (lookup_query_exact spotify_client query h) as (h1 & -> & Hw).
    destruct (IH (results ++ [entry query
                                (adapter_successes S spotify_client query
                                   (world h))]) h1) as (h2 & ->).
    exists h2. rewrite Hw, <- app_assoc. reflexivity.
Qed.

Lemma resolve_nth spotify_client lines :
  forall w i query,
    nth_error lines i = Some query ->
    exists w',
      nth_error (resolve S spotify_client lines w) i
      = Some (entry query (adapter_successes S spotify_client query w')).
Proof.
  induction lines as [|q rest IH]; intros w [|i] query; cbn;
    try discriminate.
  - intros [= <-]. now exists w.
  - apply IH.
Qed.

(** Without a success of either adapter there is no match. *)
Lemma adapter_successes_none spotify_client query w :
  succeeds (musicbrainz_result S query w) = false ->
  (forall client, spotify_client = Some client ->
     succeeds (spotify_record
                 (fst (client query (after_musicbrainz S query w)))) = false) ->
  adapter_successes S spotify_client query w = [].
Proof.
  intros Hmb Hsp. unfold adapter_successes.
  destruct (musicbrainz_result S query w) as [[m|]|e]; try discriminate.
  all: destruct spotify_client as [client|]; [|reflexivity].
  all: specialize (Hsp client eq_refl).
  all: now destruct (spotify_record _) as [[m|]|e'].
Qed.

End Exact.

(** C1.  For a list of [N] queries [lookup_metadata] returns a list of
    exactly [N] entries, in the order of the queries, the entry of a query
    carrying that query as its [query_text].  The matches of an entry are
    the successes of the adapters for its own query and nothing else: a
    query for which no adapter succeeds still has its entry, with an empty
    [matches] list, whatever the queries before it found. *)
Theorem lookup_metadata_entry_per_query (World : Type) (S : services World)
    (lines : list py_str) (spotify_client : option (spotify World))
    (h : heap World) :
  exists entries h',
    lookup_metadata S lines spotify_client h = (Ok entries, h')
    /\ List.length entries = List.length lines
    /\ entries = resolve S spotify_client lines (world h)
    /\ (forall i query, nth_error lines i = Some query ->
        exists w ms,
          nth_error entries i = Some (entry query ms)
          /\ Py.getitem (entry query ms) (PyStr.lit "query_text")
             = Ok (VStr query)
          /\ matches_of (entry query ms) = ms
          /\ ms = adapter_successes S spotify_client query w
          /\ (succeeds (musicbrainz_result S query w) = false ->
              (forall client, spotify_client = Some client ->
                 succeeds
                   (spotify_record
                      (fst (client query (after_musicbrainz S query w))))
                 = false) ->
              ms = []))
    /\ (always_raises (search_releases S) ->
        (forall client, spotify_client = Some client ->
                        always_raises client) ->
        entries = List.map (fun query => entry query []) lines).
Proof.
  destruct (lookup_metadata_run S lines spotify_client h)
    as (entries & h' & Hrun & Hall & _).
  destruct (for_queries_exact S spotify_client lines [] h) as (h'' & Hexact).
  unfold lookup_metadata in Hrun. rewrite Hexact in Hrun.
  injection Hrun as <- <-. cbn [app] in *.
  eexists _, _. split; [exact Hexact|]. split; [|split; [reflexivity|split]].
  - symmetry. exact (Forall2_length Hall).
  - intros i query Hi.
    destruct (resolve_nth S spotify_client lines (world h) i Hi) as [w He].
    exists w, (adapter_successes S spotify_client query w).
    split; [exact He|]. repeat split.
    apply adapter_successes_none.
  - intros Hmb Hsp. apply Forall2_function.
    eapply Forall2_impl; [|exact Hall].
    intros query e. now apply answers_all_raise.
Qed.

(** C2.  In either provider block an exception raised by the remote search
    call, by the cover-art call or while the reply is taken apart ends the
    suite without a record having been appended, and the block itself ends
    normally; [lookup_metadata] never raises. *)
Theorem provider_exceptions_contained (World : Type) (S : services World) :
  (forall query h,
     let reply := search_releases S query (world h) in
     let record :=
       musicbrainz_record (fst reply)
         (fun mbid => fst (cover_art_json S mbid (snd reply))) in
     let block := try_pass (musicbrainz_suite S query) h in
     fst (musicbrainz_suite S query h) = ending record
     /\ fst block = Ok tt
     /\ forall e, record = Raise e -> matches (snd block) = matches h)
  /\ (forall (client : spotify World) query h,
     let record := spotify_record (fst (client query (world h))) in
     let block := try_pass (spotify_suite client query) h in
     fst (spotify_suite client query h) = ending record
     /\ fst block = Ok tt
     /\ forall e, record = Raise e -> matches (snd block) = matches h)
  /\ (forall lines spotify_client h,
     exists entries,
       fst (lookup_metadata S lines spotify_client h) = Ok entries).
Proof.
  split; [|split].
  - intros query h. cbn zeta. rewrite try_pass_run.
    destruct (musicbrainz_suite_run S query h) as (He & Hm & _).
    cbn zeta in He, Hm. split; [exact He|]. split; [reflexivity|].
    intros e Hr. cbn [snd]. rewrite Hm, Hr. cbn. apply app_nil_r.
  - intros client query h. cbn zeta. rewrite try_pass_run.
    destruct (spotify_suite_run client query h) as (He & Hm & _).
    cbn zeta in He, Hm. split; [exact He|]. split; [reflexivity|].
    intros e Hr. cbn [snd]. rewrite Hm, Hr. cbn. apply app_nil_r.
  - intros lines spotify_client h.
    destruct (lookup_metadata_run S lines spotify_client h)
      as (entries & h' & -> & _).
    now exists entries.
Qed.

(** ** Shape of the matches of an entry *)

Section Shape.

Variable World : Type.
Variable S : services World.

Lemma subsequence_nil_l (A : Type) (l : list A) : subsequence [] l.
Proof. induction l; now constructor. Qed.

(** The source tags of the matches of an entry. *)
Lemma answers_sources spotify_client query e :
  answers S spotify_client query e ->
  exists srcs,
    List.map source_of (matches_of e) = List.map Some srcs
    /\ subsequence srcs (registered_sources (configured spotify_client)).
Proof.
  intros [w art_reply part _ Hpart]. rewrite entry_matches.
  set (record := musicbrainz_record _ _).
  assert (Hmb : exists s1, List.map source_of (found record) = List.map Some s1
                           /\ subsequence s1 [PyStr.lit "MusicBrainz"]).
  { destruct (found_at_most_one record) as [E|[m E]].
    - rewrite E. exists []. split; [reflexivity | apply subsequence_nil_l].
    - assert (Hin : In m (found record)) by (rewrite E; now left).
      apply musicbrainz_record_found in Hin
        as (artist & title & mbid & art_json & cover_url & -> & _).
      rewrite E. exists [PyStr.lit "MusicBrainz"].
      split; [reflexivity | repeat constructor]. }
  destruct Hmb as (s1 & E1 & Hs1).
  assert (Hsp : exists s2, List.map source_of part = List.map Some s2
      /\ subsequence s2
           (if configured spotify_client then [PyStr.lit "Spotify"] else [])).
  { destruct spotify_client as [client|]; cbn in Hpart |- *.
    - destruct Hpart as [w' ->].
      set (record' := spotify_record _).
      destruct (found_at_most_one record') as [E|[m E]].
      + rewrite E. exists []. split; [reflexivity | apply subsequence_nil_l].
      + assert (Hin : In m (found record')) by (rewrite E; now left).
        apply spotify_record_found in Hin
          as (alb & artist & title & spotify_id & cover_url & -> & _).
        rewrite E. exists [PyStr.lit "Spotify"].
        split; [reflexivity | repeat constructor].
    - subst part. exists []. split; [reflexivity | constructor]. }
  destruct Hsp as (s2 & E2 & Hs2).
  exists (s1 ++ s2). split.
  - now rewrite !map_app, E1, E2.
  - unfold registered_sources.
    inversion Hs1 as [|x k a Hk|x k a Hk]; subst.
    + inversion Hk; subst. cbn. now constructor.
    + inversion Hk; subst. cbn. now constructor.
Qed.

Lemma subsequence_length (A : Type) (kept all : list A) :
  subsequence kept all -> (List.length kept <= List.length all)%nat.
Proof. induction 1; cbn; lia. Qed.

Lemma subsequence_In (A : Type) (kept all : list A) x :
  subsequence kept all -> In x kept -> In x all.
Proof.
  induction 1; cbn; [tauto | | ]; intros Hx.
  - destruct Hx; [now left | right; auto].
  - right; auto.
Qed.

Lemma subsequence_NoDup (A : Type) (kept all : list A) :
  subsequence kept all -> NoDup all -> NoDup kept.
Proof.
  induction 1 as [|x kept all Hsub IH|x kept all Hsub IH]; intros Hnd.
  - constructor.
  - inversion Hnd as [|? ? Hx Hall]; subst. constructor; [|auto].
    intros Hin. apply Hx. eapply subsequence_In; eassumption.
  - inversion Hnd; subst. auto.
Qed.

Lemma registered_sources_NoDup b : NoDup (registered_sources b).
Proof.
  destruct b; cbn; repeat constructor; cbn; try tauto.
  intros [E|[]]. discriminate E.
Qed.


End Shape.

(** C3.  In every entry [lookup_metadata] returns, the matches carry
    pairwise distinct source tags, there are at most as many of them as
    adapters in the run (MusicBrainz, and Spotify when configured: two at
    most), and their sources come in the order of the adapters, so that a
    MusicBrainz match precedes a Spotify match. *)
Theorem matches_one_per_source_in_order (World : Type) (S : services World)
    (lines : list py_str) (spotify_client : option (spotify World))
    (h : heap World) :
  exists entries h',
    lookup_metadata S lines spotify_client h = (Ok entries, h')
    /\ Forall (fun e =>
         let adapters := registered_sources (configured spotify_client) in
         exists srcs,
           List.map source_of (matches_of e) = List.map Some srcs
           /\ NoDup srcs
           /\ subsequence srcs adapters
           /\ (List.length (matches_of e) <= List.length adapters)%nat
           /\ (List.length adapters <= 2)%nat) entries.
Proof.
  destruct (lookup_metadata_run S lines spotify_client h)
    as (entries & h' & Hrun & Hall & _).
  exists entries, h'. split; [exact Hrun|].
  eapply Forall2_right; [exact Hall|].
  intros query e Hans. cbn zeta.
  destruct (answers_sources Hans) as (srcs & Emap & Hsub).
  exists srcs. split; [exact Emap|]. split; [|split; [exact Hsub|split]].
  - eapply subsequence_NoDup; [exact Hsub | apply registered_sources_NoDup].
  - apply (f_equal (@List.length _)) in Emap. rewrite !length_map in Emap.
    rewrite Emap. now apply subsequence_length.
  - destruct spotify_client; cbn; lia.
Qed.

(** C7.  Without a Spotify client the Spotify search is never called, for
    any query, and no entry has a match tagged Spotify. *)
Theorem spotify_omitted_without_client (World : Type) (S : services World)
    (lines : list py_str) (h : heap World) :
  exists entries h' cs,
    lookup_metadata S lines None h = (Ok entries, h')
    /\ calls h' = calls h ++ cs
    /\ Forall (fun c => is_spotify_call c = false) cs
    /\ Forall (fun e => from_source (PyStr.lit "Spotify") e = []) entries.
Proof.
  destruct (lookup_metadata_run S lines None h)
    as (entries & h' & Hrun & Hall & cs & Hcs & Hno).
  exists entries, h', cs. split; [exact Hrun|]. split; [exact Hcs|].
  split; [exact (Hno eq_refl)|].
  eapply Forall2_right; [exact Hall|].
  intros query e Hans.
  destruct (answers_sources Hans) as (srcs & Emap & Hsub).
  unfold from_source.
  assert (Hsrc : Forall (fun m => source_of m = Some (PyStr.lit "MusicBrainz"))
                   (matches_of e)).
  { apply Forall_forall. intros m Hm.
    apply (in_map source_of) in Hm. rewrite Emap in Hm.
    apply in_map_iff in Hm as (s & <- & Hs).
    apply (subsequence_In s Hsub) in Hs. cbn in Hs.
    destruct Hs as [<-|[]]. reflexivity. }
  clear Emap Hsub.
  induction Hsrc as [|m ms Hm _ IH]; cbn; [reflexivity|].
  unfold has_source at 1. rewrite Hm. exact IH.
Qed.


(** ** Fixed replies *)

Section Fixed.

Variable World : Type.

Lemma spotify_part_fixed (spotify_client : option (spotify World)) sp_reply
    query part :
  fixed_client spotify_client sp_reply ->
  spotify_part spotify_client query part ->
  part = spotify_matches sp_reply query.
Proof.
  destruct spotify_client as [client|], sp_reply as [reply|]; cbn;
    try contradiction.
  - intros Hfix [w ->]. now rewrite Hfix.
  - intros _ ->. reflexivity.
Qed.

Lemma answers_fixed (S : services World) spotify_client
    mb_reply art_reply sp_reply query e :
  fixed (search_releases S) mb_reply ->
  fixed (cover_art_json S) art_reply ->
  fixed_client spotify_client sp_reply ->
  answers S spotify_client query e ->
  e = resolved_entry mb_reply art_reply sp_reply query.
Proof.
  intros Hmb Hart Hsp [w art part Hactual Hpart].
  unfold resolved_entry, musicbrainz_matches.
  rewrite (spotify_part_fixed _ _ _ _ Hsp Hpart), Hmb.
  rewrite (@musicbrainz_record_ext _ art art_reply); [reflexivity|].
  intros mbid. destruct (Hactual mbid) as [w' ->]. apply Hart.
Qed.

Lemma lookup_metadata_fixed (S : services World) spotify_client
    mb_reply art_reply sp_reply lines h :
  fixed (search_releases S) mb_reply ->
  fixed (cover_art_json S) art_reply ->
  fixed_client spotify_client sp_reply ->
  fst (lookup_metadata S lines spotify_client h)
  = Ok (List.map (resolved_entry mb_reply art_reply sp_reply) lines).
Proof.
  intros Hmb Hart Hsp.
  destruct (lookup_metadata_run S lines spotify_client h)
    as (entries & h' & -> & Hall & _).
  cbn. f_equal. apply Forall2_function.
  eapply Forall2_impl; [|exact Hall].
  intros query e. now apply answers_fixed.
Qed.

Lemma filter_found_other s record :
  (forall m, In m (found record) -> has_source s m = false) ->
  filter (has_source s) (found record) = [].
Proof.
  destruct record as [[m|]|e]; cbn; try reflexivity.
  intros H. now rewrite (H m (or_introl eq_refl)).
Qed.

Lemma filter_found_same s record :
  (forall m, In m (found record) -> has_source s m = true) ->
  filter (has_source s) (found record) = found record.
Proof.
  destruct record as [[m|]|e]; cbn; try reflexivity.
  intros H. now rewrite (H m (or_introl eq_refl)).
Qed.

Lemma musicbrainz_found_source search_reply art_reply m :
  In m (found (musicbrainz_record search_reply art_reply)) ->
  has_source (PyStr.lit "MusicBrainz") m = true
  /\ has_source (PyStr.lit "Spotify") m = false.
Proof.
  intros Hm. apply musicbrainz_record_found in Hm
    as (artist & title & mbid & art_json & cover_url & -> & _).
  split; reflexivity.
Qed.

Lemma spotify_found_source search_reply m :
  In m (found (spotify_record search_reply)) ->
  has_source (PyStr.lit "Spotify") m = true
  /\ has_source (PyStr.lit "MusicBrainz") m = false.
Proof.
  intros Hm. apply spotify_record_found in Hm
    as (alb & artist & title & spotify_id & cover_url & -> & _).
  split; reflexivity.
Qed.

Lemma spotify_part_sources (spotify_client : option (spotify World))
    query part :
  spotify_part spotify_client query part ->
  filter (has_source (PyStr.lit "Spotify")) part = part
  /\ filter (has_source (PyStr.lit "MusicBrainz")) part = [].
Proof.
  destruct spotify_client as [client|]; cbn.
  - intros [w ->]. split.
    + apply filter_found_same. intros m Hm.
      now apply spotify_found_source in Hm.
    + apply filter_found_other. intros m Hm.
      now apply spotify_found_source in Hm.
  - intros ->. split; reflexivity.
Qed.

(** The matches of each source in an entry. *)
Lemma answers_from_source (S : services World) spotify_client query e :
  answers S spotify_client query e ->
  exists mb_part sp_part,
    matches_of e = mb_part ++ sp_part
    /\ from_source (PyStr.lit "MusicBrainz") e = mb_part
    /\ from_source (PyStr.lit "Spotify") e = sp_part
    /\ spotify_part spotify_client query sp_part
    /\ exists w art_reply,
         mb_part = found (musicbrainz_record (fst (search_releases S query w))
                            art_reply)
         /\ forall mbid, exists w',
              art_reply mbid = fst (cover_art_json S mbid w').
Proof.
  intros [w art_reply part Hactual Hpart].
  unfold from_source. rewrite entry_matches.
  destruct (spotify_part_sources _ _ _ Hpart) as [Hsame Hother].
  eexists _, part. split; [reflexivity|].
  rewrite !filter_app, Hsame, Hother.
  rewrite filter_found_same, filter_found_other, app_nil_r.
  - repeat split; [exact Hpart|]. eauto.
  - intros m Hm. now apply musicbrainz_found_source in Hm.
  - intros m Hm. now apply musicbrainz_found_source in Hm.
Qed.

End Fixed.

(** C9.  When every provider answers by a fixed function of what it is
    asked, [lookup_metadata] returns the same result list, in content and
    in order, each time it is called with the same queries. *)
Theorem lookup_metadata_repeatable (World : Type) (S : services World)
    (spotify_client : option (spotify World))
    (mb_reply : py_str -> outcome value) (art_reply : value -> outcome value)
    (sp_reply : option (py_str -> outcome value)) (lines : list py_str) :
  fixed (search_releases S) mb_reply ->
  fixed (cover_art_json S) art_reply ->
  fixed_client spotify_client sp_reply ->
  (forall h,
     let first := lookup_metadata S lines spotify_client h in
     let second := lookup_metadata S lines spotify_client (snd first) in
     exists entries, fst first = Ok entries /\ fst second = Ok entries)
  /\ (forall h1 h2,
        fst (lookup_metadata S lines spotify_client h1)
        = fst (lookup_metadata S lines spotify_client h2)).
Proof.
  intros Hmb Hart Hsp. split.
  - intros h. cbn zeta.
    exists (List.map (resolved_entry mb_reply art_reply sp_reply) lines).
    split; now apply lookup_metadata_fixed.
  - intros h1 h2.
    transitivity
      (Ok (A := list value)
         (List.map (resolved_entry mb_reply art_reply sp_reply) lines));
      [|symmetry]; now apply lookup_metadata_fixed.
Qed.

Section Isolation.

Variable World : Type.

Lemma Forall2_map_eq (A B C : Type) (f : A -> C) (g : B -> C) l l' :
  Forall2 (fun a b => g b = f a) l l' -> List.map g l' = List.map f l.
Proof. induction 1; cbn; congruence. Qed.

(** A MusicBrainz block whose search or whose cover-art call always raises
    leaves no record. *)
Lemma musicbrainz_broken_found (S : services World) query w art_reply :
  always_raises (search_releases S) \/ always_raises (cover_art_json S) ->
  (forall mbid, exists w', art_reply mbid = fst (cover_art_json S mbid w')) ->
  found (musicbrainz_record (fst (search_releases S query w)) art_reply) = [].
Proof.
  intros [Hs|Ha] Hactual.
  - destruct (Hs query w) as [e ->]. reflexivity.
  - set (record := musicbrainz_record _ _).
    destruct (found_at_most_one record) as [E|[m E]]; [exact E|].
    assert (Hin : In m (found record)) by (rewrite E; now left).
    apply musicbrainz_record_found in Hin
      as (artist & title & mbid & art_json & cover_url & _ & Hart & _).
    destruct (Hactual mbid) as [w' Hw']. destruct (Ha mbid w') as [e He].
    congruence.
Qed.

Lemma spotify_broken_part (client : spotify World) query part :
  always_raises client -> spotify_part (Some client) query part -> part = [].
Proof. intros Hc [w ->]. destruct (Hc query w) as [e ->]. reflexivity. Qed.

End Isolation.

(** C5.  An adapter that raises on every query does not touch the other
    adapter's results: the result list keeps its full length and, query by
    query, holds exactly the matches the other adapter contributes to a run
    in which the first adapter works. *)
Theorem broken_adapter_isolated (World : Type) :
  (forall (S S' : services World) spotify_client sp_reply lines h h',
     always_raises (search_releases S) \/ always_raises (cover_art_json S) ->
     fixed_client spotify_client sp_reply ->
     exists entries entries',
       fst (lookup_metadata S lines spotify_client h) = Ok entries
       /\ fst (lookup_metadata S' lines spotify_client h') = Ok entries'
       /\ List.length entries = List.length lines
       /\ List.map matches_of entries
          = List.map (spotify_matches sp_reply) lines
       /\ List.map (from_source (PyStr.lit "Spotify")) entries'
          = List.map matches_of entries)
  /\ (forall (S : services World) mb_reply art_reply
        (broken : spotify World) spotify_client lines h h',
     fixed (search_releases S) mb_reply ->
     fixed (cover_art_json S) art_reply ->
     always_raises broken ->
     exists entries entries',
       fst (lookup_metadata S lines (Some broken) h) = Ok entries
       /\ fst (lookup_metadata S lines spotify_client h') = Ok entries'
       /\ List.length entries = List.length lines
       /\ List.map matches_of entries
          = List.map (musicbrainz_matches mb_reply art_reply) lines
       /\ List.map (from_source (PyStr.lit "MusicBrainz")) entries'
          = List.map matches_of entries).
Proof.
  split.
  - intros S S' spotify_client sp_reply lines h h' Hbroken Hsp.
    destruct (lookup_metadata_run S lines spotify_client h)
      as (entries & h1 & -> & Hall & _).
    destruct (lookup_metadata_run S' lines spotify_client h')
      as (entries' & h1' & -> & Hall' & _).
    exists entries, entries'. cbn [fst].
    assert (E : List.map matches_of entries
                = List.map (spotify_matches sp_reply) lines).
    { apply Forall2_map_eq. eapply Forall2_impl; [|exact Hall].
      intros query e Hans.
      destruct (answers_from_source Hans)
        as (mb & sp & -> & _ & _ & Hpart & w & art & -> & Hactual).
      rewrite musicbrainz_broken_found by assumption. cbn [app].
      exact (spotify_part_fixed _ _ _ _ Hsp Hpart). }
    repeat split; [symmetry; exact (Forall2_length Hall) | exact E |].
    rewrite E. apply Forall2_map_eq. eapply Forall2_impl; [|exact Hall'].
    intros query e Hans.
    destruct (answers_from_source Hans) as (mb & sp & _ & _ & -> & Hpart & _).
    exact (spotify_part_fixed _ _ _ _ Hsp Hpart).
  - intros S mb_reply art_reply broken spotify_client lines h h'
      Hmb Hart Hbroken.
    destruct (lookup_metadata_run S lines (Some broken) h)
      as (entries & h1 & -> & Hall & _).
    destruct (lookup_metadata_run S lines spotify_client h')
      as (entries' & h1' & -> & Hall' & _).
    exists entries, entries'. cbn [fst].
    assert (Hrec : forall w art,
      (forall mbid, exists w', art mbid = fst (cover_art_json S mbid w')) ->
      forall query,
      found (musicbrainz_record (fst (search_releases S query w)) art)
      = musicbrainz_matches mb_reply art_reply query).
    { intros w art Hactual query. unfold musicbrainz_matches.
      rewrite Hmb, (@musicbrainz_record_ext _ art art_reply); [reflexivity|].
      intros mbid. destruct (Hactual mbid) as [w' ->]. apply Hart. }
    assert (E : List.map matches_of entries
                = List.map (musicbrainz_matches mb_reply art_reply) lines).
    { apply Forall2_map_eq. eapply Forall2_impl; [|exact Hall].
      intros query e Hans.
      destruct (answers_from_source Hans)
        as (mb & sp & -> & _ & _ & Hpart & w & art & -> & Hactual).
      rewrite (spotify_broken_part Hbroken Hpart), app_nil_r.
      now apply Hrec. }
    repeat split; [symmetry; exact (Forall2_length Hall) | exact E |].
    rewrite E. apply Forall2_map_eq. eapply Forall2_impl; [|exact Hall'].
    intros query e Hans.
    destruct (answers_from_source Hans)
      as (mb & sp & _ & -> & _ & _ & w & art & -> & Hactual).
    now apply Hrec.
Qed.

(** The scenario of two lines, one known to the first provider only. *)
Example abbey_road_and_garbled :
  exists m,
    fst (lookup_metadata
           (Sample.catalogue Sample.full_release Sample.front_cover)
           [Sample.abbey_road; Sample.garbled]
           (Some Sample.spotify_nothing) Sample.start)
    = Ok [entry Sample.abbey_road [m]; entry Sample.garbled []]
    /\ source_of m = Some (PyStr.lit "MusicBrainz").
Proof. eexists. split; reflexivity. Qed.

Lemma lookup_metadata_entry_per_query_witness :
  exists entries,
    fst (lookup_metadata
           (Sample.catalogue Sample.full_release Sample.front_cover)
           [Sample.abbey_road; Sample.garbled]
           (Some Sample.spotify_nothing) Sample.start) = Ok entries
    /\ nth_error entries 1 = Some (entry Sample.garbled []).
Proof.
  destruct (lookup_metadata_entry_per_query
              (Sample.catalogue Sample.full_release Sample.front_cover)
              [Sample.abbey_road; Sample.garbled]
              (Some Sample.spotify_nothing) Sample.start)
    as (entries & h' & Hrun & _ & _ & Hnth & _).
  exists entries. rewrite Hrun. split; [reflexivity|].
  destruct (Hnth 1%nat Sample.garbled eq_refl)
    as (w & ms & He & _ & _ & _ & Hnone).
  rewrite He, Hnone; [reflexivity | reflexivity |].
  intros client [= <-]. reflexivity.
Defined.

Lemma provider_exceptions_contained_witness :
  matches (snd (try_pass (musicbrainz_suite Sample.offline Sample.abbey_road)
                  Sample.start))
  = matches Sample.start.
Proof.
  destruct (proj1 (provider_exceptions_contained Sample.offline)
              Sample.abbey_road Sample.start) as (_ & _ & H).
  exact (H Sample.timeout eq_refl).
Defined.


Lemma lookup_metadata_repeatable_witness :
  let S := Sample.catalogue Sample.full_release Sample.front_cover in
  let lines := [Sample.abbey_road; Sample.garbled] in
  let first := lookup_metadata S lines (Some Sample.spotify_catalogue)
                 Sample.start in
  fst (lookup_metadata S lines (Some Sample.spotify_catalogue) (snd first))
  = fst first.
Proof.
  intros S lines first.
  apply (proj2 (@lookup_metadata_repeatable nat S
                  (Some Sample.spotify_catalogue)
                  (Sample.search_reply Sample.full_release)
                  (fun _ => Ok Sample.front_cover)
                  (Some Sample.album_reply) lines
                  (fun _ _ => eq_refl) (fun _ _ => eq_refl)
                  (fun _ _ => eq_refl))).
Defined.

Lemma broken_adapter_isolated_witness :
  let lines := [Sample.abbey_road; Sample.garbled] in
  exists entries entries',
    fst (lookup_metadata Sample.offline lines
           (Some Sample.spotify_catalogue) Sample.start) = Ok entries
    /\ fst (lookup_metadata
              (Sample.catalogue Sample.full_release Sample.front_cover)
              lines (Some Sample.spotify_catalogue) Sample.start)
       = Ok entries'
    /\ List.length entries = List.length lines
    /\ List.map matches_of entries
       = List.map (spotify_matches (Some Sample.album_reply)) lines
    /\ List.map (from_source (PyStr.lit "Spotify")) entries'
       = List.map matches_of entries.
Proof.
  intros lines.
  apply (proj1 (broken_adapter_isolated nat)).
  - left. intros query w. exists Sample.timeout. reflexivity.
  - intros query w. reflexivity.
Defined.

(** ** When a provider's result becomes a match *)

Section Produced.

Variable World : Type.
Variable S : services World.




End Produced.




(** ** JSON text read back *)

Module JsonFacts.

Import Json.

Lemma hex_value_digit d : d < 16 -> hex_value (hex_digit d) = Some d.
Proof.
  intros Hd. unfold hex_digit, hex_value. compare_chars; f_equal; lia.
Qed.

Lemma hex4_sum n :
  n < 65536 ->
  (n / 4096 mod 16) * 4096 + (n / 256 mod 16) * 256 + (n / 16 mod 16) * 16
  + n mod 16 = n.
Proof. intros Hn. zify. Z.to_euclidean_division_equations. lia. Qed.

Lemma hex4_value_escape n :
  n < 65536 ->
  hex4_value (hex_digit (n / 4096 mod 16)) (hex_digit (n / 256 mod 16))
    (hex_digit (n / 16 mod 16)) (hex_digit (n mod 16)) = Some n.
Proof.
  intros Hn. unfold hex4_value.
  rewrite !hex_value_digit by (apply N.mod_lt; discriminate).
  f_equal. now apply hex4_sum.
Qed.

Lemma lor_shifted a b k : b < 2 ^ k -> N.lor (a * 2 ^ k) b = a * 2 ^ k + b.
Proof.
  intros Hb.
  assert (E : N.land (a * 2 ^ k) b = 0).
  { apply N.bits_inj. intros m. rewrite N.land_spec, N.bits_0.
    destruct (N.lt_ge_cases m k) as [Hm|Hm].
    - now rewrite N.mul_pow2_bits_low.
    - rewrite <- (N.mod_small b (2 ^ k)) by exact Hb.
      rewrite N.mod_pow2_bits_high by exact Hm. apply andb_false_r. }
  now rewrite (N.add_nocarry_lxor _ _ E), (N.lxor_lor _ _ E).
Qed.

(** The two halves of a character beyond the basic plane. *)
Lemma high_half n :
  n < 1048576 ->
  N.lor 55296 (N.land (N.shiftr n 10) 1023) = 55296 + n / 1024.
Proof.
  intros Hn. change 1023 with (N.ones 10).
  rewrite N.land_ones, N.shiftr_div_pow2.
  change (2 ^ 10) with 1024.
  rewrite (N.mod_small (n / 1024))
    by (apply N.Div0.div_lt_upper_bound; exact Hn).
  change 55296 with (54 * 2 ^ 10). apply lor_shifted.
  apply N.Div0.div_lt_upper_bound. exact Hn.
Qed.

Lemma low_half n : N.lor 56320 (N.land n 1023) = 56320 + n mod 1024.
Proof.
  change 1023 with (N.ones 10). rewrite N.land_ones.
  change 56320 with (55 * 2 ^ 10). apply lor_shifted.
  apply N.mod_lt. discriminate.
Qed.

Lemma join_halves n :
  join_surrogates (55296 + n / 1024) (56320 + n mod 1024) = 65536 + n.
Proof.
  unfold join_surrogates.
  rewrite (N.add_comm 55296), (N.add_comm 56320), !N.add_sub.
  rewrite N.shiftl_mul_pow2, lor_shifted by (apply N.mod_lt; discriminate).
  change (2 ^ 10) with 1024.
  rewrite (N.div_mod n 1024) at 3 by discriminate.
  rewrite (N.mul_comm 1024). reflexivity.
Qed.

(** *** Strings *)

Lemma scan_plain c rest :
  c <> 34 -> c <> 92 -> 32 <= c ->
  scan_string (c :: rest) = cons_char c (scan_string rest).
Proof. intros. cbn [scan_string]. now compare_chars. Qed.

Lemma scan_short esc ch rest :
  esc <> 117 -> unescape esc = Some ch ->
  scan_string (92 :: esc :: rest) = cons_char ch (scan_string rest).
Proof.
  intros Hesc Hch. cbn [scan_string].
  change (92 =? 34) with false. change (92 =? 92) with true. cbv iota.
  compare_chars. now rewrite Hch.
Qed.

Lemma scan_escape uni h1 h2 h3 h4 rest :
  hex4_value h1 h2 h3 h4 = Some uni -> is_high_surrogate uni = false ->
  scan_string (92 :: 117 :: h1 :: h2 :: h3 :: h4 :: rest)
  = cons_char uni (scan_string rest).
Proof.
  intros Hhex Hhigh. cbn [scan_string].
  change (92 =? 34) with false. change (92 =? 92) with true.
  change (117 =? 117) with true. cbv iota.
  now rewrite Hhex, Hhigh.
Qed.

Lemma scan_pair hi lo h1 h2 h3 h4 k1 k2 k3 k4 rest :
  hex4_value h1 h2 h3 h4 = Some hi -> is_high_surrogate hi = true ->
  hex4_value k1 k2 k3 k4 = Some lo -> is_low_surrogate lo = true ->
  scan_string (92 :: 117 :: h1 :: h2 :: h3 :: h4
               :: 92 :: 117 :: k1 :: k2 :: k3 :: k4 :: rest)
  = cons_char (join_surrogates hi lo) (scan_string rest).
Proof.
  intros Hh Hhi Hk Hlo.
  remember (scan_string rest) as after.
  cbn [scan_string].
  change (92 =? 34) with false. change (92 =? 92) with true.
  change (117 =? 117) with true. cbv iota.
  rewrite Hh, Hhi. cbn [andb]. now rewrite Hk, Hlo, Heqafter.
Qed.

Lemma scan_lone_high hi h1 h2 h3 h4 rest :
  hex4_value h1 h2 h3 h4 = Some hi -> is_high_surrogate hi = true ->
  no_low_escape rest ->
  scan_string (92 :: 117 :: h1 :: h2 :: h3 :: h4 :: rest)
  = cons_char hi (scan_string rest).
Proof.
  intros Hh Hhi Hrest.
  remember (scan_string rest) as after.
  cbn [scan_string].
  change (92 =? 34) with false. change (92 =? 92) with true.
  change (117 =? 117) with true. cbv iota.
  rewrite Hh, Hhi, <- Heqafter.
  destruct rest as [|b [|u rest]]; try reflexivity.
  cbn [no_low_escape] in Hrest.
  destruct ((b =? 92) && (u =? 117)); [|reflexivity].
  destruct (Hrest eq_refl)
    as (k1 & k2 & k3 & k4 & rest' & uni & -> & Hk & Hlow).
  now rewrite Hk, Hlow.
Qed.

Lemma is_text_cons c s :
  is_text (c :: s) = true ->
  c < 1114112
  /\ match s with
     | c' :: _ => is_high_surrogate c && is_low_surrogate c' = false
     | [] => True
     end
  /\ is_text s = true.
Proof.
  unfold is_text. cbn [forallb pair_free].
  rewrite !andb_true_iff, N.ltb_lt. intros [[Hc Hall] [Hpair Hfree]].
  split; [exact Hc|]. split; [|now rewrite Hall, Hfree].
  destruct s; [exact I|]. now apply negb_true_iff in Hpair.
Qed.

(** The surrogates that stand for a character beyond the basic plane. *)
Lemma halves_of c :
  65536 <= c -> c < 1114112 ->
  let n := c - 65536 in
  let hi := N.lor 55296 (N.land (N.shiftr n 10) 1023) in
  let lo := N.lor 56320 (N.land n 1023) in
  hi < 65536 /\ lo < 65536
  /\ is_high_surrogate hi = true /\ is_low_surrogate hi = false
  /\ is_low_surrogate lo = true
  /\ join_surrogates hi lo = c.
Proof.
  intros Hlow Hup n hi lo.
  assert (Hn : n < 1048576) by (unfold n; lia).
  assert (Ehi : hi = 55296 + n / 1024) by (apply high_half; exact Hn).
  assert (Elo : lo = 56320 + n mod 1024) by apply low_half.
  assert (Hq : n / 1024 < 1024)
    by (apply N.Div0.div_lt_upper_bound; exact Hn).
  assert (Hr : n mod 1024 < 1024) by (apply N.mod_lt; discriminate).
  rewrite Ehi, Elo, join_halves.
  unfold is_high_surrogate, is_low_surrogate.
  generalize dependent (n / 1024). generalize dependent (n mod 1024).
  intros r _ Hr q _ Hq.
  assert (Hc : 65536 + n = c) by (unfold n; lia).
  clearbody hi lo n.
  repeat split; try lia.
  - apply andb_true_iff. rewrite !N.leb_le. lia.
  - apply andb_false_iff. left. apply N.leb_gt. lia.
  - apply andb_true_iff. rewrite !N.leb_le. lia.
Qed.

Lemma encoded_no_low_escape s rest :
  match s with
  | c :: _ => c < 1114112 /\ is_low_surrogate c = false
  | [] => True
  end ->
  no_low_escape (flat_map escape_char s ++ 34 :: rest).
Proof.
  destruct s as [|c s]; cbn [flat_map app].
  - intros _. destruct rest as [|u rest]; cbn; [exact I | discriminate].
  - intros [Hc Hlow].
    remember (flat_map escape_char s ++ 34 :: rest) as after eqn:Eafter.
    assert (Hafter : exists x after', after = x :: after').
    { subst after. destruct (flat_map escape_char s); cbn; eauto. }
    rewrite <- app_assoc, <- Eafter.
    unfold escape_char, u_escape.
    compare_chars; cbn [app no_low_escape]; try discriminate.
    all: try (destruct Hafter as (x & after' & ->); cbn [no_low_escape];
              compare_chars; discriminate).
    all: intros _; do 4 eexists; eexists _, _; (split; [reflexivity|]).
    all: try (split; [now apply hex4_value_escape | exact Hlow]).
    destruct (@halves_of c ltac:(lia) ltac:(lia))
      as (Hhi & _ & _ & Hnotlow & _).
    split; [now apply hex4_value_escape | exact Hnotlow].
Qed.

(** A string body read back. *)
Lemma scan_encoded s rest :
  is_text s = true ->
  scan_string (flat_map escape_char s ++ 34 :: rest) = Some (s, rest).
Proof.
  induction s as [|c s IH]; intros Htext.
  - reflexivity.
  - apply is_text_cons in Htext as (Hc & Hpair & Htext).
    specialize (IH Htext). cbn [flat_map]. rewrite <- app_assoc.
    remember (flat_map escape_char s ++ 34 :: rest) as after eqn:Eafter.
    assert (Hnext : is_high_surrogate c = true -> no_low_escape after).
    { intros Hhigh. subst after. apply encoded_no_low_escape.
      destruct s as [|c' s]; [exact I|].
      apply is_text_cons in Htext as (Hc' & _).
      rewrite Hhigh in Hpair. now split. }
    unfold escape_char, u_escape. compare_chars; cbn [app].
    all: try (erewrite scan_short; [ | discriminate | reflexivity];
              rewrite IH; subst c; reflexivity).
    all: try (rewrite scan_plain by lia; now rewrite IH).
    all: try (destruct (is_high_surrogate c) eqn:Hhigh;
              [ rewrite (scan_lone_high (hi := c));
                [now rewrite IH | now apply hex4_value_escape
                 | exact Hhigh | auto]
              | rewrite (scan_escape (uni := c));
                [now rewrite IH | now apply hex4_value_escape
                 | exact Hhigh] ]).
    all: destruct (@halves_of c ltac:(lia) ltac:(lia))
      as (Hhi & Hlo & Hishi & _ & Hislo & Hjoin).
    all: erewrite scan_pair;
      [ | now apply hex4_value_escape | eassumption
        | now apply hex4_value_escape | eassumption ].
    all: now rewrite Hjoin, IH.
Qed.

(** *** Numbers *)

Lemma read_digits_chars u rest :
  stops_digits rest -> read_digits (uint_chars u ++ rest) = (u, rest).
Proof.
  intros Hrest.
  induction u; cbn [uint_chars app read_digits];
    try (change (digit_of _) with (Some Decimal.D0)
         || change (digit_of _) with (Some Decimal.D1)
         || change (digit_of _) with (Some Decimal.D2)
         || change (digit_of _) with (Some Decimal.D3)
         || change (digit_of _) with (Some Decimal.D4)
         || change (digit_of _) with (Some Decimal.D5)
         || change (digit_of _) with (Some Decimal.D6)
         || change (digit_of _) with (Some Decimal.D7)
         || change (digit_of _) with (Some Decimal.D8)
         || change (digit_of _) with (Some Decimal.D9));
    cbv iota beta; try (rewrite IHu; reflexivity).
  destruct rest as [|c rest]; cbn in *; [reflexivity | now rewrite Hrest].
Qed.

(** The decimal writing of a positive number starts with a digit other
    than zero. *)
Lemma to_uint_head p :
  match Pos.to_uint p with
  | Decimal.Nil | Decimal.D0 _ => False
  | _ => True
  end.
Proof.
  assert (Hnorm : Decimal.unorm (Pos.to_uint p) = Pos.to_uint p).
  { rewrite <- DecimalPos.Unsigned.to_of, DecimalPos.Unsigned.of_to.
    reflexivity. }
  pose proof (DecimalPos.Unsigned.to_uint_nonnil p) as Hnil.
  pose proof (DecimalPos.Unsigned.to_uint_nonzero p) as Hzero.
  destruct (Pos.to_uint p) as [|u|u|u|u|u|u|u|u|u|u]; try exact I.
  - now apply Hnil.
  - rewrite DecimalFacts.unorm_D0 in Hnorm. unfold Decimal.unorm in Hnorm.
    destruct (Decimal.nzhead u) eqn:Hhead.
    + injection Hnorm as <-. now apply Hzero.
    + now apply DecimalFacts.nzhead_nonzero in Hhead.
    + discriminate.
    + discriminate.
    + discriminate.
    + discriminate.
    + discriminate.
    + discriminate.
    + discriminate.
    + discriminate.
    + discriminate.
Qed.

Lemma read_integer_chars p rest :
  stops_digits rest ->
  read_integer (uint_chars (Pos.to_uint p) ++ rest)
  = Some (Pos.to_uint p, rest)
  /\ exists c tail,
       uint_chars (Pos.to_uint p) ++ rest = c :: tail
       /\ 49 <= c <= 57.
Proof.
  intros Hrest. pose proof (to_uint_head p) as Hhead.
  destruct (Pos.to_uint p) as [|u|u|u|u|u|u|u|u|u|u]; try contradiction;
    cbn [uint_chars app read_integer];
    (split; [ | eexists _, _; split; [reflexivity | lia] ]);
    match goal with
    | |- context [digit_of ?c] =>
        let d := eval cbv in (digit_of c) in change (digit_of c) with d
    end;
    match goal with
    | |- context [?c =? 48] => change (c =? 48) with false
    end;
    cbv iota beta; now rewrite read_digits_chars.
Qed.

Lemma ends_item_stops rest :
  ends_item rest = true -> stops_digits rest /\ float_follows rest = false.
Proof.
  destruct rest as [|c rest]; cbn; [now split|].
  rewrite orb_true_iff, !N.eqb_eq.
  intros [->| ->]; split; try reflexivity; now destruct rest.
Qed.

Lemma decimal_head z :
  exists c tail, decimal z = c :: tail /\ (c = 45 \/ 48 <= c <= 57).
Proof.
  unfold decimal. destruct z as [|p|p]; cbn [Z.to_int].
  - eexists _, _. split; [reflexivity | lia].
  - destruct (@read_integer_chars p [] I) as (_ & c & tail & E & Hc).
    rewrite app_nil_r in E. eexists _, _. split; [exact E | lia].
  - eexists _, _. split; [reflexivity | now left].
Qed.

Section Scanned.

Variable L : limits.

Lemma read_number_encoded z rest :
  ends_item rest = true ->
  short_enough L z = true ->
  read_number L (decimal z ++ rest) = Some (VInt z, rest).
Proof.
  intros Hends Hshort. apply ends_item_stops in Hends as [Hstop Hfloat].
  unfold decimal, short_enough in *.
  destruct z as [|p|p]; cbn [Z.to_int] in *.
  - cbn. now rewrite Hfloat, Hshort.
  - destruct (read_integer_chars p rest Hstop)
      as (Hread & c & tail & E & Hc).
    unfold read_number. rewrite E in *.
    destruct (N.eqb_spec c 45); [lia|].
    rewrite Hread, Hfloat, Hshort.
    change (Decimal.Pos (Pos.to_uint p)) with (Z.to_int (Z.pos p)).
    now rewrite DecimalZ.of_to.
  - destruct (read_integer_chars p rest Hstop) as (Hread & _).
    cbn [app read_number]. change (45 =? 45) with true. cbv iota.
    rewrite Hread, Hfloat, Hshort.
    change (Decimal.Neg (Pos.to_uint p)) with (Z.to_int (Z.neg p)).
    now rewrite DecimalZ.of_to.
Qed.

Lemma parse_value_number fuel depth c tail :
  c = 45 \/ 48 <= c <= 57 ->
  parse_value L (Datatypes.S fuel) depth (c :: tail)
  = read_number L (c :: tail).
Proof.
  intros Hc. cbn [parse_value].
  destruct (N.eqb_spec c 34); [lia|].
  destruct (N.eqb_spec c 123); [lia|].
  destruct (N.eqb_spec c 91); [lia|].
  unfold PyStr.lit. cbn [list_ascii_of_string List.map starts_with].
  repeat match goal with
  | |- context [N_of_ascii ?a =? c] =>
      let k := eval cbv in (N_of_ascii a) in
      change (N_of_ascii a) with k;
      destruct (N.eqb_spec k c); [lia|]
  end.
  reflexivity.
Qed.

(** *** The scanner, case by case *)

Lemma parse_value_string fuel depth rest :
  parse_value L (Datatypes.S fuel) depth (34 :: rest)
  = match scan_string rest with
    | Some (str, r) => Some (VStr str, r)
    | None => None
    end.
Proof. reflexivity. Qed.

Lemma parse_value_list fuel depth rest :
  parse_value L (Datatypes.S fuel) (Datatypes.S depth) (91 :: rest)
  = match skip_ws rest with
    | c' :: r =>
        if c' =? 93 then Some (VList [], r)
        else
          match parse_items L fuel depth (skip_ws rest) with
          | Some (items, r') => Some (VList items, r')
          | None => None
          end
    | [] => None
    end.
Proof. reflexivity. Qed.

Lemma parse_value_dict fuel depth rest :
  parse_value L (Datatypes.S fuel) (Datatypes.S depth) (123 :: rest)
  = match skip_ws rest with
    | c' :: r =>
        if c' =? 125 then Some (VDict [], r)
        else
          match parse_members L fuel depth (skip_ws rest) with
          | Some (pairs, r') => Some (VDict (dict_of_pairs pairs), r')
          | None => None
          end
    | [] => None
    end.
Proof. reflexivity. Qed.

Lemma parse_items_step fuel depth s :
  parse_items L (Datatypes.S fuel) depth s
  = match parse_value L fuel depth s with
    | None => None
    | Some (v, s1) =>
        match skip_ws s1 with
        | c :: s2 =>
            if c =? 93 then Some ([v], s2)
            else if c =? 44 then
              match parse_items L fuel depth (skip_ws s2) with
              | Some (vs, s3) => Some (v :: vs, s3)
              | None => None
              end
            else None
        | [] => None
        end
    end.
Proof. reflexivity. Qed.

Lemma parse_members_step fuel depth s0 :
  parse_members L (Datatypes.S fuel) depth (34 :: s0)
  = match scan_string s0 with
    | None => None
    | Some (key, s1) =>
        match skip_ws s1 with
        | c :: s2 =>
            if c =? 58 then
              match parse_value L fuel depth (skip_ws s2) with
              | None => None
              | Some (v, s3) =>
                  match skip_ws s3 with
                  | c' :: s4 =>
                      if c' =? 125 then Some ([(key, v)], s4)
                      else if c' =? 44 then
                        match parse_members L fuel depth (skip_ws s4) with
                        | Some (ms, s5) => Some ((key, v) :: ms, s5)
                        | None => None
                        end
                      else None
                  | [] => None
                  end
              end
            else None
        | [] => None
        end
    end.
Proof. reflexivity. Qed.

Lemma skip_ws_start s : starts_value s -> skip_ws s = s.
Proof. destruct s as [|c s]; cbn; [tauto|]. now intros [-> _]. Qed.

Lemma skip_ws_indent level s :
  (forall c tail, s = c :: tail -> is_ws c = false) ->
  s <> [] ->
  skip_ws (newline_indent level ++ s) = s.
Proof.
  intros Hs Hne. unfold newline_indent. cbn [app skip_ws].
  change (is_ws 10) with true. cbv iota.
  induction (2 * level)%nat as [|n IH]; cbn [repeat app skip_ws].
  - destruct s as [|c tail]; [contradiction|].
    cbn. now rewrite (Hs c tail eq_refl).
  - change (is_ws 32) with true. cbv iota. exact IH.
Qed.

Lemma skip_ws_indent_value level s :
  starts_value s -> skip_ws (newline_indent level ++ s) = s.
Proof.
  intros Hs. apply skip_ws_indent.
  - intros c tail ->. apply Hs.
  - intros ->. exact Hs.
Qed.

Lemma skip_ws_indent_close level c rest :
  is_ws c = false -> skip_ws (newline_indent level ++ c :: rest) = c :: rest.
Proof.
  intros Hc. apply skip_ws_indent; [|discriminate].
  now intros c' tail [= <- _].
Qed.

Lemma ends_item_indent level s : ends_item (newline_indent level ++ s) = true.
Proof. reflexivity. Qed.

Lemma starts_value_app s t : starts_value s -> starts_value (s ++ t).
Proof. destruct s; cbn; tauto. Qed.

(** The text of a value starts with a character that is neither
    whitespace nor a closing bracket. *)
Lemma written_starts level v : starts_value (written level v).
Proof.
  destruct v as [|[|]|z|s|[|x items]|[|kv items]];
    try (cbn; repeat split; discriminate).
  cbn [written]. destruct (decimal_head z) as (c & tail & -> & Hc).
  unfold starts_value, is_ws. compare_chars; try (repeat split; lia).
Qed.

Lemma join_cons sep chunk chunks :
  chunks <> [] ->
  join sep (chunk :: chunks) = chunk ++ sep ++ join sep chunks.
Proof. destruct chunks; [contradiction | reflexivity]. Qed.

Lemma join_starts sep chunk chunks :
  starts_value chunk -> starts_value (join sep (chunk :: chunks)).
Proof.
  intros Hc. destruct chunks; cbn [join]; [exact Hc|].
  now apply starts_value_app.
Qed.

Lemma parse_value_list_items fuel depth level s items r :
  starts_value s -> parse_items L fuel depth s = Some (items, r) ->
  parse_value L (Datatypes.S fuel) (Datatypes.S depth)
    (91 :: newline_indent level ++ s)
  = Some (VList items, r).
Proof.
  intros Hs Hitems.
  rewrite parse_value_list, skip_ws_indent_value by exact Hs.
  rewrite Hitems. destruct s as [|c tail]; [contradiction|].
  destruct Hs as (_ & Hc & _).
  destruct (N.eqb_spec c 93); [contradiction | reflexivity].
Qed.

Lemma parse_value_dict_members fuel depth level s pairs r :
  starts_value s -> parse_members L fuel depth s = Some (pairs, r) ->
  parse_value L (Datatypes.S fuel) (Datatypes.S depth)
    (123 :: newline_indent level ++ s)
  = Some (VDict (dict_of_pairs pairs), r).
Proof.
  intros Hs Hpairs.
  rewrite parse_value_dict, skip_ws_indent_value by exact Hs.
  rewrite Hpairs. destruct s as [|c tail]; [contradiction|].
  destruct Hs as (_ & _ & Hc).
  destruct (N.eqb_spec c 125); [contradiction | reflexivity].
Qed.

(** The items of a [list], up to its closing bracket. *)
Lemma parse_items_encoded depth level rest items :
  items <> [] -> Forall (reads_back L depth) items ->
  forall fuel,
    Nat.lt
      (List.length (join (44 :: newline_indent (Datatypes.S level))
                      (List.map (written (Datatypes.S level)) items)))
      fuel ->
    parse_items L fuel depth
      (join (44 :: newline_indent (Datatypes.S level))
         (List.map (written (Datatypes.S level)) items)
       ++ newline_indent level ++ 93 :: rest)
    = Some (items, rest).
Proof.
  intros Hne Hall. induction Hall as [|x items Hx Hitems IH];
    [contradiction|].
  intros [|fuel] Hfuel; [lia|]. rewrite parse_items_step.
  destruct items as [|y items].
  - cbn [List.map join] in *.
    rewrite Hx by (try apply ends_item_indent; lia).
    now rewrite skip_ws_indent_close.
  - rewrite (map_cons _ x), join_cons in Hfuel |- * by discriminate.
    rewrite !length_app in Hfuel. cbn [List.length] in Hfuel.
    rewrite <- !app_assoc. cbn [app].
    rewrite Hx by (try reflexivity; lia).
    cbn [skip_ws]. change (is_ws 44) with false. cbv iota.
    change (44 =? 93) with false. change (44 =? 44) with true. cbv iota.
    rewrite skip_ws_indent_value
      by (apply starts_value_app, join_starts, written_starts).
    rewrite IH; [reflexivity | discriminate | lia].
Qed.

Lemma member_text level k v tail :
  member level (k, v) ++ tail
  = 34 :: flat_map escape_char k
    ++ 34 :: 58 :: 32 :: written level v ++ tail.
Proof.
  unfold member, encode_string. cbn [fst snd].
  rewrite <- !app_assoc. reflexivity.
Qed.

Lemma member_length level k v :
  (List.length (written level v) < List.length (member level (k, v)))%nat.
Proof.
  unfold member, encode_string. cbn [fst snd].
  rewrite !length_app. cbn [List.length]. lia.
Qed.

Lemma member_starts level kv : starts_value (member level kv).
Proof. cbn. repeat split; discriminate. Qed.

(** One member of a [dict]: the key, the colon, the value. *)
Lemma parse_member fuel depth level k v tail :
  is_text k = true -> reads_back L depth v ->
  ends_item tail = true ->
  (List.length (written level v) <= fuel)%nat ->
  parse_members L (Datatypes.S fuel) depth (member level (k, v) ++ tail)
  = match skip_ws tail with
    | c' :: s4 =>
        if c' =? 125 then Some ([(k, v)], s4)
        else if c' =? 44 then
          match parse_members L fuel depth (skip_ws s4) with
          | Some (ms, s5) => Some ((k, v) :: ms, s5)
          | None => None
          end
        else None
    | [] => None
    end.
Proof.
  intros Hk Hv Htail Hfuel.
  rewrite member_text, parse_members_step, scan_encoded by exact Hk.
  cbn [skip_ws]. change (is_ws 58) with false. cbv iota.
  change (58 =? 58) with true. cbv iota.
  cbn [skip_ws]. change (is_ws 32) with true. cbv iota.
  rewrite skip_ws_start by apply starts_value_app, written_starts.
  now rewrite Hv.
Qed.

(** The members of a [dict], up to its closing brace. *)
Lemma parse_members_encoded depth level rest items :
  items <> [] ->
  Forall (fun kv => is_text (fst kv) = true) items ->
  Forall (fun kv => reads_back L depth (snd kv)) items ->
  forall fuel,
    Nat.lt
      (List.length (join (44 :: newline_indent (Datatypes.S level))
                      (List.map (member (Datatypes.S level)) items)))
      fuel ->
    parse_members L fuel depth
      (join (44 :: newline_indent (Datatypes.S level))
         (List.map (member (Datatypes.S level)) items)
       ++ newline_indent level ++ 125 :: rest)
    = Some (items, rest).
Proof.
  intros Hne Hkeys Hall. revert Hkeys.
  induction Hall as [|[k v] items Hv Hitems IH]; [contradiction|].
  intros Hkeys. apply Forall_cons_iff in Hkeys as [Hk Hkeys].
  cbn [fst snd] in Hk, Hv.
  intros [|fuel] Hfuel; [lia|].
  pose proof (member_length (Datatypes.S level) k v) as Hlen.
  destruct items as [|kv items].
  - cbn [List.map join] in *.
    rewrite parse_member by (try apply ends_item_indent; auto; lia).
    now rewrite skip_ws_indent_close.
  - rewrite (map_cons _ (k, v)), join_cons in Hfuel |- * by discriminate.
    rewrite !length_app in Hfuel. cbn [List.length] in Hfuel.
    rewrite <- !app_assoc. cbn [app].
    rewrite parse_member by (try reflexivity; auto; lia).
    cbn [skip_ws]. change (is_ws 44) with false. cbv iota.
    change (44 =? 125) with false. change (44 =? 44) with true. cbv iota.
    rewrite skip_ws_indent_value
      by (apply starts_value_app, join_starts, member_starts).
    rewrite IH; [reflexivity | discriminate | exact Hkeys | lia].
Qed.

(** *** Dictionaries *)

Lemma eqb_eq (a b : py_str) : PyStr.eqb a b = true <-> a = b.
Proof.
  unfold PyStr.eqb.
  destruct (list_eq_dec N.eq_dec a b); split; congruence.
Qed.

Lemma dict_set_fresh key v items :
  ~ In key (List.map fst items) -> dict_set key v items = items ++ [(key, v)].
Proof.
  induction items as [|[k x] items IH]; cbn; [reflexivity|].
  intros Hnot. destruct (PyStr.eqb k key) eqn:E.
  - apply eqb_eq in E. tauto.
  - rewrite IH by tauto. reflexivity.
Qed.

Lemma dict_of_pairs_from acc pairs :
  NoDup (List.map fst (acc ++ pairs)) ->
  fold_left (fun d kv => dict_set (fst kv) (snd kv) d) pairs acc
  = acc ++ pairs.
Proof.
  revert acc. induction pairs as [|[k v] pairs IH]; intros acc Hnd; cbn.
  - now rewrite app_nil_r.
  - rewrite dict_set_fresh.
    + rewrite IH; rewrite <- app_assoc; [reflexivity | exact Hnd].
    + rewrite map_app in Hnd. cbn in Hnd.
      apply NoDup_remove_2 in Hnd. rewrite in_app_iff in Hnd. tauto.
Qed.

(** [dict] of pairs with distinct keys keeps the pairs. *)
Lemma dict_of_pairs_unique pairs :
  NoDup (List.map fst pairs) -> dict_of_pairs pairs = pairs.
Proof. intros Hnd. now apply (dict_of_pairs_from []). Qed.

(** *** Values *)

Lemma block_text opening closing level chunks rest :
  block opening closing level chunks ++ rest
  = opening :: newline_indent (Datatypes.S level)
    ++ (join (44 :: newline_indent (Datatypes.S level)) chunks
        ++ newline_indent level ++ closing :: rest).
Proof. unfold block. rewrite <- !app_assoc. reflexivity. Qed.

Lemma block_length opening closing level chunks :
  Nat.lt
    (Datatypes.S
       (List.length (join (44 :: newline_indent (Datatypes.S level)) chunks)))
    (List.length (block opening closing level chunks)).
Proof.
  unfold block, Nat.lt. rewrite !length_app. cbn [List.length]. lia.
Qed.

Lemma well_formed_reads_back v :
  well_formed v -> forall depth, fits L depth v = true -> reads_back L depth v.
Proof.
  induction v as [| b | z | s | items IH | items IH] using value_induction;
    intros Hwf depth Hfits level rest fuel Hends Hfuel.
  - destruct fuel; [vm_compute in Hfuel; lia | reflexivity].
  - destruct fuel; [destruct b; vm_compute in Hfuel; lia | now destruct b].
  - cbn [written fits] in *.
    destruct (decimal_head z) as (c & tail & E & Hc).
    destruct fuel as [|fuel]; [rewrite E in Hfuel; cbn in Hfuel; lia|].
    pose proof (read_number_encoded z rest Hends Hfits) as Hread.
    rewrite E in *. cbn [app] in *. now rewrite parse_value_number.
  - inversion Hwf as [| | | s' Htext | |]; subst.
    destruct fuel; [cbn in Hfuel; lia|].
    cbn [written]. unfold encode_string. rewrite <- !app_assoc. cbn [app].
    now rewrite parse_value_string, scan_encoded.
  - inversion Hwf as [| | | | items' Hall |]; subst.
    destruct depth as [|depth]; [discriminate|]. cbn [fits] in Hfits.
    assert (Hback : Forall (reads_back L depth) items).
    { clear -IH Hall Hfits.
      induction IH as [|x items Hx _ IHitems]; [constructor|].
      inversion Hall; subst. cbn [forallb] in Hfits.
      apply andb_true_iff in Hfits as [Hfx Hfits]. constructor; auto. }
    destruct items as [|x items].
    { destruct fuel; [vm_compute in Hfuel; lia | reflexivity]. }
    change (written level (VList (x :: items)))
      with (block 91 93 level
              (List.map (written (Datatypes.S level)) (x :: items))) in *.
    pose proof (block_length 91 93 level
                  (List.map (written (Datatypes.S level)) (x :: items))).
    destruct fuel as [|fuel]; [unfold Nat.lt in *; lia|].
    rewrite block_text.
    apply parse_value_list_items.
    + apply starts_value_app, join_starts, written_starts.
    + apply parse_items_encoded;
        [discriminate | exact Hback | unfold Nat.lt in *; lia].
  - inversion Hwf as [| | | | | items' Hnd Hkeys Hall]; subst.
    destruct depth as [|depth]; [discriminate|]. cbn [fits] in Hfits.
    assert (Hback : Forall (fun kv => reads_back L depth (snd kv)) items).
    { clear -IH Hall Hfits.
      induction IH as [|x items Hx _ IHitems]; [constructor|].
      inversion Hall; subst. cbn [forallb] in Hfits.
      apply andb_true_iff in Hfits as [Hfx Hfits]. constructor; auto. }
    destruct items as [|kv items].
    { destruct fuel; [vm_compute in Hfuel; lia | reflexivity]. }
    change (written level (VDict (kv :: items)))
      with (block 123 125 level
              (List.map (member (Datatypes.S level)) (kv :: items))) in *.
    pose proof (block_length 123 125 level
                  (List.map (member (Datatypes.S level)) (kv :: items))).
    destruct fuel as [|fuel]; [unfold Nat.lt in *; lia|].
    rewrite block_text.
    rewrite <- (@dict_of_pairs_unique (kv :: items) Hnd) at 2.
    apply parse_value_dict_members.
    + apply starts_value_app, join_starts, member_starts.
    + apply parse_members_encoded;
        [discriminate | exact Hkeys | exact Hback | unfold Nat.lt in *; lia].
Qed.

(** The text of a value, read by an interpreter whose limits the value
    fits, is the value. *)
Lemma loads_written v :
  well_formed v -> fits L (max_depth L) v = true ->
  loads L (written 0 v) = Some v.
Proof.
  intros Hwf Hfits. unfold loads.
  rewrite skip_ws_start by apply written_starts.
  pose proof (well_formed_reads_back Hwf _ Hfits 0%nat [] eq_refl (le_n _))
    as Hread.
  rewrite app_nil_r in Hread. now rewrite Hread.
Qed.

End Scanned.

(** *** What the encoder writes, and when *)

Lemma all_of_map (A B : Type) (f : A -> outcome B) (g : A -> B) items :
  Forall (fun x => f x = Ok (g x)) items ->
  all_of f items = Ok (List.map g items).
Proof.
  induction 1 as [|x items Hx _ IH]; [reflexivity|].
  cbn [all_of List.map]. fold (all_of f). rewrite Hx. cbn [and_then].
  now rewrite IH.
Qed.

Lemma all_of_ok (A B : Type) (f : A -> outcome B) items ys :
  all_of f items = Ok ys -> Forall2 (fun x y => f x = Ok y) items ys.
Proof.
  revert ys. induction items as [|x items IH]; intros ys; cbn [all_of].
  - intros [= <-]. constructor.
  - fold (all_of f). destruct (f x) as [y|e] eqn:Hx; [|discriminate].
    cbn [and_then].
    destruct (all_of f items) as [ys'|e]; [|discriminate].
    cbn [and_then]. intros [= <-]. constructor; auto.
Qed.


(** The encoder writes the text of the value, if it gets through it. *)
Lemma encode_fits L v :
  forall stack level,
    fits L stack v = true -> encode L stack level v = Ok (written level v).
Proof.
  induction v as [| b | z | s | items IH | items IH] using value_induction;
    intros stack level Hfits.
  - reflexivity.
  - now destruct b.
  - cbn [encode fits written] in *. unfold int_repr. now rewrite Hfits.
  - reflexivity.
  - destruct stack as [|stack]; [discriminate|]. cbn [fits] in Hfits.
    destruct items as [|x items]; [reflexivity|].
    cbn [encode].
    rewrite (@all_of_map _ _ _ (written (Datatypes.S level))); [reflexivity|].
    rewrite forallb_forall in Hfits. rewrite Forall_forall in IH |- *.
    intros y Hy. apply IH; auto.
  - destruct stack as [|stack]; [discriminate|]. cbn [fits] in Hfits.
    destruct items as [|kv items]; [reflexivity|].
    cbn [encode].
    rewrite (@all_of_map _ _ _
               (fun kv => encode_string (fst kv) ++ [58; 32]
                          ++ written (Datatypes.S level) (snd kv)));
      [reflexivity|].
    rewrite forallb_forall in Hfits. rewrite Forall_forall in IH |- *.
    intros y Hy. rewrite IH; auto.
Qed.

(** It gets through the values that fit, and only through them. *)
Lemma encode_ok L v :
  forall stack level text,
    encode L stack level v = Ok text ->
    fits L stack v = true /\ text = written level v.
Proof.
  induction v as [| b | z | s | items IH | items IH] using value_induction;
    intros stack level text.
  - intros [= <-]. now split.
  - destruct b; intros [= <-]; now split.
  - cbn [encode fits written]. unfold int_repr.
    destruct (short_enough L z); [|discriminate]. intros [= <-]. now split.
  - intros [= <-]. now split.
  - destruct stack as [|stack]; [discriminate|].
    destruct items as [|x items]; [intros [= <-]; now split|].
    cbn [encode].
    destruct (all_of _ _) as [chunks|e] eqn:Hall; [|discriminate].
    cbn [and_then]. intros [= <-]. apply all_of_ok in Hall.
    assert (H : forallb (fits L stack) (x :: items) = true
                /\ chunks = List.map (written (Datatypes.S level)) (x :: items)).
    { clear -IH Hall. induction Hall as [|y c ys cs Hy _ IHall];
        [now split|].
      inversion IH as [|? ? IHy IHys]; subst.
      destruct (IHy _ _ _ Hy) as [Hf ->].
      destruct (IHall IHys) as [Hfs ->].
      cbn [forallb List.map]. now rewrite Hf, Hfs. }
    destruct H as [Hf ->]. split; [exact Hf | reflexivity].
  - destruct stack as [|stack]; [discriminate|].
    destruct items as [|kv items]; [intros [= <-]; now split|].
    cbn [encode].
    destruct (all_of _ _) as [chunks|e] eqn:Hall; [|discriminate].
    cbn [and_then]. intros [= <-]. apply all_of_ok in Hall.
    assert (H : forallb (fun kv => fits L stack (snd kv)) (kv :: items) = true
                /\ chunks
                   = List.map
                       (fun kv => encode_string (fst kv) ++ [58; 32]
                                  ++ written (Datatypes.S level) (snd kv))
                       (kv :: items)).
    { clear -IH Hall. induction Hall as [|y c ys cs Hy _ IHall];
        [now split|].
      inversion IH as [|? ? IHy IHys]; subst.
      destruct (encode L stack (Datatypes.S level) (snd y)) as [t|e] eqn:Ht;
        [|discriminate].
      cbn [and_then] in Hy. injection Hy as <-.
      destruct (IHy _ _ _ Ht) as [Hf ->].
      destruct (IHall IHys) as [Hfs ->].
      cbn [forallb List.map]. now rewrite Hf, Hfs. }
    destruct H as [Hf ->]. split; [exact Hf | reflexivity].
Qed.


(** [json.loads(json.dumps(v, indent=2))] is [v], when the text is written
    and the reader takes the numbers and the nesting of [v]. *)
Lemma loads_dumps (writer reader : limits) v text :
  well_formed v ->
  dumps writer v = Ok text ->
  fits reader (max_depth reader) v = true ->
  loads reader text = Some v.
Proof.
  intros Hwf Hdumps Hfits. apply encode_ok in Hdumps as [_ ->].
  now apply loads_written.
Qed.

(** *** The text is ASCII *)

Lemma u_escape_ascii n : ascii_text (u_escape n).
Proof.
  unfold u_escape, ascii_text.
  assert (H : forall d, d < 16 -> hex_digit d < 128).
  { intros d Hd. unfold hex_digit. destruct (d <? 10); lia. }
  repeat constructor; try (apply H, N.mod_lt; discriminate).
Qed.

Lemma escape_char_ascii c : ascii_text (escape_char c).
Proof.
  unfold escape_char. compare_chars;
    try (repeat constructor; lia);
    try apply Forall_app; try split; apply u_escape_ascii.
Qed.

Lemma encode_string_ascii s : ascii_text (encode_string s).
Proof.
  unfold encode_string. repeat (apply Forall_app; split);
    try (repeat constructor; fail).
  induction s as [|c s IH]; cbn [flat_map]; [constructor|].
  apply Forall_app. split; [apply escape_char_ascii | exact IH].
Qed.

Lemma decimal_ascii z : ascii_text (decimal z).
Proof.
  assert (H : forall u, ascii_text (uint_chars u)).
  { induction u; cbn; constructor; auto; reflexivity. }
  unfold decimal. destruct (Z.to_int z); [apply H|].
  constructor; [reflexivity | apply H].
Qed.

Lemma newline_indent_ascii level : ascii_text (newline_indent level).
Proof.
  unfold newline_indent. constructor; [reflexivity|].
  induction (2 * level)%nat; cbn; constructor; auto. reflexivity.
Qed.

Lemma join_ascii sep chunks :
  ascii_text sep -> Forall ascii_text chunks -> ascii_text (join sep chunks).
Proof.
  intros Hsep Hall. induction Hall as [|chunk chunks Hc Hcs IH];
    [constructor|].
  destruct chunks; [exact Hc|].
  rewrite join_cons by discriminate.
  repeat (apply Forall_app; split); auto.
Qed.

Lemma block_ascii opening closing level chunks :
  opening < 128 -> closing < 128 -> Forall ascii_text chunks ->
  ascii_text (block opening closing level chunks).
Proof.
  intros Ho Hc Hall. unfold block.
  repeat (apply Forall_app; split);
    try apply newline_indent_ascii; try (repeat constructor; assumption).
  apply join_ascii; [|exact Hall].
  constructor; [reflexivity | apply newline_indent_ascii].
Qed.

Lemma written_ascii v : forall level, ascii_text (written level v).
Proof.
  induction v as [| b | z | s | items IH | items IH] using value_induction;
    intros level.
  - repeat constructor.
  - destruct b; repeat constructor.
  - apply decimal_ascii.
  - apply encode_string_ascii.
  - destruct items as [|x items]; [repeat constructor|].
    apply (@block_ascii 91 93); try reflexivity.
    apply Forall_map. eapply Forall_impl; [|exact IH]. auto.
  - destruct items as [|kv items]; [repeat constructor|].
    apply (@block_ascii 123 125); try reflexivity.
    apply Forall_map. eapply Forall_impl; [|exact IH].
    intros [k v] Hv. cbn [fst snd] in *.
    apply Forall_app. split; [apply encode_string_ascii|].
    apply Forall_app. split; [repeat constructor | apply Hv].
Qed.

End JsonFacts.

(** ** Well-formed values through [lookup_metadata] *)

Section WellFormed.

Lemma distinct_NoDup keys : distinct keys = true -> NoDup keys.
Proof.
  induction keys as [|k keys IH]; cbn; [constructor|].
  rewrite andb_true_iff, negb_true_iff. intros [Hk Hrest].
  constructor; [|auto].
  intros Hin. assert (E : existsb (PyStr.eqb k) keys = true).
  { apply existsb_exists. exists k. split; [exact Hin|].
    now apply JsonFacts.eqb_eq. }
  congruence.
Qed.

Lemma check_sound v : check v = true -> well_formed v.
Proof.
  induction v as [| b | z | s | items IH | items IH] using value_induction;
    cbn [check]; intros Hc; try constructor; auto.
  - induction IH as [|x items Hx _ IHitems]; [constructor|].
    cbn in Hc. apply andb_true_iff in Hc as [H1 H2]. constructor; auto.
  - apply andb_true_iff in Hc as [Hd _]. now apply distinct_NoDup.
  - apply andb_true_iff in Hc as [_ Hall]. clear IH.
    induction items as [|kv items IHitems]; [constructor|].
    cbn in Hall. rewrite !andb_true_iff in Hall.
    constructor; [tauto | apply IHitems; tauto].
  - apply andb_true_iff in Hc as [_ Hall].
    induction IH as [|kv items Hkv _ IHitems]; [constructor|].
    cbn in Hall. rewrite !andb_true_iff in Hall.
    constructor; [apply Hkv; tauto | apply IHitems; tauto].
Qed.

Lemma dict_lookup_well_formed key items x :
  Py.dict_lookup key items = Some x ->
  Forall (fun kv => well_formed (snd kv)) items -> well_formed x.
Proof.
  intros Hlook Hall. induction Hall as [|[k v] items Hv _ IH];
    cbn in Hlook; [discriminate|].
  destruct (PyStr.eqb k key); [now injection Hlook as <- | auto].
Qed.

Lemma get_well_formed v key default x :
  Py.get v key default = Ok x ->
  well_formed v -> well_formed default -> well_formed x.
Proof.
  destruct v; cbn; try discriminate.
  destruct (Py.dict_lookup key items) eqn:Hlook; intros [= <-] Hv Hd;
    [|exact Hd].
  inversion Hv; subst. eapply dict_lookup_well_formed; eassumption.
Qed.

Lemma getitem_well_formed v key x :
  Py.getitem v key = Ok x -> well_formed v -> well_formed x.
Proof.
  destruct v; cbn; try discriminate.
  destruct (Py.dict_lookup key items) eqn:Hlook; intros [= <-] Hv.
  inversion Hv; subst. eapply dict_lookup_well_formed; eassumption.
Qed.

Lemma first_well_formed v x :
  Py.first v = Ok x -> well_formed v -> well_formed x.
Proof.
  destruct v as [| | |s|items|items]; cbn; try discriminate.
  - destruct s as [|c s]; intros [= <-] Hv.
    inversion Hv as [| | |? Ht| |]; subst.
    apply JsonFacts.is_text_cons in Ht as (Hc & _).
    constructor. unfold is_text. cbn.
    apply N.ltb_lt in Hc. now rewrite Hc.
  - destruct items as [|y items]; intros [= <-] Hv.
    inversion Hv as [| | | |? Hall|]; subst. now inversion Hall.
Qed.

Lemma empty_list_well_formed : well_formed (VList []).
Proof. repeat constructor. Qed.

Lemma empty_dict_well_formed : well_formed (VDict []).
Proof. repeat constructor. Qed.

Lemma artist_credit_name_well_formed r x :
  artist_credit_name r = Ok x -> well_formed r -> well_formed x.
Proof.
  unfold artist_credit_name. intros H Hr.
  repeat match type of H with
  | match ?o with Ok _ => _ | Raise _ => _ end = _ =>
      destruct o eqn:?; [|discriminate]
  end.
  eauto 12 using get_well_formed, getitem_well_formed,
    first_well_formed, empty_list_well_formed, empty_dict_well_formed, wf_none.
Qed.

Lemma cover_url_of_well_formed art_json x :
  cover_url_of art_json = Ok x -> well_formed art_json -> well_formed x.
Proof.
  unfold cover_url_of, and_then. intros H Hr.
  repeat match type of H with
  | match ?o with Ok _ => _ | Raise _ => _ end = _ =>
      destruct o eqn:?; [|discriminate]
  | (if ?b then _ else _) = _ => destruct b
  end; [|injection H as <-; constructor].
  eauto 12 using get_well_formed, getitem_well_formed,
    first_well_formed, empty_list_well_formed, empty_dict_well_formed, wf_none.
Qed.

Lemma first_artist_name_well_formed alb x :
  first_artist_name alb = Ok x -> well_formed alb -> well_formed x.
Proof.
  unfold first_artist_name. intros H Hr.
  repeat match type of H with
  | match ?o with Ok _ => _ | Raise _ => _ end = _ =>
      destruct o eqn:?; [|discriminate]
  end.
  eauto 12 using get_well_formed, getitem_well_formed,
    first_well_formed, empty_list_well_formed, empty_dict_well_formed, wf_none.
Qed.

Lemma first_image_url_well_formed alb x :
  first_image_url alb = Ok x -> well_formed alb -> well_formed x.
Proof.
  unfold first_image_url. intros H Hr.
  repeat match type of H with
  | match ?o with Ok _ => _ | Raise _ => _ end = _ =>
      destruct o eqn:?; [|discriminate]
  | (if ?b then _ else _) = _ => destruct b
  end; [|injection H as <-; constructor].
  eauto 12 using get_well_formed, getitem_well_formed,
    first_well_formed, empty_list_well_formed, empty_dict_well_formed, wf_none.
Qed.

Lemma record_well_formed (keys : list py_str) (fields : list value) :
  distinct keys = true ->
  forallb is_text keys = true ->
  List.length keys = List.length fields ->
  Forall well_formed fields ->
  well_formed (VDict (combine keys fields)).
Proof.
  intros Hd Ht Hlen Hall.
  assert (Hkeys : List.map fst (combine keys fields) = keys).
  { clear -Hlen. revert fields Hlen.
    induction keys; intros [|f fields]; cbn; try discriminate; auto.
    intros [= Hlen]. now rewrite IHkeys. }
  constructor.
  - rewrite Hkeys. now apply distinct_NoDup.
  - apply Forall_forall. intros [k v] Hin. cbn.
    apply in_combine_l in Hin.
    rewrite forallb_forall in Ht. auto.
  - apply Forall_forall. intros [k v] Hin. cbn.
    apply in_combine_r in Hin.
    rewrite Forall_forall in Hall. auto.
Qed.

Lemma musicbrainz_match_well_formed artist title mbid cover_url :
  well_formed artist -> well_formed title -> well_formed mbid ->
  well_formed cover_url ->
  well_formed (musicbrainz_match artist title mbid cover_url).
Proof.
  intros Ha Ht Hi Hc.
  apply (@record_well_formed musicbrainz_keys
           [VStr (PyStr.lit "MusicBrainz"); artist; title; mbid; cover_url]);
    try reflexivity.
  repeat constructor; auto.
Qed.

Lemma spotify_match_well_formed artist title spotify_id cover_url :
  well_formed artist -> well_formed title -> well_formed spotify_id ->
  well_formed cover_url ->
  well_formed (spotify_match artist title spotify_id cover_url).
Proof.
  intros Ha Ht Hi Hc.
  apply (@record_well_formed spotify_keys
           [VStr (PyStr.lit "Spotify"); artist; title; spotify_id; cover_url]);
    try reflexivity.
  repeat constructor; auto.
Qed.

End WellFormed.

Section RoundTrip.

Variable World : Type.
Variable S : services World.

Lemma musicbrainz_record_well_formed search_reply art_reply m :
  (forall v, search_reply = Ok v -> well_formed v) ->
  (forall mbid v, art_reply mbid = Ok v -> well_formed v) ->
  In m (found (musicbrainz_record search_reply art_reply)) ->
  well_formed m.
Proof.
  intros Hsearch Hart. unfold musicbrainz_record, and_then.
  destruct search_reply as [mb|e]; [|intros []].
  specialize (Hsearch mb eq_refl).
  repeat (run_step; try (intros []; fail)).
  intros [<-|[]].
  apply musicbrainz_match_well_formed;
    eauto 12 using get_well_formed, first_well_formed,
      artist_credit_name_well_formed, cover_url_of_well_formed,
      empty_list_well_formed, wf_none.
Qed.

Lemma spotify_record_well_formed search_reply m :
  (forall v, search_reply = Ok v -> well_formed v) ->
  In m (found (spotify_record search_reply)) ->
  well_formed m.
Proof.
  intros Hsearch. unfold spotify_record, and_then.
  destruct search_reply as [sp_res|e]; [|intros []].
  specialize (Hsearch sp_res eq_refl).
  repeat (run_step; try (intros []; fail)).
  intros [<-|[]].
  apply spotify_match_well_formed;
    eauto 12 using get_well_formed, getitem_well_formed, first_well_formed,
      first_artist_name_well_formed, first_image_url_well_formed,
      empty_list_well_formed, empty_dict_well_formed.
Qed.

Lemma entry_well_formed query ms :
  is_text query = true -> Forall well_formed ms ->
  well_formed (entry query ms).
Proof.
  intros Hq Hms.
  apply (@record_well_formed
           [PyStr.lit "query_text"; PyStr.lit "matches"]
           [VStr query; VList ms]); try reflexivity.
  repeat constructor; auto.
Qed.

Lemma answers_well_formed spotify_client query e :
  replies_well_formed (search_releases S) ->
  replies_well_formed (cover_art_json S) ->
  (forall client, spotify_client = Some client ->
                  replies_well_formed client) ->
  is_text query = true ->
  answers S spotify_client query e -> well_formed e.
Proof.
  intros Hmb Hart Hsp Hq [w art_reply part Hactual Hpart].
  apply entry_well_formed; [exact Hq|].
  apply Forall_app. split; apply Forall_forall; intros m Hm.
  - eapply musicbrainz_record_well_formed; [| |exact Hm].
    + intros v Hv. eapply Hmb. exact Hv.
    + intros mbid v Hv. destruct (Hactual mbid) as [w' E].
      rewrite E in Hv. eapply Hart. exact Hv.
  - destruct spotify_client as [client|]; cbn in Hpart.
    + destruct Hpart as [w' ->].
      eapply spotify_record_well_formed; [|exact Hm].
      intros v Hv. eapply (Hsp client eq_refl). exact Hv.
    + subst part. destruct Hm.
Qed.

End RoundTrip.

(** Outside text: a high surrogate directly followed by a low one is
    written as two escapes and read back as one character. *)
Example paired_surrogates_join :
  Json.dumps Studio.python (VStr [55357; 56832])
  = Ok ([34] ++ PyStr.lit "\ud83d\ude00" ++ [34])
  /\ Json.loads Studio.python ([34] ++ PyStr.lit "\ud83d\ude00" ++ [34])
     = Some (VStr [128512]).
Proof. split; reflexivity. Qed.




(** * Further properties *)

(** ** The remote calls of a run *)

Section Calls.

Variable World : Type.
Variable S : services World.

Lemma musicbrainz_suite_calls query h :
  calls (snd (musicbrainz_suite S query h))
  = calls h ++ SearchReleases query
      :: cover_art_request (fst (search_releases S query (world h))).
Proof.
  unfold musicbrainz_suite, cover_art_request.
  cbn zeta. run_simpl. run_all.
  all: rewrite <- ?app_assoc; reflexivity.
Qed.

Lemma lookup_query_calls spotify_client query h :
  calls (snd (lookup_query S spotify_client query h))
  = calls h ++ calls_for (configured spotify_client) query
                 (fst (search_releases S query (world h))).
Proof.
  unfold lookup_query, calls_for.
  cbv beta delta [bind new_matches read_matches ret]. cbv beta iota.
  rewrite try_pass_run.
  set (h0 := {| world := world h; calls := calls h; matches := [] |}).
  pose proof (musicbrainz_suite_calls query h0) as Hc.
  cbn [world calls h0] in Hc.
  set (h1 := snd (musicbrainz_suite S query h0)) in *.
  destruct spotify_client as [client|]; cbn [configured].
  - rewrite try_pass_run.
    destruct (spotify_suite_run client query h1) as (_ & _ & Hc').
    cbn zeta in Hc'. cbn [snd]. rewrite Hc', Hc.
    rewrite <- app_assoc. reflexivity.
  - cbn [snd]. rewrite Hc, app_nil_r. reflexivity.
Qed.

End Calls.


Lemma for_queries_calls (World : Type) (S : services World) spotify_client
    lines :
  forall results h,
  exists traces,
    calls (snd (for_queries S spotify_client lines results h))
    = calls h ++ List.concat traces
    /\ Forall2 (fun query trace =>
         exists w,
           trace = calls_for (configured spotify_client) query
                     (fst (search_releases S query w))) lines traces.
Proof.
  induction lines as [|query rest IH]; intros results h.
  - exists []. cbn. rewrite app_nil_r. split; [reflexivity | constructor].
  - cbn [for_queries]. unfold bind.
    pose proof (lookup_query_calls S spotify_client query h) as Hc.
    destruct (lookup_query_run S spotify_client query h)
      as (e & h1 & Hrun & _).
    rewrite Hrun in Hc |- *. cbn [snd] in Hc.
    destruct (IH (results ++ [e]) h1) as (traces & Hcalls & Hall).
    eexists (_ :: traces). split.
    + rewrite Hcalls, Hc. cbn [List.concat]. now rewrite <- app_assoc.
    + constructor; [eauto | exact Hall].
Qed.


(** ** The cover-art request *)



(** ** The first result only *)

(** X3.  Each block looks at the first result of its search and at nothing
    after it: two replies that agree on their first result make the block
    run the same way, to the same state. *)
Theorem only_first_result_used (World : Type) :
  (forall (S S' : services World) query h mb mb' w r rest rest',
     search_releases S query (world h) = (Ok mb, w) ->
     search_releases S' query (world h) = (Ok mb', w) ->
     Py.get mb (PyStr.lit "release-list") (VList []) = Ok (VList (r :: rest)) ->
     Py.get mb' (PyStr.lit "release-list") (VList [])
     = Ok (VList (r :: rest')) ->
     cover_art_json S = cover_art_json S' ->
     musicbrainz_suite S query h = musicbrainz_suite S' query h)
  /\ (forall (client client' : spotify World) query h sp_res sp_res' w
        albums albums' alb rest rest',
     client query (world h) = (Ok sp_res, w) ->
     client' query (world h) = (Ok sp_res', w) ->
     Py.get sp_res (PyStr.lit "albums") (VDict []) = Ok albums ->
     Py.get sp_res' (PyStr.lit "albums") (VDict []) = Ok albums' ->
     Py.get albums (PyStr.lit "items") (VList []) = Ok (VList (alb :: rest)) ->
     Py.get albums' (PyStr.lit "items") (VList [])
     = Ok (VList (alb :: rest')) ->
     spotify_suite client query h = spotify_suite client' query h).
Proof.
  split.
  - intros S S' query h mb mb' w r rest rest' Hs Hs' Hg Hg' Hcover.
    unfold musicbrainz_suite, bind, invoke, lift.
    rewrite Hs, Hs', Hg, Hg', Hcover. reflexivity.
  - intros client client' query h sp_res sp_res' w albums albums' alb
      rest rest' Hs Hs' Ha Ha' Hi Hi'.
    unfold spotify_suite, bind, invoke, lift.
    rewrite Hs, Hs', Ha, Ha', Hi, Hi'. reflexivity.
Qed.

Lemma only_first_result_used_witness :
  musicbrainz_suite
    (Sample.catalogue Sample.full_release Sample.front_cover)
    Sample.abbey_road Sample.start
  = musicbrainz_suite Demo.long_catalogue Sample.abbey_road Sample.start.
Proof.
  apply (proj1 (only_first_result_used nat)
           (Sample.catalogue Sample.full_release Sample.front_cover)
           Demo.long_catalogue Sample.abbey_road Sample.start
           (Sample.releases [Sample.full_release])
           (Sample.releases [Sample.full_release; Demo.other_release])
           1%nat Sample.full_release [] [Demo.other_release]);
    reflexivity.
Defined.

(** ** Runs in sequence *)

Lemma for_queries_from (World : Type) (S : services World) spotify_client
    lines :
  forall h,
  exists entries h',
    forall results,
      for_queries S spotify_client lines results h
      = (Ok (results ++ entries), h').
Proof.
  induction lines as [|query rest IH]; intros h.
  - exists [], h. intros results. cbn. now rewrite app_nil_r.
  - destruct (lookup_query_run S spotify_client query h)
      as (e & h1 & Hrun & _).
    destruct (IH h1) as (entries & h' & Hrest).
    exists (e :: entries), h'. intros results.
    cbn [for_queries]. unfold bind. rewrite Hrun, Hrest.
    now rewrite <- app_assoc.
Qed.

Lemma for_queries_app (World : Type) (S : services World) spotify_client
    l1 l2 :
  forall results h,
    for_queries S spotify_client (l1 ++ l2) results h
    = match for_queries S spotify_client l1 results h with
      | (Ok r1, h1) => for_queries S spotify_client l2 r1 h1
      | (Raise e, h1) => (Raise e, h1)
      end.
Proof.
  induction l1 as [|query l1 IH]; intros results h; [reflexivity|].
  cbn [app for_queries]. unfold bind.
  destruct (lookup_query S spotify_client query h) as [[e|x] h1];
    [apply IH | reflexivity].
Qed.

(** X4.  Looking up a list of queries in two runs, the second from the
    state the first one left, gives the entries and the final state of one
    run over the whole list. *)
Theorem lookup_metadata_in_two_runs (World : Type) (S : services World)
    (spotify_client : option (spotify World)) (l1 l2 : list py_str)
    (h : heap World) :
  exists r1 h1 r2 h2,
    lookup_metadata S l1 spotify_client h = (Ok r1, h1)
    /\ lookup_metadata S l2 spotify_client h1 = (Ok r2, h2)
    /\ lookup_metadata S (l1 ++ l2) spotify_client h = (Ok (r1 ++ r2), h2).
Proof.
  unfold lookup_metadata.
  destruct (for_queries_from S spotify_client l1 h) as (r1 & h1 & H1).
  destruct (for_queries_from S spotify_client l2 h1) as (r2 & h2 & H2).
  exists r1, h1, r2, h2.
  split; [exact (H1 [])|]. split; [exact (H2 [])|].
  rewrite for_queries_app, (H1 []). cbn [app]. apply H2.
Qed.

(** ** Entry by entry *)

(** X5.  When every provider answers by a fixed function of what it is
    asked, the entry of a query is a function of that query alone: the
    result list is that function applied to each query in turn, whatever
    the other queries are, and the same queries in another order give the
    same entries in that order. *)
Theorem lookup_metadata_entry_by_entry (World : Type) (S : services World)
    (spotify_client : option (spotify World))
    (mb_reply : py_str -> outcome value) (art_reply : value -> outcome value)
    (sp_reply : option (py_str -> outcome value)) :
  fixed (search_releases S) mb_reply ->
  fixed (cover_art_json S) art_reply ->
  fixed_client spotify_client sp_reply ->
  (forall lines h,
     fst (lookup_metadata S lines spotify_client h)
     = Ok (List.map (resolved_entry mb_reply art_reply sp_reply) lines))
  /\ (forall lines lines' h h',
        Permutation lines lines' ->
        exists entries entries',
          fst (lookup_metadata S lines spotify_client h) = Ok entries
          /\ fst (lookup_metadata S lines' spotify_client h') = Ok entries'
          /\ Permutation entries entries').
Proof.
  intros Hmb Hart Hsp.
  assert (Hmap : forall lines h,
    fst (lookup_metadata S lines spotify_client h)
    = Ok (List.map (resolved_entry mb_reply art_reply sp_reply) lines)).
  { intros lines h. now apply lookup_metadata_fixed. }
  split; [exact Hmap|].
  intros lines lines' h h' Hperm.
  eexists _, _. split; [apply Hmap|]. split; [apply Hmap|].
  now apply Permutation_map.
Qed.

Lemma lookup_metadata_entry_by_entry_witness :
  let S := Sample.catalogue Sample.full_release Sample.front_cover in
  exists entries entries',
    fst (lookup_metadata S [Sample.abbey_road; Sample.garbled]
           (Some Sample.spotify_catalogue) Sample.start) = Ok entries
    /\ fst (lookup_metadata S [Sample.garbled; Sample.abbey_road]
              (Some Sample.spotify_catalogue) Sample.start) = Ok entries'
    /\ Permutation entries entries'.
Proof.
  intros S.
  apply (proj2 (@lookup_metadata_entry_by_entry nat S
                  (Some Sample.spotify_catalogue)
                  (Sample.search_reply Sample.full_release)
                  (fun _ => Ok Sample.front_cover)
                  (Some Sample.album_reply)
                  (fun _ _ => eq_refl) (fun _ _ => eq_refl)
                  (fun _ _ => eq_refl))).
  apply perm_swap.
Defined.

(** ** The extracted text, shown and read again *)

Section JoinedLines.

Import PyStr.

Lemma splitlines_from_unbroken line :
  unbroken line ->
  forall acc rest,
    splitlines_from acc (line ++ rest) = splitlines_from (acc ++ line) rest.
Proof.
  induction 1 as [|c line Hc _ IH]; intros acc rest.
  - now rewrite app_nil_r.
  - cbn [app splitlines_from]. rewrite Hc, IH, <- app_assoc. reflexivity.
Qed.

Lemma splitlines_from_newline acc rest :
  splitlines_from acc (10 :: rest) = acc :: splitlines_from [] rest.
Proof.
  rewrite splitlines_from_break by reflexivity. now destruct rest.
Qed.

Lemma splitlines_join lines :
  Forall (fun line => line <> [] /\ unbroken line) lines ->
  splitlines (Json.join [10] lines) = lines.
Proof.
  unfold splitlines.
  induction 1 as [|line lines [Hne Hline] Hlines IH]; [reflexivity|].
  destruct lines as [|line' lines].
  - cbn [Json.join]. rewrite <- (app_nil_r line) at 1.
    rewrite splitlines_from_unbroken by exact Hline.
    cbn. now destruct line.
  - rewrite JsonFacts.join_cons by discriminate.
    rewrite splitlines_from_unbroken by exact Hline.
    cbn [app]. now rewrite splitlines_from_newline, IH.
Qed.

Lemma lstrip_fixed s :
  (forall c rest, s = c :: rest -> is_space c = false) -> lstrip s = s.
Proof.
  destruct s as [|c s]; [reflexivity|]. intros H. cbn.
  now rewrite (H c s eq_refl).
Qed.

Lemma strip_fixed q : trimmed q -> strip q = q.
Proof.
  intros [Hfirst Hlast]. unfold strip, rstrip.
  rewrite (lstrip_fixed Hfirst), lstrip_fixed; [apply rev_involutive|].
  intros c rest E. apply (Hlast (rev rest)).
  apply (f_equal (@rev N)) in E. rewrite rev_involutive in E.
  exact E.
Qed.

Lemma strip_unbroken line : unbroken line -> unbroken (strip line).
Proof.
  intros Hline. destruct (strip_trim line) as [_ (before & after & E & _)].
  rewrite E in Hline. apply Forall_app in Hline as [_ Hline].
  now apply Forall_app in Hline as [Hline _].
Qed.

Lemma stripped_lines_clean lines :
  Forall unbroken lines ->
  Forall (fun q => (q <> [] /\ unbroken q) /\ trimmed q)
    (stripped_lines lines).
Proof.
  induction 1 as [|line lines Hline _ IH]; cbn; [constructor|].
  destruct (truthy (strip line)) eqn:Ht; [|exact IH].
  constructor; [|exact IH].
  repeat split; try apply strip_trim.
  - now apply truthy_nonempty.
  - now apply strip_unbroken.
Qed.

Lemma stripped_lines_fixed lines :
  Forall (fun q => q <> [] /\ trimmed q) lines -> stripped_lines lines = lines.
Proof.
  induction 1 as [|q lines [Hne Hq] _ IH]; cbn; [reflexivity|].
  rewrite (strip_fixed Hq), IH.
  now destruct q.
Qed.

End JoinedLines.

(** X6.  The lines [extract_text] returns have no line boundary inside, no
    whitespace at either end and are not empty; joined by new lines, as
    [main] shows them, and normalised again they are the same lines. *)
Theorem text_lines_joined_again (raw_text : py_str) :
  Forall (fun q => (q <> [] /\ unbroken q) /\ trimmed q)
    (text_lines raw_text)
  /\ text_lines (join_lines (text_lines raw_text)) = text_lines raw_text.
Proof.
  assert (Hclean : Forall (fun q => (q <> [] /\ unbroken q) /\ trimmed q)
                     (text_lines raw_text)).
  { apply stripped_lines_clean.
    exact (cut_unbroken (splitlines_cut raw_text)). }
  split; [exact Hclean|].
  unfold text_lines at 1, join_lines.
  rewrite splitlines_join.
  - apply stripped_lines_fixed.
    eapply Forall_impl; [|exact Hclean].
    intros q [[Hne _] Hq]. now split.
  - eapply Forall_impl; [|exact Hclean].
    intros q [Hq _]. exact Hq.
Qed.

(** ** The download *)

Lemma utf8_encode_ascii s : ascii_text s -> utf8_encode s = Ok s.
Proof.
  induction 1 as [|c s Hc _ IH]; [reflexivity|].
  cbn [utf8_encode]. unfold utf8_char.
  apply N.ltb_lt in Hc. rewrite Hc. cbn [and_then]. now rewrite IH.
Qed.

(** Once the text is written, its bytes are its characters. *)
Lemma json_data_written L results text :
  Json.dumps L (VList results) = Ok text ->
  json_data L results = Ok text /\ ascii_text text.
Proof.
  intros Hdumps. unfold json_data. rewrite Hdumps. cbn [and_then].
  apply JsonFacts.encode_ok in Hdumps as [_ ->].
  pose proof (JsonFacts.written_ascii (VList results) 0) as Hascii.
  split; [now apply utf8_encode_ascii | exact Hascii].
Qed.

Lemma json_data_fits L results :
  Json.fits L (max_depth L) (VList results) = true ->
  json_data L results = Ok (Json.written 0 (VList results)).
Proof.
  intros Hfits. apply json_data_written.
  now apply JsonFacts.encode_fits.
Qed.



(** ** The Markdown view *)

Section MarkdownFacts.

Variable L : limits.
Variable repr : value -> outcome py_str.

Lemma musicbrainz_section query ms artist title mbid cover_url :
  match_section L repr (entry query ms)
    (musicbrainz_match artist title mbid cover_url)
  = (artist_text <-- str_of L repr artist ;;
     title_text <-- str_of L repr title ;;
     cover_lines <-- cover_lines_of L repr cover_url ;;
     mbid_text <-- str_of L repr mbid ;;
     Ok (header_line (PyStr.lit "MusicBrainz") artist_text title_text
         :: cover_lines ++ [mbid_line mbid_text; query_line query])).
Proof.
  unfold match_section, cover_lines_of.
  change (Py.getitem (musicbrainz_match artist title mbid cover_url)
            (PyStr.lit "source")) with (Ok (VStr (PyStr.lit "MusicBrainz"))).
  change (Py.get (musicbrainz_match artist title mbid cover_url)
            (PyStr.lit "artist") (VStr [])) with (Ok artist).
  change (Py.get (musicbrainz_match artist title mbid cover_url)
            (PyStr.lit "title") (VStr [])) with (Ok title).
  change (Py.get (musicbrainz_match artist title mbid cover_url)
            (PyStr.lit "cover_art_url") VNone) with (Ok cover_url).
  change (Py.getitem (musicbrainz_match artist title mbid cover_url)
            (PyStr.lit "cover_art_url")) with (Ok cover_url).
  change (Py.get (musicbrainz_match artist title mbid cover_url)
            (PyStr.lit "mbid") VNone) with (Ok mbid).
  change (Py.getitem (entry query ms) (PyStr.lit "query_text"))
    with (Ok (VStr query)).
  cbn [and_then str_of].
  change (equals_str (VStr (PyStr.lit "MusicBrainz"))
            (PyStr.lit "MusicBrainz")) with true.
  change (equals_str (VStr (PyStr.lit "MusicBrainz")) (PyStr.lit "Spotify"))
    with false.
  destruct (str_of L repr artist) as [a|e]; [|reflexivity].
  destruct (str_of L repr title) as [t|e]; [|reflexivity].
  cbn [and_then].
  destruct (Py.truthy cover_url).
  - destruct (str_of L repr cover_url) as [c|e]; [|reflexivity].
    cbn [and_then].
    destruct (str_of L repr mbid) as [i|e]; reflexivity.
  - cbn [and_then].
    destruct (str_of L repr mbid) as [i|e]; reflexivity.
Qed.

Lemma spotify_section query ms artist title spotify_id cover_url :
  match_section L repr (entry query ms)
    (spotify_match artist title spotify_id cover_url)
  = (artist_text <-- str_of L repr artist ;;
     title_text <-- str_of L repr title ;;
     cover_lines <-- cover_lines_of L repr cover_url ;;
     spotify_id_text <-- str_of L repr spotify_id ;;
     Ok (header_line (PyStr.lit "Spotify") artist_text title_text
         :: cover_lines
         ++ [spotify_id_line spotify_id_text; query_line query])).
Proof.
  unfold match_section, cover_lines_of.
  change (Py.getitem (spotify_match artist title spotify_id cover_url)
            (PyStr.lit "source")) with (Ok (VStr (PyStr.lit "Spotify"))).
  change (Py.get (spotify_match artist title spotify_id cover_url)
            (PyStr.lit "artist") (VStr [])) with (Ok artist).
  change (Py.get (spotify_match artist title spotify_id cover_url)
            (PyStr.lit "title") (VStr [])) with (Ok title).
  change (Py.get (spotify_match artist title spotify_id cover_url)
            (PyStr.lit "cover_art_url") VNone) with (Ok cover_url).
  change (Py.getitem (spotify_match artist title spotify_id cover_url)
            (PyStr.lit "cover_art_url")) with (Ok cover_url).
  change (Py.get (spotify_match artist title spotify_id cover_url)
            (PyStr.lit "spotify_id") VNone) with (Ok spotify_id).
  change (Py.getitem (entry query ms) (PyStr.lit "query_text"))
    with (Ok (VStr query)).
  cbn [and_then str_of].
  change (equals_str (VStr (PyStr.lit "Spotify")) (PyStr.lit "MusicBrainz"))
    with false.
  change (equals_str (VStr (PyStr.lit "Spotify")) (PyStr.lit "Spotify"))
    with true.
  destruct (str_of L repr artist) as [a|e]; [|reflexivity].
  destruct (str_of L repr title) as [t|e]; [|reflexivity].
  cbn [and_then].
  destruct (Py.truthy cover_url).
  - destruct (str_of L repr cover_url) as [c|e]; [|reflexivity].
    cbn [and_then].
    destruct (str_of L repr spotify_id) as [i|e]; reflexivity.
  - cbn [and_then].
    destruct (str_of L repr spotify_id) as [i|e]; reflexivity.
Qed.

(** The section of a record is written when its values can be, in three
    lines or four; it raises only what writing one of its values raises. *)
Lemma match_section_of_record query ms m :
  lookup_record m ->
  (formattable L repr m = true ->
   exists ls,
     match_section L repr (entry query ms) m = Ok ls
     /\ (3 * 1 <= List.length ls <= 4 * 1)%nat)
  /\ (forall e,
        match_section L repr (entry query ms) m = Raise e ->
        exists v, In v (values_of m) /\ str_of L repr v = Raise e).
Proof.
  intros (artist & title & id & cover_url & [-> | ->]).
  - rewrite musicbrainz_section. unfold cover_lines_of.
    unfold formattable, formats.
    cbn [values_of musicbrainz_match List.map snd forallb str_of].
    destruct (str_of L repr artist) as [a|e1] eqn:Ha.
    2: { split; [discriminate|]. cbn [and_then]. intros e [= <-].
         exists artist. split; [cbn; tauto | exact Ha]. }
    destruct (str_of L repr title) as [t|e2] eqn:Ht.
    2: { split; [discriminate|]. cbn [and_then]. intros e [= <-].
         exists title. split; [cbn; tauto | exact Ht]. }
    destruct (str_of L repr id) as [i|e3] eqn:Hi.
    + destruct (str_of L repr cover_url) as [c|e4] eqn:Hc.
      * cbn [and_then andb]. split.
        -- intros _. destruct (Py.truthy cover_url); cbn [and_then];
             eexists; (split; [reflexivity | cbn [List.length app]; lia]).
        -- intros e. destruct (Py.truthy cover_url); discriminate.
      * cbn [and_then andb]. split; [discriminate|].
        intros e. destruct (Py.truthy cover_url); cbn [and_then];
          [|discriminate].
        intros [= <-]. exists cover_url. split; [cbn; tauto | exact Hc].
    + cbn [and_then andb]. split; [discriminate|].
      intros e. destruct (Py.truthy cover_url); cbn [and_then].
      * destruct (str_of L repr cover_url) as [c|e4] eqn:Hc;
          cbn [and_then]; intros [= <-].
        -- exists id. split; [cbn; tauto | exact Hi].
        -- exists cover_url. split; [cbn; tauto | exact Hc].
      * intros [= <-]. exists id. split; [cbn; tauto | exact Hi].
  - rewrite spotify_section. unfold cover_lines_of.
    unfold formattable, formats.
    cbn [values_of spotify_match List.map snd forallb str_of].
    destruct (str_of L repr artist) as [a|e1] eqn:Ha.
    2: { split; [discriminate|]. cbn [and_then]. intros e [= <-].
         exists artist. split; [cbn; tauto | exact Ha]. }
    destruct (str_of L repr title) as [t|e2] eqn:Ht.
    2: { split; [discriminate|]. cbn [and_then]. intros e [= <-].
         exists title. split; [cbn; tauto | exact Ht]. }
    destruct (str_of L repr id) as [i|e3] eqn:Hi.
    + destruct (str_of L repr cover_url) as [c|e4] eqn:Hc.
      * cbn [and_then andb]. split.
        -- intros _. destruct (Py.truthy cover_url); cbn [and_then];
             eexists; (split; [reflexivity | cbn [List.length app]; lia]).
        -- intros e. destruct (Py.truthy cover_url); discriminate.
      * cbn [and_then andb]. split; [discriminate|].
        intros e. destruct (Py.truthy cover_url); cbn [and_then];
          [|discriminate].
        intros [= <-]. exists cover_url. split; [cbn; tauto | exact Hc].
    + cbn [and_then andb]. split; [discriminate|].
      intros e. destruct (Py.truthy cover_url); cbn [and_then].
      * destruct (str_of L repr cover_url) as [c|e4] eqn:Hc;
          cbn [and_then]; intros [= <-].
        -- exists id. split; [cbn; tauto | exact Hi].
        -- exists cover_url. split; [cbn; tauto | exact Hc].
      * intros [= <-]. exists id. split; [cbn; tauto | exact Hi].
Qed.

Lemma sections_weighted (A : Type) (lines_of : A -> outcome (list py_str))
    (weight : A -> nat) xs :
  Forall (fun x => exists ls,
            lines_of x = Ok ls
            /\ (3 * weight x <= List.length ls <= 4 * weight x)%nat) xs ->
  exists md,
    sections lines_of xs = Ok md
    /\ (3 * list_sum (List.map weight xs) <= List.length md
        <= 4 * list_sum (List.map weight xs))%nat.
Proof.
  induction 1 as [|x xs (ls & Hx & Hls) _ (md & Hmd & Hlen)].
  - exists []. cbn. split; [reflexivity | lia].
  - exists (ls ++ md). cbn [sections].
    rewrite Hx, Hmd. cbn [and_then]. split; [reflexivity|].
    change (list_sum (List.map weight (x :: xs)))
      with (weight x + list_sum (List.map weight xs))%nat.
    rewrite length_app. lia.
Qed.

(** What a sequence of sections raises, one of them raises. *)
Lemma sections_raise (A : Type) (lines_of : A -> outcome (list py_str))
    xs e :
  sections lines_of xs = Raise e ->
  exists x, In x xs /\ lines_of x = Raise e.
Proof.
  induction xs as [|x xs IH]; cbn [sections]; [discriminate|].
  destruct (lines_of x) as [ls|e'] eqn:Hx; cbn [and_then].
  - destruct (sections lines_of xs) as [md|e'']; cbn [and_then];
      [discriminate|].
    intros [= <-]. destruct (IH eq_refl) as (y & Hin & Hy).
    exists y. split; [now right | exact Hy].
  - intros [= <-]. exists x. split; [now left | exact Hx].
Qed.

Lemma answers_records (World : Type) (S : services World) spotify_client
    query e :
  answers S spotify_client query e -> Forall lookup_record (matches_of e).
Proof.
  intros [w art_reply part _ Hpart]. rewrite entry_matches.
  apply Forall_app. split; apply Forall_forall; intros m Hm.
  - apply musicbrainz_record_found in Hm
      as (artist & title & mbid & art_json & cover_url & -> & _).
    exists artist, title, mbid, cover_url. now left.
  - destruct spotify_client as [client|]; cbn in Hpart.
    + destruct Hpart as [w' ->].
      apply spotify_record_found in Hm
        as (alb & artist & title & spotify_id & cover_url & -> & _).
      exists artist, title, spotify_id, cover_url. now right.
    + subst part. destruct Hm.
Qed.

Lemma list_sum_ones (A : Type) (xs : list A) :
  list_sum (List.map (fun _ => 1%nat) xs) = List.length xs.
Proof.
  induction xs as [|x xs IH]; [reflexivity|].
  cbn [List.length]. rewrite <- IH. reflexivity.
Qed.

Lemma entry_sections_of_answer (World : Type) (S : services World)
    spotify_client query e :
  answers S spotify_client query e ->
  (Forall (fun m => formattable L repr m = true) (matches_of e) ->
   exists ls,
     entry_sections L repr e = Ok ls
     /\ (3 * List.length (matches_of e) <= List.length ls
         <= 4 * List.length (matches_of e))%nat)
  /\ (forall x,
        entry_sections L repr e = Raise x ->
        exists m v,
          In m (matches_of e) /\ In v (values_of m)
          /\ str_of L repr v = Raise x).
Proof.
  intros Hans. pose proof (answers_records Hans) as Hrec.
  destruct (answers_entry Hans) as [ms ->].
  rewrite entry_matches in *. unfold entry_sections.
  change (Py.getitem (entry query ms) (PyStr.lit "matches"))
    with (Ok (VList ms)).
  cbn [and_then iterate]. split.
  - intros Hfmt. rewrite <- (list_sum_ones ms).
    apply sections_weighted.
    rewrite Forall_forall in *. intros m Hm.
    apply (match_section_of_record query ms (Hrec m Hm)). auto.
  - intros x Hraise. apply sections_raise in Hraise as (m & Hm & Hsec).
    rewrite Forall_forall in Hrec.
    apply (match_section_of_record query ms (Hrec m Hm)) in Hsec
      as (v & Hv & Hstr).
    eauto.
Qed.

Lemma list_sum_lengths (A B : Type) (f : A -> list B) xs :
  list_sum (List.map (fun x => List.length (f x)) xs)
  = List.length (flat_map f xs).
Proof.
  induction xs as [|x xs IH]; [reflexivity|].
  cbn [flat_map]. rewrite length_app, <- IH. reflexivity.
Qed.

(** The Markdown of the entries of a run. *)
Lemma markdown_lines_of_answers (World : Type) (S : services World)
    spotify_client lines entries :
  Forall2 (answers S spotify_client) lines entries ->
  (Forall (fun m => formattable L repr m = true)
     (flat_map matches_of entries) ->
   exists md,
     markdown_lines L repr entries = Ok md
     /\ (3 * List.length (flat_map matches_of entries) <= List.length md
         <= 4 * List.length (flat_map matches_of entries))%nat)
  /\ (forall x,
        markdown_lines L repr entries = Raise x ->
        exists m v,
          In m (flat_map matches_of entries) /\ In v (values_of m)
          /\ str_of L repr v = Raise x).
Proof.
  intros Hall.
  assert (Hentries : Forall (fun e => exists query,
                               answers S spotify_client query e) entries).
  { clear -Hall. induction Hall; constructor; eauto. }
  clear Hall. unfold markdown_lines. split.
  - intros Hfmt. rewrite <- list_sum_lengths.
    apply sections_weighted.
    rewrite Forall_forall in *. intros e He.
    destruct (Hentries e He) as [query Hans].
    apply (entry_sections_of_answer Hans).
    apply Forall_forall. intros m Hm. apply Hfmt.
    apply in_flat_map. eauto.
  - intros x Hraise. apply sections_raise in Hraise as (e & He & Hsec).
    rewrite Forall_forall in Hentries.
    destruct (Hentries e He) as [query Hans].
    apply (entry_sections_of_answer Hans) in Hsec as (m & v & Hm & Hv & Hstr).
    exists m, v. split; [|now split].
    apply in_flat_map. eauto.
Qed.

End MarkdownFacts.

(** X8.  Rendering the results of [lookup_metadata] as Markdown reads no
    key the lookup did not write: the loops raise only what writing a
    value of a match in an f-string raises (an [int] with more digits
    than the interpreter converts, a list or dict whose [repr] raises).
    When the values of every match can be written there are at least three
    and at most four lines for each match, and so none when no query has a
    match. *)
Theorem markdown_of_results (L : limits) (repr : value -> outcome py_str)
    (World : Type) (S : services World) (lines : list py_str)
    (spotify_client : option (spotify World)) (h : heap World) :
  exists entries,
    fst (lookup_metadata S lines spotify_client h) = Ok entries
    /\ (Forall (fun m => formattable L repr m = true)
          (flat_map matches_of entries) ->
        exists md,
          markdown_lines L repr entries = Ok md
          /\ (3 * List.length (flat_map matches_of entries)
              <= List.length md
              <= 4 * List.length (flat_map matches_of entries))%nat)
    /\ (forall e,
          markdown_lines L repr entries = Raise e ->
          exists m v,
            In m (flat_map matches_of entries) /\ In v (values_of m)
            /\ str_of L repr v = Raise e).
Proof.
  destruct (lookup_metadata_run S lines spotify_client h)
    as (entries & h' & -> & Hall & _).
  exists entries. split; [reflexivity|].
  exact (markdown_lines_of_answers L repr Hall).
Qed.

Lemma markdown_of_results_witness :
  exists entries md,
    fst (lookup_metadata Studio.shop [Sample.abbey_road; Sample.garbled]
           (Some Sample.spotify_catalogue) Sample.start) = Ok entries
    /\ markdown_lines Studio.python Studio.no_repr entries = Ok md
    /\ (3 * 2 <= List.length md <= 4 * 2)%nat.
Proof.
  destruct (@markdown_of_results Studio.python Studio.no_repr nat Studio.shop
              [Sample.abbey_road; Sample.garbled]
              (Some Sample.spotify_catalogue) Sample.start)
    as (entries & Hrun & Hlines & _).
  vm_compute in Hrun. injection Hrun as <-.
  destruct Hlines as (md & Hmd & Hlen); [repeat constructor|].
  match type of Hmd with
  | markdown_lines _ _ ?found = _ => exists found, md
  end.
  split; [reflexivity|]. split; [exact Hmd | exact Hlen].
Defined.

(** X9.  The section of a match shows what the lookup stored, each value
    as an f-string writes it: a header with source, artist and title, a
    cover line when there is cover art, the identifier line of the source,
    and the query.  The defaults of the [get] calls are never used for
    such a match: a title or an identifier the provider did not give is
    written [None].  The values are written in this order, and the first
    that cannot be written ends the section with its exception: an
    identifier that is an [int] with too many digits raises a
    [ValueError]. *)
Theorem match_sections_show_fields (L : limits)
    (repr : value -> outcome py_str)
    (query : py_str) (ms : list value) (artist title id cover_url : value) :
  match_section L repr (entry query ms)
    (musicbrainz_match artist title id cover_url)
  = (artist_text <-- str_of L repr artist ;;
     title_text <-- str_of L repr title ;;
     cover_lines <--
       (if Py.truthy cover_url then
          url_text <-- str_of L repr cover_url ;;
          Ok [PyStr.lit "![Cover Art](" ++ url_text ++ PyStr.lit ")"]
        else Ok []) ;;
     mbid_text <-- str_of L repr id ;;
     Ok ((PyStr.lit "### [MusicBrainz] " ++ artist_text
          ++ PyStr.lit " - " ++ title_text)
         :: cover_lines
         ++ [PyStr.lit "- **MBID:** " ++ mbid_text ++ PyStr.lit "  ";
             PyStr.lit "- **Query:** " ++ query ++ PyStr.lit "  " ++ [10]]))
  /\ match_section L repr (entry query ms)
       (spotify_match artist title id cover_url)
     = (artist_text <-- str_of L repr artist ;;
        title_text <-- str_of L repr title ;;
        cover_lines <--
          (if Py.truthy cover_url then
             url_text <-- str_of L repr cover_url ;;
             Ok [PyStr.lit "![Cover Art](" ++ url_text ++ PyStr.lit ")"]
           else Ok []) ;;
        spotify_id_text <-- str_of L repr id ;;
        Ok ((PyStr.lit "### [Spotify] " ++ artist_text
             ++ PyStr.lit " - " ++ title_text)
            :: cover_lines
            ++ [PyStr.lit "- **Spotify ID:** " ++ spotify_id_text
                ++ PyStr.lit "  " ++ [10];
                PyStr.lit "- **Query:** " ++ query ++ PyStr.lit "  "
                ++ [10]]))
  /\ (forall artist_text,
        str_of L repr artist = Ok artist_text ->
        match_section L repr (entry query ms)
          (musicbrainz_match artist VNone VNone VNone)
        = Ok [PyStr.lit "### [MusicBrainz] " ++ artist_text
              ++ PyStr.lit " - None";
              PyStr.lit "- **MBID:** None  ";
              PyStr.lit "- **Query:** " ++ query ++ PyStr.lit "  " ++ [10]])
  /\ (forall artist_text title_text z,
        str_of L repr artist = Ok artist_text ->
        str_of L repr title = Ok title_text ->
        Json.short_enough L z = false ->
        match_section L repr (entry query ms)
          (spotify_match artist title (VInt z) VNone)
        = Raise value_error).
Proof.
  split; [|split; [|split]].
  - rewrite musicbrainz_section. reflexivity.
  - rewrite spotify_section. reflexivity.
  - intros artist_text Hartist.
    rewrite musicbrainz_section, Hartist. reflexivity.
  - intros artist_text title_text z Hartist Htitle Hlong.
    rewrite spotify_section, Hartist, Htitle.
    cbn [and_then cover_lines_of Py.truthy str_of]. unfold Json.int_repr.
    now rewrite Hlong.
Qed.

Lemma match_sections_show_fields_witness :
  match_section Studio.strict Studio.no_repr (entry Sample.abbey_road [])
    (spotify_match (VStr (PyStr.lit "The Beatles")) (VStr Sample.abbey_road)
       (VInt (10 ^ 640)) VNone)
  = Raise value_error.
Proof.
  apply (proj2 (proj2 (proj2
           (@match_sections_show_fields Studio.strict Studio.no_repr
              Sample.abbey_road [] (VStr (PyStr.lit "The Beatles"))
              (VStr Sample.abbey_road) VNone VNone)))
           (PyStr.lit "The Beatles") Sample.abbey_road (10 ^ 640)%Z);
    [reflexivity | reflexivity | vm_compute; reflexivity].
Defined.

(** ** A run of [main] *)

Lemma extract_text_run_text (Image : Type)
    (pytesseract_image_to_string : Image -> outcome py_str)
    (image_file : Image) (openai_client : option (Image -> outcome py_str))
    (text : py_str) :
  match openai_client with
  | Some chat => chat image_file
  | None => pytesseract_image_to_string image_file
  end = Ok text ->
  extract_text_run pytesseract_image_to_string image_file openai_client
  = Ok (text_lines text).
Proof. unfold extract_text_run. now intros ->. Qed.

Lemma cover_art_request_not_spotify search_reply :
  filter is_spotify_call (cover_art_request search_reply) = [].
Proof.
  unfold cover_art_request.
  destruct (and_then search_reply _) as [[mbid|]|e]; reflexivity.
Qed.

Lemma spotify_calls_of_lookup (World : Type) (S : services World)
    spotify_client lines h :
  filter is_spotify_call (calls (snd (lookup_metadata S lines spotify_client h)))
  = filter is_spotify_call (calls h)
    ++ (if configured spotify_client then List.map SpotifySearch lines
        else []).
Proof.
  destruct (for_queries_calls S spotify_client lines [] h)
    as (traces & Hcalls & Hall).
  unfold lookup_metadata. rewrite Hcalls, filter_app. f_equal.
  clear Hcalls.
  induction Hall as [|query trace lines traces [w ->] _ IH].
  - now destruct (configured spotify_client).
  - cbn [List.concat]. rewrite filter_app, IH. unfold calls_for.
    cbn [filter is_spotify_call]. rewrite filter_app.
    rewrite cover_art_request_not_spotify.
    now destruct (configured spotify_client).
Qed.

(** A run of [main] that gets to the lookup: what it shows, and how it
    ends, by what the Markdown loops and the serialisation do. *)
Lemma main_lookup (File Picture World : Type) (S : services World)
    (L : limits) (repr : value -> outcome py_str)
    (P : platform File Picture World)
    (input : page File) (h : heap World) image_file image lines :
  missing_package P = None ->
  uploaded input = Some image_file ->
  Image_open P image_file = Ok image ->
  extract_text_run (image_to_string P) image_file (openai_client_of P input)
  = Ok lines ->
  exists results tail,
    lookup_metadata S lines (spotify_client_of P input) h
    = (Ok results, state (main S L repr P input h))
    /\ Forall2 (answers S (spotify_client_of P input)) lines results
    /\ display (main S L repr P input h)
       = page_top
         ++ [StImage image;
             StWrite (PyStr.lit "Extracting text...");
             Subheader (PyStr.lit "Extracted Text");
             StWrite (join_lines lines);
             StWrite (PyStr.lit "Looking up metadata...");
             Subheader (PyStr.lit "Metadata (JSON)");
             StJson results;
             Subheader (PyStr.lit "Metadata (Markdown)")]
         ++ tail
    /\ match markdown_lines L repr results with
       | Raise e => finish (main S L repr P input h) = Raise e /\ tail = []
       | Ok md =>
           match json_data L results with
           | Raise e =>
               finish (main S L repr P input h) = Raise e
               /\ tail = [StMarkdown (join_lines md)]
           | Ok data =>
               finish (main S L repr P input h) = Ok tt
               /\ tail = [StMarkdown (join_lines md);
                          DownloadButton (PyStr.lit "Download JSON") data
                            (PyStr.lit "cd_metadata.json")
                            (PyStr.lit "application/json")]
           end
       end.
Proof.
  intros Hmissing Hup Hopen Hocr.
  unfold main. rewrite Hmissing, Hup, Hopen, Hocr.
  destruct (lookup_metadata_run S lines (spotify_client_of P input) h)
    as (results & h' & Hrun & Hall & _).
  rewrite Hrun. unfold markdown_text. exists results.
  destruct (markdown_lines L repr results) as [md|e]; cbn [and_then].
  - destruct (json_data L results) as [data|e]; cbn [display finish state];
      eexists; (split; [reflexivity|]); (split; [exact Hall|]);
      (split; [|split; reflexivity]);
      rewrite <- !app_assoc; reflexivity.
  - cbn [display finish state].
    exists []. split; [reflexivity|]. split; [exact Hall|].
    split; [|split; reflexivity].
    rewrite <- !app_assoc. reflexivity.
Qed.

(** The state [main] leaves is the one it started from, or the one the
    lookup left. *)
Lemma main_state (File Picture World : Type) (S : services World)
    (L : limits) (repr : value -> outcome py_str)
    (P : platform File Picture World)
    (input : page File) (h : heap World) :
  state (main S L repr P input h) = h
  \/ exists lines,
       state (main S L repr P input h)
       = snd (lookup_metadata S lines (spotify_client_of P input) h).
Proof.
  unfold main.
  destruct (missing_package P); [now left|].
  destruct (uploaded input) as [image_file|]; [|now left].
  destruct (Image_open P image_file); [|now left].
  destruct (extract_text_run _ _ _) as [lines|]; [|now left].
  right. exists lines.
  destruct (lookup_metadata S lines (spotify_client_of P input) h)
    as [[results|e] h']; [|reflexivity].
  destruct (markdown_text L repr results); [|reflexivity].
  destruct (json_data L results); reflexivity.
Qed.

(** ** Text stays text *)

Lemma pair_free_app a b :
  pair_free (a ++ b) = true -> pair_free a = true /\ pair_free b = true.
Proof.
  induction a as [|c a IH]; cbn [app]; [now split|].
  intros H. cbn [pair_free] in H. apply andb_true_iff in H as [Hc Ha].
  destruct (IH Ha) as [IHa IHb]. split; [|exact IHb].
  cbn [pair_free]. rewrite IHa, andb_true_r.
  destruct a as [|c' a]; [reflexivity | exact Hc].
Qed.

Lemma is_text_app a b :
  is_text (a ++ b) = true -> is_text a = true /\ is_text b = true.
Proof.
  unfold is_text. rewrite forallb_app, !andb_true_iff.
  intros [[Ha Hb] Hp]. apply pair_free_app in Hp as [Hpa Hpb]. auto.
Qed.

Lemma cut_is_text text lines :
  cut_at_boundaries text lines ->
  is_text text = true -> Forall (fun line => is_text line = true) lines.
Proof.
  induction 1 as [|line Hne Hline|line b rest lines Hline Hb _ IH];
    intros Htext.
  - constructor.
  - now repeat constructor.
  - apply is_text_app in Htext as [Hl Hrest].
    apply is_text_app in Hrest as [_ Hrest].
    constructor; auto.
Qed.

Lemma strip_is_text line :
  is_text line = true -> is_text (PyStr.strip line) = true.
Proof.
  intros Hline.
  destruct (strip_trim line) as [_ (before & after & E & _)].
  rewrite E in Hline.
  apply is_text_app in Hline as [_ Hline].
  now apply is_text_app in Hline as [Hline _].
Qed.

Lemma text_lines_is_text text :
  is_text text = true ->
  Forall (fun query => is_text query = true) (text_lines text).
Proof.
  intros Htext. unfold text_lines.
  pose proof (cut_is_text (splitlines_cut text) Htext) as Hlines.
  induction Hlines as [|line lines Hline _ IH]; cbn [stripped_lines];
    [constructor|].
  destruct (PyStr.truthy (PyStr.strip line)); [|exact IH].
  constructor; [now apply strip_is_text | exact IH].
Qed.

(** X10.  Without the packages, without an upload, with a file that does
    not open as an image or an OCR engine that raises, [main] asks the
    providers nothing and shows no result: the state of the services and
    the record of the calls are as they were, whatever credentials were
    typed. *)
Theorem main_stops_before_lookup (File Picture World : Type)
    (S : services World) (L : limits) (repr : value -> outcome py_str)
    (P : platform File Picture World) (input : page File) (h : heap World) :
  (missing_package P <> None
   \/ uploaded input = None
   \/ exists image_file e,
        uploaded input = Some image_file
        /\ (Image_open P image_file = Raise e
            \/ ocr_text P input image_file = Raise e)) ->
  let r := main S L repr P input h in
  state r = h
  /\ Forall (fun s => shows_results s = false) (display r)
  /\ (uploaded input = None -> finish r = Ok tt).
Proof.
  intros Hstop. cbn zeta. unfold main.
  destruct (missing_package P) as [name|] eqn:Hmissing.
  { repeat split. repeat constructor. }
  destruct (uploaded input) as [image_file|] eqn:Hup.
  2: { repeat split. repeat constructor. }
  destruct Hstop as [Hstop|[Hstop|(file & e & [= <-] & Hstop)]];
    [now destruct Hstop | discriminate |].
  destruct (Image_open P image_file) as [image|e'] eqn:Hopen.
  2: { split; [reflexivity|]. split; [repeat constructor | discriminate]. }
  destruct Hstop as [Hstop|Hstop]; [discriminate|].
  unfold ocr_text in Hstop. unfold extract_text_run.
  rewrite Hstop. cbn [and_then].
  split; [reflexivity|]. split; [repeat constructor | discriminate].
Qed.

Lemma main_stops_before_lookup_witness :
  let r := main Studio.shop Studio.python Studio.no_repr Studio.desk
             Studio.blank_page Sample.start in
  state r = Sample.start
  /\ Forall (fun s => shows_results s = false) (display r)
  /\ (uploaded Studio.blank_page = None -> finish r = Ok tt).
Proof.
  apply (@main_stops_before_lookup unit unit nat Studio.shop Studio.python
           Studio.no_repr Studio.desk Studio.blank_page Sample.start).
  right. left. reflexivity.
Defined.

(** X11.  Once the file is open and the OCR engine has handed back a
    text, [main] looks up the lines of this text, and with results whose
    values an f-string can write and that [json.dumps] gets through, it
    runs to its end without raising: it shows the lines, then the entries
    of [lookup_metadata] for these lines, one for each line with the line
    as its [query_text], then their Markdown, and offers their JSON text as
    the download.  (The calls into Streamlit are taken to return.) *)
Theorem main_shows_what_it_found (File Picture World : Type)
    (S : services World) (L : limits) (repr : value -> outcome py_str)
    (P : platform File Picture World) (input : page File) (h : heap World)
    (image_file : File) (image : Picture) (text : py_str)
    (results : list value) :
  missing_package P = None ->
  uploaded input = Some image_file ->
  Image_open P image_file = Ok image ->
  ocr_text P input image_file = Ok text ->
  fst (lookup_metadata S (text_lines text) (spotify_client_of P input) h)
  = Ok results ->
  Forall (fun m => formattable L repr m = true)
    (flat_map matches_of results) ->
  Json.fits L (max_depth L) (VList results) = true ->
  let r := main S L repr P input h in
  exists md,
    finish r = Ok tt
    /\ state r
       = snd (lookup_metadata S (text_lines text) (spotify_client_of P input)
                h)
    /\ Forall2 (fun line e =>
                  Py.getitem e (PyStr.lit "query_text") = Ok (VStr line))
         (text_lines text) results
    /\ markdown_lines L repr results = Ok md
    /\ display r
       = page_top
         ++ [StImage image;
             StWrite (PyStr.lit "Extracting text...");
             Subheader (PyStr.lit "Extracted Text");
             StWrite (join_lines (text_lines text));
             StWrite (PyStr.lit "Looking up metadata...");
             Subheader (PyStr.lit "Metadata (JSON)");
             StJson results;
             Subheader (PyStr.lit "Metadata (Markdown)");
             StMarkdown (join_lines md);
             DownloadButton (PyStr.lit "Download JSON")
               (Json.written 0 (VList results))
               (PyStr.lit "cd_metadata.json")
               (PyStr.lit "application/json")].
Proof.
  intros Hmissing Hup Hopen Hocr Hresults Hfmt Hfits. cbn zeta.
  apply extract_text_run_text in Hocr.
  destruct (main_lookup S L repr P input h Hmissing Hup Hopen Hocr)
    as (results' & tail & Hrun & Hall & Hdisplay & Hend).
  rewrite Hrun in Hresults. cbn [fst] in Hresults.
  injection Hresults as ->.
  destruct (proj1 (markdown_lines_of_answers L repr Hall) Hfmt)
    as (md & Hmd & _).
  rewrite Hmd, (json_data_fits L results Hfits) in Hend.
  destruct Hend as [Hfinish ->].
  exists md. split; [exact Hfinish|].
  split; [now rewrite Hrun|]. split; [|split; [exact Hmd | exact Hdisplay]].
  eapply Forall2_impl; [|exact Hall].
  intros line e He. destruct (answers_entry He) as [ms ->].
  apply entry_query_text.
Qed.

Lemma main_shows_what_it_found_witness :
  finish (main Studio.shop Studio.python Studio.no_repr Studio.desk
            Studio.filled_page Sample.start) = Ok tt.
Proof.
  destruct (@main_shows_what_it_found unit unit nat Studio.shop Studio.python
              Studio.no_repr Studio.desk Studio.filled_page Sample.start
              tt tt Studio.scan
              [entry Sample.abbey_road
                 [musicbrainz_match (VStr (PyStr.lit "The Beatles"))
                    (VStr Sample.abbey_road) (VStr (PyStr.lit "mbid-1"))
                    (VStr (PyStr.lit "http://covers/1.jpg"));
                  spotify_match (VStr (PyStr.lit "The Beatles"))
                    (VStr Sample.abbey_road)
                    (VStr (PyStr.lit "0ETFjACtuP2ADo6LFhL6HN")) VNone];
               entry Sample.garbled []])
    as (md & Hfinish & _);
    [ reflexivity | reflexivity | reflexivity | reflexivity | reflexivity
    | repeat constructor | reflexivity | exact Hfinish ].
Defined.

(** X12.  Spotify is searched only when both of its credentials were
    typed.  With one of them empty, a run of [main] adds no Spotify search
    to the calls made, however far it gets; with both, a run that gets to
    the lookup searches Spotify once for each line of the text, in the
    order of the lines. *)
Theorem spotify_searched_with_both_credentials (File Picture World : Type)
    (S : services World) (L : limits) (repr : value -> outcome py_str)
    (P : platform File Picture World) (input : page File) (h : heap World) :
  let r := main S L repr P input h in
  (spotify_client_id input = [] \/ spotify_client_secret input = [] ->
   filter is_spotify_call (calls (state r))
   = filter is_spotify_call (calls h))
  /\ (forall image_file image text,
        spotify_client_id input <> [] ->
        spotify_client_secret input <> [] ->
        missing_package P = None ->
        uploaded input = Some image_file ->
        Image_open P image_file = Ok image ->
        ocr_text P input image_file = Ok text ->
        filter is_spotify_call (calls (state r))
        = filter is_spotify_call (calls h)
          ++ List.map SpotifySearch (text_lines text)).
Proof.
  cbn zeta. split.
  - intros Hempty.
    assert (Hnone : spotify_client_of P input = None).
    { unfold spotify_client_of.
      destruct Hempty as [-> | ->]; [reflexivity|].
      now rewrite andb_false_r. }
    destruct (main_state S L repr P input h) as [-> | [lines ->]];
      [reflexivity|].
    rewrite spotify_calls_of_lookup, Hnone. apply app_nil_r.
  - intros image_file image text Hid Hsecret Hmissing Hup Hopen Hocr.
    apply extract_text_run_text in Hocr.
    destruct (main_lookup S L repr P input h Hmissing Hup Hopen Hocr)
      as (results & tail & Hrun & _).
    apply (f_equal snd) in Hrun. cbn [snd] in Hrun.
    rewrite <- Hrun, spotify_calls_of_lookup.
    unfold spotify_client_of.
    apply truthy_nonempty in Hid, Hsecret. rewrite Hid, Hsecret.
    reflexivity.
Qed.

Lemma spotify_searched_with_both_credentials_witness :
  filter is_spotify_call
    (calls (state (main Studio.shop Studio.python Studio.no_repr Studio.desk
                     Studio.half_filled_page Sample.start)))
  = filter is_spotify_call (calls Sample.start)
  /\ filter is_spotify_call
       (calls (state (main Studio.shop Studio.python Studio.no_repr
                        Studio.desk Studio.filled_page Sample.start)))
     = filter is_spotify_call (calls Sample.start)
       ++ List.map SpotifySearch (text_lines Studio.scan).
Proof.
  split.
  - apply (proj1 (@spotify_searched_with_both_credentials unit unit nat
                    Studio.shop Studio.python Studio.no_repr Studio.desk
                    Studio.half_filled_page Sample.start)).
    right. reflexivity.
  - apply (proj2 (@spotify_searched_with_both_credentials unit unit nat
                    Studio.shop Studio.python Studio.no_repr Studio.desk
                    Studio.filled_page Sample.start) tt tt Studio.scan);
      (reflexivity || discriminate).
Defined.

(** What [main] hands to [st.json] is the result list of its lookup, and
    the data of its download button is the JSON text of that list. *)
Lemma main_shows_results (File Picture World : Type) (S : services World)
    (L : limits) (repr : value -> outcome py_str)
    (P : platform File Picture World) (input : page File) (h : heap World)
    image_file text results :
  uploaded input = Some image_file ->
  ocr_text P input image_file = Ok text ->
  In (StJson results) (display (main S L repr P input h)) ->
  Forall2 (answers S (spotify_client_of P input)) (text_lines text) results
  /\ forall label data file_name mime,
       In (DownloadButton label data file_name mime)
         (display (main S L repr P input h)) ->
       Json.dumps L (VList results) = Ok data.
Proof.
  intros Hup Hocr Hjson.
  destruct (missing_package P) as [name|] eqn:Hmissing.
  { unfold main in Hjson. rewrite Hmissing in Hjson.
    destruct Hjson as [Hjson|[]]. discriminate Hjson. }
  destruct (Image_open P image_file) as [image|e] eqn:Hopen.
  2: { unfold main in Hjson. rewrite Hmissing, Hup, Hopen in Hjson.
       cbn in Hjson. repeat destruct Hjson as [Hjson|Hjson];
         try discriminate Hjson. destruct Hjson. }
  apply extract_text_run_text in Hocr.
  destruct (main_lookup S L repr P input h Hmissing Hup Hopen Hocr)
    as (results' & tail & Hrun & Hall & Hdisplay & Hend).
  assert (Htail : forall s, In s tail -> shows_results s = true
                  /\ forall r, s <> StJson r).
  { intros s Hs.
    destruct (markdown_lines L repr results') as [md|e].
    - destruct (json_data L results') as [data|e]; destruct Hend as [_ ->];
        cbn in Hs; repeat destruct Hs as [<-|Hs]; try destruct Hs;
        split; try reflexivity; discriminate.
    - destruct Hend as [_ ->]. destruct Hs. }
  rewrite Hdisplay in Hjson.
  assert (E : results = results').
  { apply in_app_or in Hjson as [Hjson|Hjson].
    - cbn in Hjson. repeat destruct Hjson as [Hjson|Hjson];
        try discriminate Hjson. destruct Hjson.
    - apply in_app_or in Hjson as [Hjson|Hjson].
      + cbn in Hjson. repeat destruct Hjson as [Hjson|Hjson];
          try discriminate Hjson; try (now injection Hjson).
        destruct Hjson.
      + apply Htail in Hjson as [_ Hjson]. now destruct (Hjson results). }
  subst results'. split; [exact Hall|].
  intros label data file_name mime Hbutton. rewrite Hdisplay in Hbutton.
  apply in_app_or in Hbutton as [Hbutton|Hbutton].
  { cbn in Hbutton. repeat destruct Hbutton as [Hbutton|Hbutton];
      try discriminate Hbutton. destruct Hbutton. }
  apply in_app_or in Hbutton as [Hbutton|Hbutton].
  { cbn in Hbutton. repeat destruct Hbutton as [Hbutton|Hbutton];
      try discriminate Hbutton. destruct Hbutton. }
  destruct (markdown_lines L repr results) as [md|e].
  - unfold json_data in Hend.
    destruct (Json.dumps L (VList results)) as [written|e] eqn:Hdumps;
      cbn [and_then] in Hend.
    + destruct (json_data_written L results Hdumps) as [Hdata _].
      unfold json_data in Hdata. rewrite Hdumps in Hdata.
      cbn [and_then] in Hdata. rewrite Hdata in Hend.
      destruct Hend as [_ ->].
      cbn in Hbutton. destruct Hbutton as [Hbutton|[Hbutton|[]]];
        [discriminate Hbutton|].
      now injection Hbutton as _ <- _ _.
    + destruct Hend as [_ ->].
      cbn in Hbutton. destruct Hbutton as [Hbutton|[]]. discriminate Hbutton.
  - destruct Hend as [_ ->]. destruct Hbutton.
Qed.

(** X13.  The download holds what the page shows.  When the text of the
    OCR engine and the replies of the providers are well-formed, the data a
    run of [main] offers for download, read as JSON (its bytes are the
    characters of an ASCII text) by an interpreter that takes the integers
    and the nesting of the results, is the result list the run handed to
    [st.json]. *)
Theorem download_reads_back_as_shown (File Picture World : Type)
    (S : services World) (L reader : limits)
    (repr : value -> outcome py_str)
    (P : platform File Picture World) (input : page File) (h : heap World)
    (image_file : File) (text : py_str) (results : list value)
    (label file_name mime : py_str) (data : list N) :
  uploaded input = Some image_file ->
  ocr_text P input image_file = Ok text ->
  is_text text = true ->
  replies_well_formed (search_releases S) ->
  replies_well_formed (cover_art_json S) ->
  (forall client_id client_secret,
      replies_well_formed (Spotify P client_id client_secret)) ->
  In (StJson results) (display (main S L repr P input h)) ->
  In (DownloadButton label data file_name mime)
    (display (main S L repr P input h)) ->
  Json.fits reader (max_depth reader) (VList results) = true ->
  ascii_text data /\ Json.loads reader data = Some (VList results).
Proof.
  intros Hup Hocr Htext Hmb Hart Hsp Hjson Hbutton Hfits.
  destruct (@main_shows_results _ _ _ S L repr P input h image_file text
              results Hup Hocr Hjson) as [Hall Hdata].
  specialize (Hdata _ _ _ _ Hbutton).
  split.
  - apply JsonFacts.encode_ok in Hdata as [_ ->].
    apply JsonFacts.written_ascii.
  - eapply JsonFacts.loads_dumps; [|exact Hdata | exact Hfits].
    constructor.
    pose proof (text_lines_is_text text Htext) as Hlines.
    clear -Hlines Hmb Hart Hsp Hall.
    induction Hall as [|query e lines entries He _ IH]; [constructor|].
    apply Forall_cons_iff in Hlines as [Hq Hlines].
    constructor; [|auto].
    eapply answers_well_formed; try eassumption.
    intros client Hclient. unfold spotify_client_of in Hclient.
    destruct (_ && _); [|discriminate].
    injection Hclient as <-. apply Hsp.
Qed.

Lemma download_reads_back_as_shown_witness :
  let results :=
    [entry Sample.abbey_road
       [musicbrainz_match (VStr (PyStr.lit "The Beatles"))
          (VStr Sample.abbey_road) (VStr (PyStr.lit "mbid-1"))
          (VStr (PyStr.lit "http://covers/1.jpg"));
        spotify_match (VStr (PyStr.lit "The Beatles"))
          (VStr Sample.abbey_road)
          (VStr (PyStr.lit "0ETFjACtuP2ADo6LFhL6HN")) VNone];
     entry Sample.garbled []] in
  Json.loads Studio.strict (Json.written 0 (VList results))
  = Some (VList results).
Proof.
  intros results.
  apply (@download_reads_back_as_shown unit unit nat Studio.shop
           Studio.python Studio.strict Studio.no_repr Studio.desk
           Studio.filled_page Sample.start tt Studio.scan results
           (PyStr.lit "Download JSON") (PyStr.lit "cd_metadata.json")
           (PyStr.lit "application/json")
           (Json.written 0 (VList results))); try reflexivity.
  - intros query w v. unfold Studio.shop.
    cbn [Sample.catalogue search_releases].
    unfold Sample.counted, Sample.search_reply. cbn [fst].
    destruct (PyStr.eqb query Sample.abbey_road); intros [= <-];
      apply check_sound; reflexivity.
  - intros mbid w v [= <-]. apply check_sound. reflexivity.
  - intros client_id client_secret query w v.
    cbn [Spotify Studio.desk].
    unfold Sample.spotify_catalogue, Sample.counted, Sample.album_reply.
    cbn [fst].
    destruct (PyStr.eqb query Sample.abbey_road); intros [= <-];
      apply check_sound; reflexivity.
  - vm_compute. do 14 right. left. reflexivity.
  - vm_compute. do 17 right. left. reflexivity.
Defined.

(** X14.  The key decides the OCR engine, and the other engine has no part
    in the run: without an OpenAI key nothing depends on the hosted engine,
    with a key nothing depends on pytesseract. *)
Theorem ocr_engine_follows_key (File Picture World : Type)
    (S : services World) (L : limits) (repr : value -> outcome py_str)
    (missing : option py_str) (open : File -> outcome Picture)
    (local local' : File -> outcome py_str)
    (hosted hosted' : py_str -> File -> outcome py_str)
    (make_spotify : py_str -> py_str -> spotify World)
    (input : page File) (h : heap World) :
  let platform_of local hosted :=
    {| missing_package := missing; Image_open := open;
       image_to_string := local; chat_completion := hosted;
       Spotify := make_spotify |} in
  (openai_key input = [] ->
   main S L repr (platform_of local hosted) input h
   = main S L repr (platform_of local hosted') input h)
  /\ (openai_key input <> [] ->
      main S L repr (platform_of local hosted) input h
      = main S L repr (platform_of local' hosted) input h).
Proof.
  cbn zeta. split; intros Hkey.
  - unfold main, openai_client_of, spotify_client_of.
    cbn [missing_package Image_open image_to_string chat_completion Spotify].
    rewrite Hkey. reflexivity.
  - unfold main, openai_client_of, spotify_client_of, extract_text_run.
    cbn [missing_package Image_open image_to_string chat_completion Spotify].
    apply truthy_nonempty in Hkey. rewrite Hkey. reflexivity.
Qed.

Lemma ocr_engine_follows_key_witness :
  main Studio.shop Studio.python Studio.no_repr
    {| missing_package := None; Image_open := fun _ : unit => Ok tt;
       image_to_string := fun _ => Ok Studio.scan;
       chat_completion := fun _ _ => Raise Sample.timeout;
       Spotify := fun _ _ => Sample.spotify_catalogue |}
    Studio.filled_page Sample.start
  = main Studio.shop Studio.python Studio.no_repr
      {| missing_package := None; Image_open := fun _ : unit => Ok tt;
         image_to_string := fun _ => Ok Studio.scan;
         chat_completion := fun _ _ => Ok Sample.garbled;
         Spotify := fun _ _ => Sample.spotify_catalogue |}
      Studio.filled_page Sample.start.
Proof.
  apply (proj1 (@ocr_engine_follows_key unit unit nat Studio.shop
                  Studio.python Studio.no_repr None (fun _ => Ok tt)
                  (fun _ => Ok Studio.scan) (fun _ => Ok Studio.scan)
                  (fun _ _ => Raise Sample.timeout)
                  (fun _ _ => Ok Sample.garbled)
                  (fun _ _ => Sample.spotify_catalogue)
                  Studio.filled_page Sample.start)).
  reflexivity.
Defined.
